(** * The synthesizer documentation notebooks, embedded and verified

    The repository holds three Jupyter notebooks.  Each code cell is a short
    Python script that calls into the external [synthesizer] package, into
    [numpy]/[unyt] and, for one notebook, into [matplotlib].

    Definitions come first, lemmas and theorems after them:
    - [Py]: the abstract syntax of the Python fragment the cells are written
      in, together with the statement forms the properties talk about
      ([for], [while], [if], [try], [raise], [def], [class]);
    - [Sem]: an executable semantics.  Everything the notebooks do not
      compute themselves (library calls, attribute reads on library objects,
      floating point and overloaded arithmetic, formatting, printing) is an
      operation of an external oracle; every such operation is logged with
      its reply, so a run yields an outcome and a trace;
    - [Notebooks]: the code cells of the three notebooks, cell by cell;
    - [Worlds]: sample oracles, to run the notebooks against;
    - [Analysis]: what can be read off the text of a program (the shapes of
      the operations it can ask for, its control flow, the names its cells
      read and bind);
    - [Props]: what the properties say about events, logs and states;
    - [Logic]: what is said of one step of a run;
    - [Cells]: what the cells do one by one (the events each adds to the
      trace, what it leaves in the namespace and in the notebook's lists),
      and how a run can end;
    - then the laws of the semantics, a way to follow a run step by step
      against an arbitrary oracle, and the theorems. *)

From Stdlib Require Import String Ascii ZArith List Bool Arith Lia.
Import ListNotations.
Open Scope string_scope.

(** Induction principles that reach through the lists, pairs and options the
    syntax trees are nested in. *)
Scheme All for list.
Scheme All for prod.
Scheme All for option.

(* ===================================================================== *)
(** ** Syntax *)
(* ===================================================================== *)

Module Py.

Inductive binop := Add | Sub | Mul | Div | Pow.

(** Expressions.  [EFloat] keeps a float literal as it is written (with its
    sign: CPython folds a signed literal into one constant).  [EJoined] and
    [EFormatted] are the two node kinds of an f-string, as in Python's [ast]
    module ([JoinedStr], [FormattedValue]). *)
Inductive expr :=
| EName (x : string)
| ENone
| EBool (b : bool)
| EInt (z : Z)
| EFloat (lit : string)
| EStr (s : string)
| EJoined (parts : list expr)
| EFormatted (e : expr) (spec : string)
| EAttr (e : expr) (a : string)
| ESubscript (e : expr) (i : expr)
| ECall (f : expr) (args : list expr) (kwargs : list (string * expr))
| ETuple (es : list expr)
| EList (es : list expr)
| EDict (kvs : list (expr * expr))
| EBinOp (op : binop) (l : expr) (r : expr).

(** Assignment targets (also the target of a [for]). *)
Inductive target :=
| TName (x : string)
| TTuple (ts : list target)
| TAttr (e : expr) (a : string)
| TSubscript (e : expr) (i : expr).

(** Statements.  [STry body cls name handler] is
    [try: body / except cls as name: handler]; [cls = None] is a bare
    [except:]. *)
Inductive stmt :=
| SImport (module : string) (asname : option string)
| SFromImport (module : string) (names : list (string * option string))
| SAssign (t : target) (e : expr)
| SExpr (e : expr)
| SFor (t : target) (iter : expr) (body : list stmt)
| SWhile (c : expr) (body : list stmt)
| SIf (c : expr) (body : list stmt) (orelse : list stmt)
| STry (body : list stmt) (cls : option string) (name : option string)
       (handler : list stmt)
| SRaise (e : expr)
| SFunctionDef (name : string) (params : list string) (body : list stmt)
| SClassDef (name : string) (bases : list expr) (body : list stmt).

(** A notebook: where it lives and its code cells in order (markdown cells
    carry no code). *)
Record notebook := Notebook {
  nb_path : string;
  nb_cells : list (list stmt)
}.

Definition nb_code (nb : notebook) : list stmt := concat (nb_cells nb).

End Py.
Import Py.

(* ===================================================================== *)
(** ** Values, the external oracle, and the execution monad *)
(* ===================================================================== *)

Module Sem.

(** What the oracle hands out: its own objects ([XObj]), and the plain data
    it is asked for (the items of an iteration as an [XTuple], a truth value,
    a formatted string).  The notebook holds such a value as an opaque
    handle: it passes it on and asks the oracle about it. *)
Inductive xval :=
| XObj (n : nat)
| XNone
| XBool (b : bool)
| XInt (z : Z)
| XStr (s : string)
| XTuple (xs : list xval)
| XExc (cls : string) (msg : string).

(** Run-time values.  [VLib q] is the qualified name [q] of something that
    lives in an imported module (the module itself, a class, a function, a
    constant); [VExt x] is a value handed out by the oracle;
    [VRef l] points to a list or dict the notebook built itself;
    [VBound l m] is the bound method [m] of the notebook's container at [l];
    [VExc cls msg] is an exception raised by the run time itself. *)
Inductive value :=
| VNone
| VBool (b : bool)
| VInt (z : Z)
| VFloat (lit : string)
| VStr (s : string)
| VTuple (vs : list value)
| VRef (l : nat)
| VBound (l : nat) (m : string)
| VBuiltin (name : string)
| VLib (qualname : string)
| VExt (x : xval)
| VExc (cls : string) (msg : string).

Inductive hobj :=
| HList (vs : list value)
| HDict (kvs : list (value * value)).

(** The operations referred to the oracle.  In [OpCall f recv args kwargs],
    [recv = Some (o, m)] records that the callee [f] was read as attribute
    [m] of [o] (a method call [o.m(...)]). *)
Inductive ext_op :=
| OpImport (module : string)
| OpGetAttr (o : value) (a : string)
| OpSetAttr (o : value) (a : string) (v : value)
| OpGetItem (o : value) (i : value)
| OpSetItem (o : value) (i : value) (v : value)
| OpCall (f : value) (recv : option (value * string)) (args : list value)
         (kwargs : list (string * value))
| OpIter (o : value)
| OpTruth (o : value)
| OpBinOp (op : binop) (l : value) (r : value)
| OpFormat (v : value) (spec : string).

Inductive reply :=
| Ok (x : xval)
| Raise (e : xval).

Definition event : Type := ext_op * reply.

(** The oracle: the external packages and the parts of the Python run time
    that are not modelled, as a state machine answering one operation at a
    time.  It is shown the notebook's heap, so that what it answers may
    depend on the contents of a list it is passed.  It cannot change the
    heap: the packages are taken not to modify the lists they are handed. *)
Record external := External {
  lstate : Type;
  lstep : lstate -> list hobj -> ext_op -> reply * lstate
}.

Inductive outcome (A : Type) :=
| Normal (a : A)
| Raised (e : value)
| Stuck (why : string).
Arguments Normal {A} a.
Arguments Raised {A} e.
Arguments Stuck {A} why.

Section Interp.

Variable X : external.

(** [env] is the kernel's global namespace (most recent binding first),
    [heap] the notebook's own lists and dicts, [world] the oracle's state,
    [log] the events so far, most recent first. *)
Record mstate := MState {
  env : list (string * value);
  heap : list hobj;
  world : lstate X;
  log : list event
}.

Definition M (A : Type) : Type := mstate -> outcome A * mstate.

Definition ret {A} (a : A) : M A := fun s => (Normal a, s).

Definition bind {A B} (m : M A) (k : A -> M B) : M B :=
  fun s =>
    match m s with
    | (Normal a, s') => k a s'
    | (Raised e, s') => (Raised e, s')
    | (Stuck w, s') => (Stuck w, s')
    end.

Definition raise {A} (e : value) : M A := fun s => (Raised e, s).
Definition stuck {A} (why : string) : M A := fun s => (Stuck why, s).

(** One operation of the oracle: its reply is logged, and a [Raise] reply
    becomes the outcome. *)
Definition ask (op : ext_op) : M value :=
  fun s =>
    match lstep X (world s) (heap s) op with
    | (Ok x, w) =>
        (Normal (VExt x), MState (env s) (heap s) w ((op, Ok x) :: log s))
    | (Raise e, w) =>
        (Raised (VExt e), MState (env s) (heap s) w ((op, Raise e) :: log s))
    end.

Notation "x <- m ;; k" := (bind m (fun x => k))
  (at level 61, m at next level, right associativity).
Notation "m ;;; k" := (bind m (fun _ => k))
  (at level 61, right associativity).

Definition mapM {A B} (f : A -> M B) : list A -> M (list B) :=
  fix go (l : list A) : M (list B) :=
    match l with
    | [] => ret []
    | a :: l' => b <- f a ;; bs <- go l' ;; ret (b :: bs)
    end.

(** *** The namespace *)

Fixpoint lookup (x : string) (e : list (string * value)) : option value :=
  match e with
  | [] => None
  | (y, v) :: e' => if String.eqb x y then Some v else lookup x e'
  end.

(** The names Python resolves in [builtins] when no cell has bound them. *)
Definition builtin_names : list string :=
  [ "print"; "enumerate"; "type"; "len"; "range"; "open"; "input"; "str";
    "int"; "float"; "bool"; "list"; "dict"; "tuple"; "set"; "zip"; "map";
    "filter"; "sum"; "min"; "max"; "abs"; "round"; "sorted"; "reversed";
    "isinstance"; "getattr"; "setattr"; "hasattr"; "repr"; "iter"; "next";
    "exec"; "eval"; "Exception"; "ValueError"; "TypeError"; "KeyError";
    "RuntimeError" ].

Definition load_name (x : string) : M value :=
  fun s =>
    match lookup x (env s) with
    | Some v => (Normal v, s)
    | None =>
        if existsb (String.eqb x) builtin_names
        then (Normal (VBuiltin x), s)
        else (Raised (VExc "NameError" x), s)
    end.

(** Binding a name puts the binding in front, where [lookup] finds it
    first. *)
Definition set_var (x : string) (v : value) : M unit :=
  fun s => (Normal tt, MState ((x, v) :: env s) (heap s) (world s) (log s)).

(** *** The notebook's own lists and dicts *)

Definition alloc (o : hobj) : M value :=
  fun s =>
    (Normal (VRef (length (heap s))),
     MState (env s) (heap s ++ [o]) (world s) (log s)).

Definition heap_get (l : nat) : M hobj :=
  fun s =>
    match nth_error (heap s) l with
    | Some o => (Normal o, s)
    | None => (Stuck "dangling reference", s)
    end.

Fixpoint list_set {A} (l : list A) (n : nat) (a : A) : list A :=
  match l, n with
  | [], _ => []
  | _ :: l', O => a :: l'
  | b :: l', S n' => b :: list_set l' n' a
  end.

Definition heap_set (l : nat) (o : hobj) : M unit :=
  fun s =>
    (Normal tt, MState (env s) (list_set (heap s) l o) (world s) (log s)).

(** Equality of values, for dict keys. *)
Fixpoint xval_eqb (a b : xval) : bool :=
  match a, b with
  | XObj x, XObj y => Nat.eqb x y
  | XNone, XNone => true
  | XBool x, XBool y => Bool.eqb x y
  | XInt x, XInt y => Z.eqb x y
  | XStr x, XStr y => String.eqb x y
  | XTuple xs, XTuple ys =>
      (fix go (xs ys : list xval) : bool :=
         match xs, ys with
         | [], [] => true
         | x :: xs', y :: ys' => xval_eqb x y && go xs' ys'
         | _, _ => false
         end) xs ys
  | XExc c m, XExc d n => String.eqb c d && String.eqb m n
  | _, _ => false
  end.

Fixpoint value_eqb (a b : value) : bool :=
  match a, b with
  | VNone, VNone => true
  | VBool x, VBool y => Bool.eqb x y
  | VInt x, VInt y => Z.eqb x y
  | VFloat x, VFloat y => String.eqb x y
  | VStr x, VStr y => String.eqb x y
  | VTuple xs, VTuple ys =>
      (fix go (xs ys : list value) : bool :=
         match xs, ys with
         | [], [] => true
         | x :: xs', y :: ys' => value_eqb x y && go xs' ys'
         | _, _ => false
         end) xs ys
  | VRef x, VRef y => Nat.eqb x y
  | VBound x m, VBound y n => Nat.eqb x y && String.eqb m n
  | VBuiltin x, VBuiltin y => String.eqb x y
  | VLib x, VLib y => String.eqb x y
  | VExt x, VExt y => xval_eqb x y
  | VExc c m, VExc d n => String.eqb c d && String.eqb m n
  | _, _ => false
  end.

Fixpoint dict_get (k : value) (kvs : list (value * value)) : option value :=
  match kvs with
  | [] => None
  | (k', v) :: kvs' => if value_eqb k k' then Some v else dict_get k kvs'
  end.

Fixpoint dict_set (k v : value) (kvs : list (value * value))
  : list (value * value) :=
  match kvs with
  | [] => [(k, v)]
  | (k', v') :: kvs' =>
      if value_eqb k k' then (k, v) :: kvs' else (k', v') :: dict_set k v kvs'
  end.

(** Python's sequence index: a negative index counts from the end. *)
Definition seq_index (n : nat) (z : Z) : option nat :=
  if (0 <=? z)%Z then
    (if (z <? Z.of_nat n)%Z then Some (Z.to_nat z) else None)
  else
    (if (0 <=? Z.of_nat n + z)%Z then Some (Z.to_nat (Z.of_nat n + z))
     else None).

Definition index_error {A} : M A := raise (VExc "IndexError" "out of range").

Definition seq_get (vs : list value) (z : Z) : M value :=
  match seq_index (length vs) z with
  | Some n =>
      match nth_error vs n with
      | Some v => ret v
      | None => index_error
      end
  | None => index_error
  end.

(** *** Operations on values: computed here when both sides are the
    notebook's own integers, strings, tuples, lists and dicts; referred to
    the oracle otherwise. *)

(** Reading an attribute.  An attribute of an imported module or class is
    resolved by its qualified name, and the oracle is not asked: the
    packages are taken to have the names the notebooks use, so no run ends
    with an [AttributeError] on such a read. *)
Definition get_attr (o : value) (a : string) : M value :=
  match o with
  | VLib q => ret (VLib (q ++ "." ++ a))
  | VRef l => ret (VBound l a)
  | _ => ask (OpGetAttr o a)
  end.

(** Who a callee read through [get_attr] belongs to, when the read went to
    the oracle. *)
Definition recv_of (o : value) (a : string) : option (value * string) :=
  match o with
  | VLib _ | VRef _ => None
  | _ => Some (o, a)
  end.

Definition get_item (o i : value) : M value :=
  match o, i with
  | VTuple vs, VInt z => seq_get vs z
  | VRef l, _ =>
      ho <- heap_get l ;;
      match ho, i with
      | HList vs, VInt z => seq_get vs z
      | HDict kvs, _ =>
          match dict_get i kvs with
          | Some v => ret v
          | None => raise (VExc "KeyError" "")
          end
      | _, _ => raise (VExc "TypeError" "list indices must be integers")
      end
  | _, _ => ask (OpGetItem o i)
  end.

Definition set_item (o i v : value) : M unit :=
  match o with
  | VRef l =>
      ho <- heap_get l ;;
      match ho, i with
      | HList vs, VInt z =>
          match seq_index (length vs) z with
          | Some n => heap_set l (HList (list_set vs n v))
          | None => index_error
          end
      | HDict kvs, _ => heap_set l (HDict (dict_set i v kvs))
      | _, _ => raise (VExc "TypeError" "list indices must be integers")
      end
  | _ => ask (OpSetItem o i v) ;;; ret tt
  end.

(** The items a value yields when iterated.  The oracle is asked once for
    all the items of one of its values, and gives them as a tuple: an
    iteration that fails does so before the first round of a loop, and an
    iterator that fails between two rounds is not followed. *)
Definition iterate (v : value) : M (list value) :=
  match v with
  | VTuple vs => ret vs
  | VRef l =>
      ho <- heap_get l ;;
      match ho with
      | HList vs => ret vs
      | HDict kvs => ret (map fst kvs)
      end
  | _ =>
      r <- ask (OpIter v) ;;
      match r with
      | VExt (XTuple xs) => ret (map VExt xs)
      | _ => stuck "iteration reply is not a tuple of items"
      end
  end.

Definition truth (v : value) : M bool :=
  match v with
  | VNone => ret false
  | VBool b => ret b
  | VInt z => ret (negb (z =? 0)%Z)
  | VStr s => ret (negb (String.eqb s ""))
  | VTuple vs => ret (negb (Nat.eqb (length vs) 0))
  | VRef l =>
      ho <- heap_get l ;;
      match ho with
      | HList vs => ret (negb (Nat.eqb (length vs) 0))
      | HDict kvs => ret (negb (Nat.eqb (length kvs) 0))
      end
  | _ =>
      r <- ask (OpTruth v) ;;
      match r with
      | VExt (XBool b) => ret b
      | _ => stuck "truth reply is not a bool"
      end
  end.

Definition bin_op (op : binop) (l r : value) : M value :=
  match op, l, r with
  | Add, VInt a, VInt b => ret (VInt (a + b))
  | Sub, VInt a, VInt b => ret (VInt (a - b))
  | Mul, VInt a, VInt b => ret (VInt (a * b))
  | Pow, VInt a, VInt b =>
      if (0 <=? b)%Z then ret (VInt (a ^ b)) else ask (OpBinOp op l r)
  | _, _, _ => ask (OpBinOp op l r)
  end.

Definition ask_format (v : value) (spec : string) : M value :=
  r <- ask (OpFormat v spec) ;;
  match r with
  | VExt (XStr s) => ret (VStr s)
  | _ => stuck "format reply is not a string"
  end.

Definition format_value (v : value) (spec : string) : M value :=
  match v with
  | VStr s => if String.eqb spec "" then ret v else ask_format v spec
  | _ => ask_format v spec
  end.

(** The parts of an f-string, put together. *)
Fixpoint concat_strs (vs : list value) : option string :=
  match vs with
  | [] => Some ""
  | VStr s :: vs' => option_map (append s) (concat_strs vs')
  | _ :: _ => None
  end.

Definition join (vs : list value) : M string :=
  match concat_strs vs with
  | Some s => ret s
  | None => stuck "f-string part is not a string"
  end.

Fixpoint enumerate_from (k : nat) (vs : list value) : list value :=
  match vs with
  | [] => []
  | v :: vs' => VTuple [VInt (Z.of_nat k); v] :: enumerate_from (S k) vs'
  end.

(** A call.  [list.append] and [enumerate] are computed here (the pairs of
    [enumerate] are built at once); every other callee is the oracle's. *)
Definition call (f : value) (recv : option (value * string))
    (args : list value) (kwargs : list (string * value)) : M value :=
  match f with
  | VBound l m =>
      if String.eqb m "append" then
        match args, kwargs with
        | [v], [] =>
            ho <- heap_get l ;;
            match ho with
            | HList vs => heap_set l (HList (vs ++ [v])) ;;; ret VNone
            | HDict _ => raise (VExc "AttributeError" "append")
            end
        | _, _ => raise (VExc "TypeError" "append takes one argument")
        end
      else stuck "container method outside the model"
  | VBuiltin name =>
      if String.eqb name "enumerate" then
        match args, kwargs with
        | [v], [] => items <- iterate v ;; ret (VTuple (enumerate_from 0 items))
        | _, _ => stuck "enumerate with a start value is outside the model"
        end
      else ask (OpCall f recv args kwargs)
  | _ => ask (OpCall f recv args kwargs)
  end.

(** *** Expressions *)

Fixpoint eval (e : expr) : M value :=
  match e with
  | EName x => load_name x
  | ENone => ret VNone
  | EBool b => ret (VBool b)
  | EInt z => ret (VInt z)
  | EFloat lit => ret (VFloat lit)
  | EStr s => ret (VStr s)
  | EJoined parts => vs <- mapM eval parts ;; s <- join vs ;; ret (VStr s)
  | EFormatted e1 spec => v <- eval e1 ;; format_value v spec
  | EAttr e1 a => o <- eval e1 ;; get_attr o a
  | ESubscript e1 i => o <- eval e1 ;; k <- eval i ;; get_item o k
  | ECall f args kwargs =>
      cr <- match f with
            | EAttr e1 a =>
                o <- eval e1 ;; c <- get_attr o a ;; ret (c, recv_of o a)
            | _ => c <- eval f ;; ret (c, None)
            end ;;
      avs <- mapM eval args ;;
      kvs <- mapM (fun p => let '(k, e1) := p in v <- eval e1 ;; ret (k, v))
                  kwargs ;;
      call (fst cr) (snd cr) avs kvs
  | ETuple es => vs <- mapM eval es ;; ret (VTuple vs)
  | EList es => vs <- mapM eval es ;; alloc (HList vs)
  | EDict kvs =>
      ps <- mapM (fun p => let '(ke, ve) := p in
                           k <- eval ke ;; v <- eval ve ;; ret (k, v)) kvs ;;
      alloc (HDict ps)
  | EBinOp op l r => a <- eval l ;; b <- eval r ;; bin_op op a b
  end.

(** *** Assignment *)

Fixpoint assign_all (assign : target -> value -> M unit)
    (ts : list target) (vs : list value) : M unit :=
  match ts, vs with
  | t :: ts', v :: vs' => assign t v ;;; assign_all assign ts' vs'
  | _, _ => ret tt
  end.

Fixpoint assign (t : target) (v : value) {struct t} : M unit :=
  match t with
  | TName x => set_var x v
  | TTuple ts =>
      items <- iterate v ;;
      if Nat.eqb (length items) (length ts)
      then assign_all assign ts items
      else raise (VExc "ValueError" "wrong number of values to unpack")
  | TAttr e a => o <- eval e ;; ask (OpSetAttr o a v) ;;; ret tt
  | TSubscript e i => o <- eval e ;; k <- eval i ;; set_item o k v
  end.

(** *** Statements *)

(** The name [import m] binds: the top-level package of [m]. *)
Fixpoint top_package (m : string) : string :=
  match m with
  | EmptyString => EmptyString
  | String c m' =>
      if Ascii.eqb c "."%char then EmptyString else String c (top_package m')
  end.

Definition block (exec : stmt -> M unit) : list stmt -> M unit :=
  fix go (ss : list stmt) : M unit :=
    match ss with
    | [] => ret tt
    | s :: ss' => exec s ;;; go ss'
    end.

Definition for_each (step : value -> M unit) : list value -> M unit :=
  fix go (items : list value) : M unit :=
    match items with
    | [] => ret tt
    | v :: items' => step v ;;; go items'
    end.

(** [while]: at most [fuel] iterations are followed. *)
Fixpoint while_loop (fuel : nat) (cond : M bool) (body : M unit) : M unit :=
  match fuel with
  | O => stuck "out of fuel"
  | S fuel' =>
      b <- cond ;;
      if b then body ;;; while_loop fuel' cond body else ret tt
  end.

(** Which exceptions an [except cls] clause takes.  The class hierarchy is
    flat: a clause takes the class it names, and [Exception] and
    [BaseException] take everything. *)
Definition handles (cls : option string) (e : value) : bool :=
  match cls with
  | None => true
  | Some c =>
      String.eqb c "Exception" || String.eqb c "BaseException" ||
      match e with
      | VExc c' _ => String.eqb c c'
      | VExt (XExc c' _) => String.eqb c c'
      | _ => false
      end
  end.

Definition try_catch (body : M unit) (cls name : option string)
    (handler : M unit) : M unit :=
  fun s =>
    match body s with
    | (Raised e, s') =>
        if handles cls e then
          match name with
          | Some x => (set_var x e ;;; handler) s'
          | None => handler s'
          end
        else (Raised e, s')
    | r => r
    end.

Definition for_names (step : string * option string -> M unit)
  : list (string * option string) -> M unit :=
  fix go (ps : list (string * option string)) : M unit :=
    match ps with
    | [] => ret tt
    | p :: ps' => step p ;;; go ps'
    end.

Definition bind_import (m : string) (p : string * option string) : M unit :=
  let '(x, asname) := p in
  set_var (match asname with Some a => a | None => x end)
          (VLib (m ++ "." ++ x)).

Fixpoint exec (fuel : nat) (s : stmt) {struct s} : M unit :=
  match s with
  | SImport m asname =>
      ask (OpImport m) ;;;
      match asname with
      | Some a => set_var a (VLib m)
      | None => set_var (top_package m) (VLib (top_package m))
      end
  | SFromImport m names =>
      ask (OpImport m) ;;; for_names (bind_import m) names
  | SAssign t e => v <- eval e ;; assign t v
  | SExpr e => eval e ;;; ret tt
  | SFor t iter body =>
      v <- eval iter ;;
      items <- iterate v ;;
      for_each (fun x => assign t x ;;; block (exec fuel) body) items
  | SWhile c body =>
      while_loop fuel (v <- eval c ;; truth v) (block (exec fuel) body)
  | SIf c body orelse =>
      v <- eval c ;;
      b <- truth v ;;
      if b then block (exec fuel) body else block (exec fuel) orelse
  | STry body cls name handler =>
      try_catch (block (exec fuel) body) cls name (block (exec fuel) handler)
  | SRaise e => v <- eval e ;; raise v
  | SFunctionDef _ _ _ => stuck "def is outside the model"
  | SClassDef _ _ _ => stuck "class is outside the model"
  end.

Definition exec_block (fuel : nat) : list stmt -> M unit := block (exec fuel).

(** A block [init; for t in iter: body], taken apart as [exec] runs it:
    up to the list of items the loop will go through, and one iteration. *)
Definition loop_start (fuel : nat) (init : list stmt) (iter : expr)
  : M (list value) :=
  exec_block fuel init ;;; (v <- eval iter ;; iterate v).

Definition loop_step (fuel : nat) (t : target) (body : list stmt)
  : value -> M unit :=
  fun x => assign t x ;;; exec_block fuel body.

(** A run starts in an empty namespace with an empty heap and log. *)
Definition initial (w : lstate X) : mstate := MState [] [] w [].

Definition run (fuel : nat) (w : lstate X) (p : list stmt)
  : outcome unit * mstate :=
  exec_block fuel p (initial w).

(** The events of a state in the order they happened. *)
Definition trace (s : mstate) : list event := rev (log s).

End Interp.

Arguments MState {X} env heap world log.
Arguments env {X} m.
Arguments heap {X} m.
Arguments world {X} m.
Arguments log {X} m.
Arguments trace {X} s.

End Sem.
Import Sem.

(* ===================================================================== *)
(** ** The notebooks *)
(* ===================================================================== *)

Module Notebooks.

(** Shorthand for the shapes the cells are made of. *)
Definition app (f : expr) (args : list expr) : expr := ECall f args [].
Definition meth (o : expr) (m : string) (args : list expr) : expr :=
  ECall (EAttr o m) args [].
Definition print (e : expr) : stmt := SExpr (app (EName "print") [e]).
Definition fmt (x : string) : expr := EFormatted (EName x) "".
Notation "x ::= e" := (SAssign (TName x) e) (at level 70, no associativity).
Notation "e @ a" := (EAttr e a) (at level 25, left associativity).
Notation "$ x" := (EName x) (at level 9, format "$ x").

(** The three lines every example asks for: H-beta and the [O III] doublet. *)
Definition hb_o3_lines : list expr :=
  [ $"line_ratios" @ "Hb"; $"line_ratios" @ "O3r"; $"line_ratios" @ "O3b" ].

(** *** Lines from [Grid] objects ([src/unnamed/part_000]) *)

Definition grid_lines_imports : list stmt :=
  [ SImport "matplotlib.pyplot" (Some "plt");
    SImport "numpy" (Some "np");
    SImport "synthesizer.line_ratios" (Some "line_ratios");
    SFromImport "synthesizer.grid" [("Grid", None)];
    SFromImport "synthesizer.line" [("get_diagram_labels", None)] ].

Definition grid_lines_ratios_module : list stmt :=
  [ print ($"line_ratios" @ "Ha");
    print ($"line_ratios" @ "available_ratios");
    print ($"line_ratios" @ "available_diagrams") ].

Definition grid_lines_load : list stmt :=
  [ "grid_dir" ::= EStr "../../../tests/test_grid";
    "grid_name" ::= EStr "test_grid";
    "grid" ::= ECall $"Grid" [ $"grid_name" ] [("grid_dir", $"grid_dir")] ].

Definition grid_lines_available : list stmt :=
  [ print ($"grid" @ "available_lines") ].

Definition grid_lines_print_grid : list stmt :=
  [ print $"grid" ].

Definition grid_lines_single_line : list stmt :=
  [ "log10age" ::= EFloat "6.0";
    "metallicity" ::= EFloat "0.01";
    "grid_point" ::=
      meth $"grid" "get_grid_point" [ ETuple [ $"log10age"; $"metallicity" ] ];
    "line_id" ::= $"line_ratios" @ "Hb";
    "line" ::= meth $"grid" "get_line" [ $"grid_point"; $"line_id" ];
    print $"line" ].

Definition grid_lines_doublet : list stmt :=
  [ "line" ::= meth $"grid" "get_line" [ $"grid_point"; EList hb_o3_lines ];
    print $"line" ].

Definition grid_lines_collection : list stmt :=
  [ "lines" ::= meth $"grid" "get_lines" [ $"grid_point" ];
    print $"lines" ].

Definition ratio_report : stmt :=
  print (EJoined [ fmt "ratio_id"; EStr ": "; EFormatted $"ratio" ".2f" ]).

Definition grid_lines_ratios : list stmt :=
  [ "ratio_id" ::= EStr "BalmerDecrement";
    "ratio" ::= meth $"lines" "get_ratio" [ $"ratio_id" ];
    ratio_report;
    SFor (TName "ratio_id") ($"lines" @ "available_ratios")
      [ "ratio" ::= meth $"lines" "get_ratio" [ $"ratio_id" ];
        ratio_report ] ].

Definition grid_lines_arbitrary_ratio : list stmt :=
  [ SExpr (meth $"lines" "get_ratio"
             [ EList [ EStr "Ne 4 1601.45A"; EStr "He 2 1640.41A" ] ]);
    SExpr (meth $"lines" "get_ratio"
             [ EList [ EStr "Ne 4 1601.45A, He 2 1640.41A";
                       EStr "O 3 1660.81A" ] ]) ].

(** The two loops over the metallicity axis have the same head:
    [for iZ, Z in enumerate(grid.metallicity)]. *)
Definition metallicity_target : target := TTuple [TName "iZ"; TName "Z"].
Definition metallicity_items : expr :=
  app $"enumerate" [ $"grid" @ "metallicity" ].

(** The R23 cell: the loop over the metallicity axis, then the plot. *)
Definition r23_body : list stmt :=
  [ "grid_point" ::= ETuple [ $"ia"; $"iZ" ];
    "lines" ::= meth $"grid" "get_lines" [ $"grid_point" ];
    SExpr (meth $"ratios" "append"
             [ meth $"lines" "get_ratio" [ $"ratio_id" ] ]) ].

Definition r23_init : list stmt :=
  [ "ratio_id" ::= EStr "R23";
    "ia" ::= EInt 0;
    "ratios" ::= EList [] ].

Definition r23_loop : list stmt :=
  r23_init ++ [ SFor metallicity_target metallicity_items r23_body ].

Definition r23_plot : list stmt :=
  [ "Zsun" ::= EBinOp Div ($"grid" @ "metallicity") (EFloat "0.0124");
    SExpr (meth $"plt" "plot" [ $"Zsun"; $"ratios" ]);
    SExpr (meth $"plt" "xlim" [ EList [ EFloat "0.01"; EInt 1 ] ]);
    SExpr (meth $"plt" "ylim" [ EList [ EInt 1; EInt 20 ] ]);
    SExpr (meth $"plt" "xscale" [ EStr "log" ]);
    SExpr (meth $"plt" "yscale" [ EStr "log" ]);
    SExpr (meth $"plt" "xlabel" [ EStr "$Z/Z_{\odot}$" ]);
    SExpr (meth $"plt" "ylabel" [ EJoined [ fmt "ratio_id" ] ]);
    SExpr (meth $"plt" "show" []) ].

Definition grid_lines_r23 : list stmt := r23_loop ++ r23_plot.

(** The BPT cell: the loop that fills [x] and [y], then the plot. *)
Definition bpt_body : list stmt :=
  [ "grid_point" ::= ETuple [ $"ia"; $"iZ" ];
    "lines" ::= meth $"grid" "get_lines" [ $"grid_point" ];
    SAssign (TTuple [TName "x_"; TName "y_"])
            (meth $"lines" "get_diagram" [ $"diagram_id" ]);
    SExpr (meth $"x" "append" [ $"x_" ]);
    SExpr (meth $"y" "append" [ $"y_" ]) ].

Definition bpt_init : list stmt :=
  [ "diagram_id" ::= EStr "BPT-NII";
    "ia" ::= EInt 0;
    "x" ::= EList [];
    "y" ::= EList [] ].

Definition bpt_loop : list stmt :=
  bpt_init ++ [ SFor metallicity_target metallicity_items bpt_body ].

Definition bpt_plot : list stmt :=
  [ "logNII_Ha" ::=
      meth $"np" "arange" [ EFloat "-2.0"; EFloat "1.0"; EFloat "0.01" ];
    "logOIII_Hb" ::= meth $"line_ratios" "get_bpt_kewley01" [ $"logNII_Ha" ];
    SExpr (ECall ($"plt" @ "plot")
             [ EBinOp Pow (EInt 10) $"logNII_Ha";
               EBinOp Pow (EInt 10) $"logOIII_Hb" ]
             [ ("c", EStr "k"); ("lw", EStr "2"); ("alpha", EFloat "0.3") ]);
    SExpr (meth $"plt" "plot" [ $"x"; $"y" ]);
    SExpr (meth $"plt" "xlim" [ EList [ EFloat "0.01"; EInt 10 ] ]);
    SExpr (meth $"plt" "ylim" [ EList [ EFloat "0.05"; EInt 20 ] ]);
    SExpr (meth $"plt" "xscale" [ EStr "log" ]);
    SExpr (meth $"plt" "yscale" [ EStr "log" ]);
    SAssign (TTuple [TName "xlabel"; TName "ylabel"])
            (app $"get_diagram_labels" [ $"diagram_id" ]);
    SExpr (meth $"plt" "xlabel" [ EJoined [ EStr "$"; fmt "xlabel"; EStr "$" ] ]);
    SExpr (meth $"plt" "ylabel" [ EJoined [ EStr "$"; fmt "ylabel"; EStr "$" ] ]);
    SExpr (meth $"plt" "show" []) ].

Definition grid_lines_bpt : list stmt := bpt_loop ++ bpt_plot.

Definition grid_lines : notebook :=
  Notebook "src/unnamed/part_000"
    [ grid_lines_imports; grid_lines_ratios_module; grid_lines_load;
      grid_lines_available; grid_lines_print_grid; grid_lines_single_line;
      grid_lines_doublet; grid_lines_collection; grid_lines_ratios;
      grid_lines_arbitrary_ratio; grid_lines_r23; grid_lines_bpt ].

(** The cells that come before the R23 cell, and before the BPT cell. *)
Definition grid_lines_before_r23 : list stmt :=
  concat (firstn 10 (nb_cells grid_lines)).
Definition grid_lines_before_bpt : list stmt :=
  concat (firstn 11 (nb_cells grid_lines)).

(** The notebook up to and including the cell that loops over the
    available ratios, and the cells after it. *)
Definition grid_lines_upto_ratios : list stmt :=
  concat (firstn 9 (nb_cells grid_lines)).
Definition grid_lines_after_ratios : list stmt :=
  concat (skipn 9 (nb_cells grid_lines)).

(** *** Particle vs parametric galaxies ([src/unnamed/part_001]) *)

Definition particle_parametric_setup : list stmt :=
  [ SImport "numpy" (Some "np");
    SFromImport "synthesizer.grid" [("Grid", None)];
    SFromImport "synthesizer.parametric" [("SFH", None); ("ZDist", None)];
    SFromImport "synthesizer.parametric" [("Stars", Some "ParametricStars")];
    SFromImport "synthesizer.particle.stars" [("sample_sfhz", None)];
    SFromImport "unyt" [("Myr", None)];
    "grid_name" ::= EStr "test_grid";
    "grid_dir" ::= EStr "../../../tests/test_grid/";
    "grid" ::= ECall $"Grid" [ $"grid_name" ] [("grid_dir", $"grid_dir")];
    "zh" ::= ECall ($"ZDist" @ "DeltaConstant") []
               [("metallicity", EFloat "0.01")];
    "sfh_p" ::= EDict [ (EStr "duration", EBinOp Mul (EInt 100) $"Myr") ];
    "sfh" ::= ECall ($"SFH" @ "Constant") []
                [("duration", EBinOp Mul (EInt 100) $"Myr")];
    "param_stars" ::=
      ECall $"ParametricStars"
        [ $"grid" @ "log10age"; $"grid" @ "metallicity" ]
        [ ("sf_hist", $"sfh"); ("metal_dist", $"zh");
          ("initial_mass", EBinOp Pow (EInt 10) (EInt 9)) ];
    "n" ::= EInt 10000;
    "part_stars" ::=
      ECall $"sample_sfhz" []
        [ ("sfzh", $"param_stars" @ "sfzh");
          ("log10ages", $"param_stars" @ "log10ages");
          ("log10metallicities", $"param_stars" @ "log10metallicities");
          ("nstar", $"n");
          ("current_masses",
           meth $"np" "full"
             [ $"n";
               EBinOp Div (EBinOp Pow (EInt 10) (EFloat "8.7")) $"n" ]);
          ("redshift", EInt 1);
          ("initial_mass", EBinOp Pow (EInt 10) (EInt 6)) ];
    print (app $"type" [ $"param_stars" ]);
    print (app $"type" [ $"part_stars" ]) ].

Definition make_part_gal : stmt :=
  "part_gal" ::=
    ECall $"Galaxy" []
      [ ("stars", $"part_stars"); ("gas", ENone); ("black_holes", ENone);
        ("redshift", EInt 1) ].

Definition make_param_gal : stmt :=
  "param_gal" ::=
    ECall $"Galaxy" [] [ ("stars", $"param_stars"); ("redshift", EInt 1) ].

Definition particle_parametric_factory : list stmt :=
  [ SFromImport "synthesizer" [("Galaxy", None)];
    make_part_gal;
    print $"part_gal";
    SExpr (app $"print" []);
    make_param_gal;
    print $"param_gal" ].

Definition particle_parametric_particle : list stmt :=
  [ SFromImport "synthesizer.particle" [("Galaxy", None)];
    make_part_gal;
    print $"part_gal" ].

Definition particle_parametric_param : list stmt :=
  [ SFromImport "synthesizer.parametric" [("Galaxy", None)];
    make_param_gal;
    print $"param_gal" ].

Definition particle_parametric : notebook :=
  Notebook "src/unnamed/part_001"
    [ particle_parametric_setup; particle_parametric_factory;
      particle_parametric_particle; particle_parametric_param ].

(** *** Lines from [Galaxy] objects
    ([src/docs/source/lines/galaxy_lines.ipynb]) *)

Definition power_law (slope : string) : expr :=
  ECall $"PowerLaw" [] [("slope", EFloat slope)].
Definition blackbody (kelvins : Z) : expr :=
  ECall $"Blackbody" []
    [("temperature", EBinOp Mul (EInt kelvins) $"kelvin")].
Definition emergent (attr : string) : stmt :=
  print (ESubscript ($"stars" @ attr) (EStr "emergent")).

Definition galaxy_lines_parametric : list stmt :=
  [ SImport "synthesizer.line_ratios" (Some "line_ratios");
    SFromImport "synthesizer.emission_models" [("BimodalPacmanEmission", None)];
    SFromImport "synthesizer.emission_models.attenuation" [("PowerLaw", None)];
    SFromImport "synthesizer.emission_models.dust.emission"
      [("Blackbody", None)];
    SFromImport "synthesizer.grid" [("Grid", None)];
    SFromImport "synthesizer.parametric"
      [("SFH", None); ("Stars", None); ("ZDist", None)];
    SFromImport "unyt" [("Myr", None); ("kelvin", None)];
    "grid_dir" ::= EStr "../../../tests/test_grid";
    "grid_name" ::= EStr "test_grid";
    "grid" ::= ECall $"Grid" [ $"grid_name" ] [("grid_dir", $"grid_dir")];
    "stellar_mass" ::= EBinOp Pow (EInt 10) (EInt 12);
    "sfh" ::= ECall ($"SFH" @ "Constant") []
                [("duration", EBinOp Mul (EInt 100) $"Myr")];
    "metal_dist" ::= ECall ($"ZDist" @ "Normal") []
                       [("mean", EFloat "0.01"); ("sigma", EFloat "0.05")];
    "stars" ::=
      ECall $"Stars"
        [ $"grid" @ "log10age"; $"grid" @ "metallicity" ]
        [ ("sf_hist", $"sfh"); ("metal_dist", $"metal_dist");
          ("initial_mass", $"stellar_mass") ];
    "model" ::=
      ECall $"BimodalPacmanEmission" []
        [ ("grid", $"grid");
          ("tau_v_ism", EFloat "0.5");
          ("tau_v_nebular", EFloat "0.7");
          ("dust_curve_ism", power_law "-1.3");
          ("dust_curve_nebular", power_law "-0.7");
          ("dust_emission_ism", blackbody 100);
          ("dust_emission_nebular", blackbody 30);
          ("fesc", EFloat "0.2");
          ("fesc_ly_alpha", EFloat "0.9") ];
    SExpr (meth $"stars" "get_spectra" [ $"model" ]);
    "lines" ::= meth $"stars" "get_lines" [ ETuple hb_o3_lines; $"model" ];
    emergent "lines" ].

Definition galaxy_lines_particle : list stmt :=
  [ SFromImport "synthesizer.emission_models" [("PacmanEmission", None)];
    SFromImport "synthesizer.load_data.load_camels"
      [("load_CAMELS_IllustrisTNG", None)];
    "stars" ::=
      ESubscript
        (ECall $"load_CAMELS_IllustrisTNG"
           [ EStr "../../../tests/data/" ]
           [ ("snap_name", EStr "camels_snap.hdf5");
             ("fof_name", EStr "camels_subhalo.hdf5");
             ("physical", EBool true) ])
        (EInt 0) @ "stars";
    "model" ::=
      ECall $"PacmanEmission" []
        [ ("grid", $"grid");
          ("tau_v", EFloat "0.7");
          ("dust_curve", power_law "-1.3");
          ("dust_emission", blackbody 50);
          ("fesc", EFloat "0.2");
          ("fesc_ly_alpha", EFloat "0.9") ];
    SExpr (meth $"stars" "get_spectra" [ $"model" ]);
    SExpr (meth $"stars" "get_lines" [ ETuple hb_o3_lines; $"model" ]);
    emergent "lines";
    SExpr (meth $"stars" "get_particle_spectra" [ $"model" ]);
    SExpr (meth $"stars" "get_particle_lines" [ ETuple hb_o3_lines; $"model" ]);
    emergent "particle_lines" ].

Definition galaxy_lines : notebook :=
  Notebook "src/docs/source/lines/galaxy_lines.ipynb"
    [ galaxy_lines_parametric; galaxy_lines_particle ].

(** The whole repository. *)
Definition notebooks : list notebook :=
  [ grid_lines; particle_parametric; galaxy_lines ].

End Notebooks.

(* ===================================================================== *)
(** ** Sample oracles *)
(* ===================================================================== *)

Module Worlds.

(** A stand-in for the packages.  Its state counts the operations answered
    so far.  Every object it hands out is [XObj k], numbered by the
    operation that made it; a diagram is a pair, which iterates to its two
    components; any other iterated object has [n] items; a formatted value is
    a string. *)
Definition is_method (m : string) (recv : option (value * string)) : bool :=
  match recv with
  | Some (_, m') => String.eqb m m'
  | None => false
  end.

Definition demo_reply (n k : nat) (op : ext_op) : reply :=
  match op with
  | OpIter (VExt (XTuple xs)) => Ok (XTuple xs)
  | OpIter _ => Ok (XTuple (map XObj (seq (100 * k) n)))
  | OpFormat _ _ => Ok (XStr "~")
  | OpTruth _ => Ok (XBool true)
  | OpCall f recv _ _ =>
      if is_method "get_diagram" recv
         || value_eqb f (VLib "synthesizer.line.get_diagram_labels")
      then Ok (XTuple [XObj k; XObj (S k)])
      else if value_eqb f (VBuiltin "print") then Ok XNone
      else Ok (XObj k)
  | _ => Ok (XObj k)
  end.

Definition demo (n : nat) : external :=
  External nat (fun k _ op => (demo_reply n k op, S k)).

(** The same packages, except that the operation numbered [bad] fails. *)
Definition library_failure : xval := XExc "RuntimeError" "library failure".

Definition failing (n bad : nat) : external :=
  External nat
    (fun k _ op =>
       (if Nat.eqb k bad then Raise library_failure else demo_reply n k op,
        S k)).

(** The grid-lines notebook run against [demo 3] up to the BPT cell; where
    the BPT loop then starts, and the items it goes through. *)
Definition bpt_demo_state : mstate (demo 3) :=
  Eval vm_compute in snd (run (demo 3) 0 0 Notebooks.grid_lines_before_bpt).

Definition bpt_demo_start : mstate (demo 3) :=
  Eval vm_compute in
    snd (loop_start (demo 3) 0 Notebooks.bpt_init Notebooks.metallicity_items
           bpt_demo_state).

Definition bpt_demo_items : list value :=
  Eval vm_compute in
    match fst (loop_start (demo 3) 0 Notebooks.bpt_init
                 Notebooks.metallicity_items bpt_demo_state) with
    | Normal items => items
    | _ => []
    end.

End Worlds.


(* ===================================================================== *)
(** ** What a program can ask of the oracle, read off its text *)
(* ===================================================================== *)

Module Analysis.

Local Open Scope list_scope.

(** The shape of an operation: what it is, without the values involved. *)
Inductive op_shape :=
| ShImport (module : string)
| ShGetAttr (a : string)
| ShSetAttr (a : string)
| ShGetItem
| ShSetItem
| ShCall (method : option string)
| ShIter
| ShTruth
| ShBinOp (op : binop)
| ShFormat (spec : string).

Definition shape (op : ext_op) : op_shape :=
  match op with
  | OpImport m => ShImport m
  | OpGetAttr _ a => ShGetAttr a
  | OpSetAttr _ a _ => ShSetAttr a
  | OpGetItem _ _ => ShGetItem
  | OpSetItem _ _ _ => ShSetItem
  | OpCall _ recv _ _ => ShCall (option_map snd recv)
  | OpIter _ => ShIter
  | OpTruth _ => ShTruth
  | OpBinOp op _ _ => ShBinOp op
  | OpFormat _ spec => ShFormat spec
  end.

Definition callee_shapes (f : expr) : list op_shape :=
  match f with
  | EAttr _ a => [ShCall (Some a)]
  | _ => []
  end.

(** The shapes evaluating an expression can give rise to.  A call may turn
    out to be [enumerate], which iterates its argument. *)
Fixpoint shapes_expr (e : expr) : list op_shape :=
  match e with
  | EName _ | ENone | EBool _ | EInt _ | EFloat _ | EStr _ => []
  | EJoined parts => flat_map shapes_expr parts
  | EFormatted e1 spec => ShFormat spec :: shapes_expr e1
  | EAttr e1 a => ShGetAttr a :: shapes_expr e1
  | ESubscript e1 i => ShGetItem :: shapes_expr e1 ++ shapes_expr i
  | ECall f args kwargs =>
      ShCall None :: ShIter :: callee_shapes f ++ shapes_expr f
        ++ flat_map shapes_expr args
        ++ flat_map (fun p => shapes_expr (snd p)) kwargs
  | ETuple es => flat_map shapes_expr es
  | EList es => flat_map shapes_expr es
  | EDict kvs =>
      flat_map (fun p => shapes_expr (fst p) ++ shapes_expr (snd p)) kvs
  | EBinOp op l r => ShBinOp op :: shapes_expr l ++ shapes_expr r
  end.

(** An upper bound on the number of operations evaluating an expression
    asks for: one per node that can reach the oracle. *)
Fixpoint cost_expr (e : expr) : nat :=
  match e with
  | EName _ | ENone | EBool _ | EInt _ | EFloat _ | EStr _ => 0
  | EJoined parts => list_sum (map cost_expr parts)
  | EFormatted e1 _ => 1 + cost_expr e1
  | EAttr e1 _ => 1 + cost_expr e1
  | ESubscript e1 i => 1 + (cost_expr e1 + cost_expr i)
  | ECall f args kwargs =>
      1 + (cost_expr f + (list_sum (map cost_expr args)
           + list_sum (map (fun p => cost_expr (snd p)) kwargs)))
  | ETuple es => list_sum (map cost_expr es)
  | EList es => list_sum (map cost_expr es)
  | EDict kvs =>
      list_sum (map (fun p => cost_expr (fst p) + cost_expr (snd p)) kvs)
  | EBinOp _ l r => 1 + (cost_expr l + cost_expr r)
  end.

Fixpoint shapes_target (t : target) : list op_shape :=
  match t with
  | TName _ => []
  | TTuple ts => ShIter :: flat_map shapes_target ts
  | TAttr e a => ShSetAttr a :: shapes_expr e
  | TSubscript e i => ShSetItem :: shapes_expr e ++ shapes_expr i
  end.

Fixpoint cost_target (t : target) : nat :=
  match t with
  | TName _ => 0
  | TTuple ts => 1 + list_sum (map cost_target ts)
  | TAttr e _ => 1 + cost_expr e
  | TSubscript e i => 1 + (cost_expr e + cost_expr i)
  end.

Fixpoint shapes_stmt (s : stmt) : list op_shape :=
  match s with
  | SImport m _ => [ShImport m]
  | SFromImport m _ => [ShImport m]
  | SAssign t e => shapes_expr e ++ shapes_target t
  | SExpr e => shapes_expr e
  | SFor t iter body =>
      ShIter :: shapes_expr iter ++ shapes_target t
        ++ flat_map shapes_stmt body
  | SWhile c body => ShTruth :: shapes_expr c ++ flat_map shapes_stmt body
  | SIf c body orelse =>
      ShTruth :: shapes_expr c ++ flat_map shapes_stmt body
        ++ flat_map shapes_stmt orelse
  | STry body _ _ handler =>
      flat_map shapes_stmt body ++ flat_map shapes_stmt handler
  | SRaise e => shapes_expr e
  | SFunctionDef _ _ _ => []
  | SClassDef _ _ _ => []
  end.

Definition shapes_block (p : list stmt) : list op_shape :=
  flat_map shapes_stmt p.

(** *** Control flow *)

(** A simple statement: an import, an assignment or an expression. *)
Definition simple (s : stmt) : bool :=
  match s with
  | SImport _ _ | SFromImport _ _ | SAssign _ _ | SExpr _ => true
  | _ => false
  end.

(** Straight-line code: simple statements only. *)
Definition straight_line (p : list stmt) : bool := forallb simple p.

Definition cost_stmt (s : stmt) : nat :=
  match s with
  | SImport _ _ | SFromImport _ _ => 1
  | SAssign t e => cost_expr e + cost_target t
  | SExpr e => cost_expr e
  | _ => 0
  end.

Definition cost_block (p : list stmt) : nat := list_sum (map cost_stmt p).

(** No [try] anywhere, at any depth. *)
Fixpoint no_try (s : stmt) : bool :=
  match s with
  | SFor _ _ body => forallb no_try body
  | SWhile _ body => forallb no_try body
  | SIf _ body orelse => forallb no_try body && forallb no_try orelse
  | STry _ _ _ _ => false
  | SFunctionDef _ _ body => forallb no_try body
  | SClassDef _ _ body => forallb no_try body
  | _ => true
  end.

(** A loop whose body is straight-line code; code that is straight-line
    but for such loops; and how many of them it has. *)
Definition flat_loop (s : stmt) : bool :=
  match s with
  | SFor _ _ body => straight_line body
  | _ => false
  end.

Definition flat (p : list stmt) : bool :=
  forallb (fun s => simple s || flat_loop s) p.

Definition loops (p : list stmt) : nat := length (filter flat_loop p).

(** No function and no class defined, at any depth. *)
Fixpoint no_defs (s : stmt) : bool :=
  match s with
  | SFor _ _ body => forallb no_defs body
  | SWhile _ body => forallb no_defs body
  | SIf _ body orelse => forallb no_defs body && forallb no_defs orelse
  | STry body _ _ handler => forallb no_defs body && forallb no_defs handler
  | SFunctionDef _ _ _ => false
  | SClassDef _ _ _ => false
  | _ => true
  end.

(** *** The interface of the packages *)




(** The packages the notebooks draw on.  None of them is a module for
    threads, processes or coroutines ([threading], [multiprocessing],
    [concurrent], [subprocess], [asyncio]), nor one for command lines. *)
Definition allowed_packages : list string :=
  [ "matplotlib"; "numpy"; "synthesizer"; "unyt" ].

Definition from_allowed (q : string) : bool :=
  existsb (String.eqb (top_package q)) allowed_packages.

Definition known_import (sh : op_shape) : bool :=
  match sh with
  | ShImport m => from_allowed m
  | _ => true
  end.

(** *** Names: what a cell reads, binds and changes *)

(** The names an expression reads. *)
Fixpoint reads_expr (e : expr) : list string :=
  match e with
  | EName x => [x]
  | ENone | EBool _ | EInt _ | EFloat _ | EStr _ => []
  | EJoined parts => flat_map reads_expr parts
  | EFormatted e1 _ => reads_expr e1
  | EAttr e1 _ => reads_expr e1
  | ESubscript e1 i => reads_expr e1 ++ reads_expr i
  | ECall f args kwargs =>
      reads_expr f ++ flat_map reads_expr args
        ++ flat_map (fun p => reads_expr (snd p)) kwargs
  | ETuple es => flat_map reads_expr es
  | EList es => flat_map reads_expr es
  | EDict kvs =>
      flat_map (fun p => reads_expr (fst p) ++ reads_expr (snd p)) kvs
  | EBinOp _ l r => reads_expr l ++ reads_expr r
  end.

(** The names a target binds, and those it reads. *)
Fixpoint binds_target (t : target) : list string :=
  match t with
  | TName x => [x]
  | TTuple ts => flat_map binds_target ts
  | TAttr _ _ | TSubscript _ _ => []
  end.

Fixpoint reads_target (t : target) : list string :=
  match t with
  | TName _ => []
  | TTuple ts => flat_map reads_target ts
  | TAttr e _ => reads_expr e
  | TSubscript e i => reads_expr e ++ reads_expr i
  end.

Definition import_name (p : string * option string) : string :=
  match snd p with
  | Some a => a
  | None => fst p
  end.

(** Every name a statement binds, at any depth. *)
Fixpoint binds_stmt (s : stmt) : list string :=
  match s with
  | SImport m asname =>
      [match asname with Some a => a | None => top_package m end]
  | SFromImport _ names => map import_name names
  | SAssign t _ => binds_target t
  | SExpr _ => []
  | SFor t _ body => binds_target t ++ flat_map binds_stmt body
  | SWhile _ body => flat_map binds_stmt body
  | SIf _ body orelse =>
      flat_map binds_stmt body ++ flat_map binds_stmt orelse
  | STry body _ name handler =>
      flat_map binds_stmt body
        ++ match name with Some x => [x] | None => [] end
        ++ flat_map binds_stmt handler
  | SRaise _ => []
  | SFunctionDef f _ _ => [f]
  | SClassDef c _ _ => [c]
  end.

Definition mem (x : string) (l : list string) : bool :=
  existsb (String.eqb x) l.

(** The names among [xs] that are not in [bound]. *)
Definition unbound (bound xs : list string) : list string :=
  filter (fun x => negb (mem x bound)) xs.

(** The names a statement reads that were not bound before it in its own
    cell ([bound]), and the names surely bound after it.  What a loop or a
    branch binds is not surely bound afterwards. *)
Fixpoint exposed_stmt (bound : list string) (s : stmt) {struct s}
  : list string * list string :=
  let block :=
    fix go (b : list string) (ss : list stmt) {struct ss} : list string :=
      match ss with
      | [] => []
      | s' :: ss' =>
          let r := exposed_stmt b s' in fst r ++ go (snd r) ss'
      end in
  match s with
  | SImport _ _ | SFromImport _ _ => ([], binds_stmt s ++ bound)
  | SAssign t e =>
      (unbound bound (reads_expr e ++ reads_target t),
       binds_target t ++ bound)
  | SExpr e => (unbound bound (reads_expr e), bound)
  | SFor t iter body =>
      (unbound bound (reads_expr iter ++ reads_target t)
         ++ block (binds_target t ++ bound) body,
       bound)
  | SWhile c body =>
      (unbound bound (reads_expr c) ++ block bound body, bound)
  | SIf c body orelse =>
      (unbound bound (reads_expr c) ++ block bound body
         ++ block bound orelse,
       bound)
  | STry body _ name handler =>
      (block bound body
         ++ block (match name with Some x => [x] | None => [] end ++ bound)
              handler,
       bound)
  | SRaise e => (unbound bound (reads_expr e), bound)
  | SFunctionDef f _ body => (block bound body, f :: bound)
  | SClassDef c _ body => (block bound body, c :: bound)
  end.

Fixpoint exposed_block (bound : list string) (ss : list stmt)
  : list string :=
  match ss with
  | [] => []
  | s :: ss' =>
      let r := exposed_stmt bound s in fst r ++ exposed_block (snd r) ss'
  end.

(** What a cell reads from outside itself, builtins apart. *)
Definition cell_inputs (cell : list stmt) : list string :=
  unbound builtin_names (nodup string_dec (exposed_block [] cell)).

(** The names whose object a statement changes in place: the object of an
    attribute or item assignment, the receiver of [append]. *)
Definition changed_name (e : expr) : list string :=
  match e with
  | EName x => [x]
  | _ => []
  end.

Fixpoint mutates_expr (e : expr) : list string :=
  match e with
  | EName _ | ENone | EBool _ | EInt _ | EFloat _ | EStr _ => []
  | EJoined parts => flat_map mutates_expr parts
  | EFormatted e1 _ => mutates_expr e1
  | EAttr e1 _ => mutates_expr e1
  | ESubscript e1 i => mutates_expr e1 ++ mutates_expr i
  | ECall f args kwargs =>
      match f with
      | EAttr o "append" => changed_name o
      | _ => []
      end ++ mutates_expr f ++ flat_map mutates_expr args
        ++ flat_map (fun p => mutates_expr (snd p)) kwargs
  | ETuple es => flat_map mutates_expr es
  | EList es => flat_map mutates_expr es
  | EDict kvs =>
      flat_map (fun p => mutates_expr (fst p) ++ mutates_expr (snd p)) kvs
  | EBinOp _ l r => mutates_expr l ++ mutates_expr r
  end.

Fixpoint mutates_target (t : target) : list string :=
  match t with
  | TName _ => []
  | TTuple ts => flat_map mutates_target ts
  | TAttr e _ => changed_name e
  | TSubscript e _ => changed_name e
  end.

Fixpoint mutates_stmt (s : stmt) : list string :=
  match s with
  | SImport _ _ | SFromImport _ _ => []
  | SAssign t e => mutates_expr e ++ mutates_target t
  | SExpr e => mutates_expr e
  | SFor t iter body =>
      mutates_expr iter ++ mutates_target t ++ flat_map mutates_stmt body
  | SWhile c body => mutates_expr c ++ flat_map mutates_stmt body
  | SIf c body orelse =>
      mutates_expr c ++ flat_map mutates_stmt body
        ++ flat_map mutates_stmt orelse
  | STry body _ _ handler =>
      flat_map mutates_stmt body ++ flat_map mutates_stmt handler
  | SRaise e => mutates_expr e
  | SFunctionDef _ _ body => flat_map mutates_stmt body
  | SClassDef _ _ body => flat_map mutates_stmt body
  end.

(** A name a cell takes from the cells [before] it is settled: bound there
    exactly once, and never changed in place. *)
Definition settled (before : list stmt) (x : string) : bool :=
  Nat.eqb (count_occ string_dec (flat_map binds_stmt before) x) 1
  && negb (mem x (flat_map mutates_stmt before)).

(** Going through the cells in order: the inputs of each are settled. *)
Fixpoint settled_inputs (before : list stmt) (cells : list (list stmt))
  : bool :=
  match cells with
  | [] => true
  | cell :: cells' =>
      forallb (settled before) (cell_inputs cell)
      && settled_inputs (before ++ cell) cells'
  end.

(** An import of the library the notebooks are about. *)
Definition library_import (s : stmt) : bool :=
  match s with
  | SImport m _ | SFromImport m _ => String.prefix "synthesizer" m
  | _ => false
  end.

End Analysis.
Import Analysis.

(* ===================================================================== *)
(** ** What the properties say about events *)
(* ===================================================================== *)

Module Props.

Local Open Scope list_scope.

(** *** Method calls and their order *)

(** [o.m(model)] was called and returned. *)
Definition completed (m : string) (o model : value) (ev : event) : Prop :=
  exists f x, ev = (OpCall f (Some (o, m)) [model] [], Ok x).

(** [o.m(..., model)] was called, with [model] its last argument. *)
Definition requests (m : string) (o model : value) (ev : event) : Prop :=
  exists f args kwargs r,
    ev = (OpCall f (Some (o, m)) args kwargs, r) /\ last args VNone = model.

(** In a log (most recent event first): every call of method [m2] comes
    after a completed call of [m1] on the same object, with the same last
    argument. *)
Fixpoint guarded (m1 m2 : string) (lg : list event) : Prop :=
  match lg with
  | [] => True
  | ev :: older =>
      match ev with
      | (OpCall _ (Some (o, m)) args _, _) =>
          if String.eqb m m2
          then Exists (completed m1 o (last args VNone)) older
          else True
      | _ => True
      end /\ guarded m1 m2 older
  end.

(** *** Data loading *)

(** A string that names a place in the file system relative to the
    notebook, and one that lies under the repository's test data. *)
Definition is_path (s : string) : bool := String.prefix "../" s.
Definition fixture (s : string) : bool := String.prefix "../../../tests/" s.

Definition grid_loader : string := "synthesizer.grid.Grid".
Definition camels_loader : string :=
  "synthesizer.load_data.load_camels.load_CAMELS_IllustrisTNG".

(** The other functions of the packages the notebooks call by name; none of
    them reads a file. *)
Definition plain_callees : list string :=
  [ "synthesizer.parametric.ZDist.DeltaConstant";
    "synthesizer.parametric.ZDist.Normal";
    "synthesizer.parametric.SFH.Constant";
    "synthesizer.parametric.Stars";
    "synthesizer.particle.stars.sample_sfhz";
    "synthesizer.Galaxy";
    "synthesizer.particle.Galaxy";
    "synthesizer.parametric.Galaxy";
    "synthesizer.emission_models.BimodalPacmanEmission";
    "synthesizer.emission_models.PacmanEmission";
    "synthesizer.emission_models.attenuation.PowerLaw";
    "synthesizer.emission_models.dust.emission.Blackbody";
    "synthesizer.line.get_diagram_labels";
    "synthesizer.line_ratios.get_bpt_kewley01";
    "numpy.full"; "numpy.arange";
    "matplotlib.pyplot.plot"; "matplotlib.pyplot.xlim";
    "matplotlib.pyplot.ylim"; "matplotlib.pyplot.xscale";
    "matplotlib.pyplot.yscale"; "matplotlib.pyplot.xlabel";
    "matplotlib.pyplot.ylabel"; "matplotlib.pyplot.show" ].

Definition path_value (v : value) : bool :=
  match v with
  | VStr s => is_path s
  | _ => false
  end.

Definition no_paths (args : list value) (kwargs : list (string * value))
  : bool :=
  forallb (fun v => negb (path_value v)) args
  && forallb (fun p => negb (path_value (snd p))) kwargs.

Definition grid_args (args : list value) (kwargs : list (string * value))
  : bool :=
  match args, kwargs with
  | [VStr _], [(k, VStr dir)] => String.eqb k "grid_dir" && fixture dir
  | _, _ => false
  end.

Definition camels_args (args : list value) (kwargs : list (string * value))
  : bool :=
  match args with
  | [VStr dir] =>
      fixture dir && forallb (fun p => negb (path_value (snd p))) kwargs
  | _ => false
  end.

(** What a call event must look like: a builtin called is [print] or [type]
    (never [open]); a function of the packages called by name is a loader
    given a fixture, or one of [plain_callees] given no path at all; a
    method call is given no path. *)
Definition load_ok (ev : event) : bool :=
  match fst ev with
  | OpCall (VBuiltin b) _ _ _ => existsb (String.eqb b) ["print"; "type"]
  | OpCall (VLib q) _ args kwargs =>
      if String.eqb q grid_loader then grid_args args kwargs
      else if String.eqb q camels_loader then camels_args args kwargs
      else existsb (String.eqb q) plain_callees && no_paths args kwargs
  | OpCall _ _ args kwargs => no_paths args kwargs
  | _ => true
  end.

(** A call that went to a loader. *)
Definition is_load (ev : event) : bool :=
  match fst ev with
  | OpCall (VLib q) _ _ _ =>
      String.eqb q grid_loader || String.eqb q camels_loader
  | _ => false
  end.

(** *** Plotting *)

Definition is_plot (ev : event) : bool :=
  match fst ev with
  | OpCall (VLib q) _ _ _ => String.prefix "matplotlib." q
  | OpImport m => String.prefix "matplotlib" m
  | _ => false
  end.

(** The show of the figure is the last thing in the log. *)
Definition shown (lg : list event) : Prop :=
  exists x older,
    lg = (OpCall (VLib "matplotlib.pyplot.show") None [] [], Ok x) :: older.

(** A notebook renders its results: a run that completes has plotted. *)
Definition renders (nb : notebook) : Prop :=
  forall (X : external) (fuel : nat) (w : lstate X),
    fst (run X fuel w (nb_code nb)) = Normal tt ->
    existsb is_plot (log (snd (run X fuel w (nb_code nb)))) = true.

(** *** The methods that compute lines *)

Definition line_methods : list string :=
  [ "get_line"; "get_lines"; "get_ratio"; "get_diagram" ].

Definition calls_line_method (ev : event) : bool :=
  match fst ev with
  | OpCall _ (Some (_, m)) _ _ => existsb (String.eqb m) line_methods
  | _ => false
  end.

(** Loading through the loaders only, no plotting, and none of the line
    methods. *)
Definition prints_only (ev : event) : bool :=
  load_ok ev && negb (is_plot ev) && negb (calls_line_method ev).

(** *** Nothing concurrent *)

(** An event of a sequential script that holds no resource of its own: an
    import from one of the packages, a call of [print] or [type], a call of
    a function of one of the packages by its name, or an operation on an
    object. *)
Definition sequential (ev : event) : bool :=
  match fst ev with
  | OpImport m => from_allowed m
  | OpCall (VBuiltin b) _ _ _ => existsb (String.eqb b) ["print"; "type"]
  | OpCall (VLib q) _ _ _ => from_allowed q
  | _ => true
  end.

(** The methods the notebooks call on the objects of the packages: they
    look up a grid point and compute lines, ratios, diagrams and spectra. *)
Definition object_methods : list string :=
  [ "get_grid_point"; "get_line"; "get_lines"; "get_ratio"; "get_diagram";
    "get_spectra"; "get_particle_spectra"; "get_particle_lines" ].

(** The keywords the notebooks pass to functions of the packages: physical
    parameters, the names of fixtures, and the style of a plotted line.
    None asks for threads, processes or workers. *)
Definition known_keywords : list string :=
  [ "grid_dir"; "metallicity"; "duration"; "mean"; "sigma";
    "sf_hist"; "metal_dist"; "initial_mass";
    "sfzh"; "log10ages"; "log10metallicities"; "nstar"; "current_masses";
    "redshift"; "stars"; "gas"; "black_holes";
    "grid"; "tau_v"; "tau_v_ism"; "tau_v_nebular";
    "dust_curve"; "dust_curve_ism"; "dust_curve_nebular";
    "dust_emission"; "dust_emission_ism"; "dust_emission_nebular";
    "fesc"; "fesc_ly_alpha"; "slope"; "temperature";
    "snap_name"; "fof_name"; "physical";
    "c"; "lw"; "alpha" ].

Definition keywords_known (kwargs : list (string * value)) : bool :=
  forallb (fun p => existsb (String.eqb (fst p)) known_keywords) kwargs.

(** What a call gets hold of: a data file, a figure, or nothing that
    outlives the call. *)
Inductive resource := DataFile | Figure | NoResource.

(** A call a synchronous script can make, and what it gets hold of: [print]
    or [type] of one thing at most; a loader given a fixture (a data file);
    a function of [matplotlib.pyplot] among [plain_callees] (a figure); one
    of the other [plain_callees], given no path; one of [object_methods] on
    an object of the packages, given no path and no keyword.  The keywords
    are among [known_keywords].  Any other call is none of these. *)
Definition acquired (ev : event) : option resource :=
  match fst ev with
  | OpCall (VBuiltin b) None _ [] =>
      if existsb (String.eqb b) ["print"; "type"] then Some NoResource
      else None
  | OpCall (VLib q) None args kwargs =>
      if negb (keywords_known kwargs) then None
      else if String.eqb q grid_loader then
        if grid_args args kwargs then Some DataFile else None
      else if String.eqb q camels_loader then
        if camels_args args kwargs then Some DataFile else None
      else if existsb (String.eqb q) plain_callees && no_paths args kwargs
      then Some (if String.prefix "matplotlib.pyplot." q
                 then Figure else NoResource)
      else None
  | OpCall (VExt _) (Some (VExt _, m)) args [] =>
      if existsb (String.eqb m) object_methods && no_paths args []
      then Some NoResource else None
  | OpCall _ _ _ _ => None
  | _ => Some NoResource
  end.

(** An event of a synchronous script: an import from one of the packages,
    a call that [acquired] knows, or an operation on an object that sets
    nothing. *)
Definition synchronous (ev : event) : bool :=
  match fst ev with
  | OpImport m => from_allowed m
  | OpSetAttr _ _ _ | OpSetItem _ _ _ => false
  | _ => match acquired ev with Some _ => true | None => false end
  end.

(** *** Behaviour *)

(** Two programs that no packages can tell apart: same outcome, same
    trace. *)
Definition same_behaviour (p q : list stmt) : Prop :=
  forall (X : external) (fuel : nat) (w : lstate X),
    fst (run X fuel w p) = fst (run X fuel w q) /\
    trace (snd (run X fuel w p)) = trace (snd (run X fuel w q)).

(** A cell whose outcome does not depend on the namespace it is run in. *)
Definition independent (cell : list stmt) : Prop :=
  forall (X : external) (fuel : nat) (e e' : list (string * value))
         (h : list hobj) (w : lstate X) (lg : list event),
    fst (exec_block X fuel cell (MState e h w lg))
      = fst (exec_block X fuel cell (MState e' h w lg)).

(** *** The public interface *)


(** *** Loops *)

(** The namespace [e'] is [e] but for the names in [names]. *)
Definition frames (names : list string) (e' e : list (string * value))
  : Prop :=
  forall x, existsb (String.eqb x) names = false -> lookup x e' = lookup x e.

(** Between two iterations of a loop that started in the namespace [e0]:
    only the names in [names] may have been bound, the heap is as [P] says
    and every event so far passes [f]. *)
Definition loop_inv (X : external) (f : event -> bool) (names : list string)
    (e0 : list (string * value)) (P : list hobj -> Prop) (s : mstate X)
  : Prop :=
  exists e h w lg,
    s = MState e h w lg /\ P h /\ frames names e e0 /\ forallb f lg = true.

(** Between two iterations of a loop run against [demo n]: the log has
    at least one event for each item done. *)
Definition busy_inv (n : nat) (names : list string)
    (e0 : list (string * value)) (h : list hobj) (done : list value)
    (s : mstate (Worlds.demo n)) : Prop :=
  exists e k lg,
    s = MState e h k lg /\ frames names e e0 /\ length done <= length lg.

(** *** The loops over the metallicity axis *)

(** Where these loops can start: [grid] is an object of the packages and
    [enumerate] is the builtin. *)
Definition grid_ready {X} (s : mstate X) : Prop :=
  exists g,
    lookup "grid" (env s) = Some (VExt g) /\
    lookup "enumerate" (env s) = None.

(** Nothing asked of the events. *)
Definition any_event (ev : event) : bool := true.

(** The list a name stands for, if it stands for one. *)
Definition list_at {X} (s : mstate X) (x : string) : option (list value) :=
  match lookup x (env s) with
  | Some (VRef l) =>
      match nth_error (heap s) l with
      | Some (HList vs) => Some vs
      | _ => None
      end
  | _ => None
  end.

(** Reading [grid.metallicity] and going through it: the attribute is
    [xm], and iterating it gives [ms]. *)
Definition metallicity_header (g : value) (xm : xval) (ms : list xval)
  : list event :=
  [ (OpGetAttr g "metallicity", Ok xm); (OpIter (VExt xm), Ok (XTuple ms)) ].

(** What the packages answered in one iteration of the R23 loop: the bound
    method [grid.get_lines], the line collection it returned, that
    collection's bound method [get_ratio], and the ratio it returned. *)
Record r23_iter := R23Iter {
  ri_get_lines : xval;
  ri_lines : xval;
  ri_get_ratio : xval;
  ri_ratio : xval
}.

(** The events of iteration [i] of the R23 loop on the grid [g]:
    [g.get_lines((0, i)).get_ratio("R23")]. *)
Definition r23_events (g : value) (i : nat) (it : r23_iter) : list event :=
  [ (OpGetAttr g "get_lines", Ok (ri_get_lines it));
    (OpCall (VExt (ri_get_lines it)) (Some (g, "get_lines"))
       [VTuple [VInt 0; VInt (Z.of_nat i)]] [],
     Ok (ri_lines it));
    (OpGetAttr (VExt (ri_lines it)) "get_ratio", Ok (ri_get_ratio it));
    (OpCall (VExt (ri_get_ratio it)) (Some (VExt (ri_lines it), "get_ratio"))
       [VStr "R23"] [],
     Ok (ri_ratio it)) ].

Fixpoint r23_trace (g : value) (i : nat) (its : list r23_iter) : list event :=
  match its with
  | [] => []
  | it :: its' => r23_events g i it ++ r23_trace g (S i) its'
  end.

(** Between two iterations of the R23 loop that started with heap [h] and
    log [lg]: [ratios] holds the ratios of the iterations [its] done. *)
Definition r23_inv (X : external) (g : xval) (h : list hobj)
    (lg : list event) (done : list value) (s : mstate X) : Prop :=
  exists its e w,
    length its = length done /\
    s = MState e (h ++ [HList (map (fun it => VExt (ri_ratio it)) its)]) w
          (rev (r23_trace (VExt g) 0 its) ++ lg) /\
    lookup "grid" e = Some (VExt g) /\
    lookup "ratios" e = Some (VRef (length h)) /\
    lookup "ia" e = Some (VInt 0) /\
    lookup "ratio_id" e = Some (VStr "R23").

(** [x] and [y] are lists, both of length [k]. *)
Definition aligned {X} (k : nat) (s : mstate X) : Prop :=
  exists xs ys,
    list_at s "x" = Some xs /\ list_at s "y" = Some ys /\
    length xs = k /\ length ys = k.

(** One iteration of the BPT loop. *)
Definition bpt_step (X : external) (fuel : nat) : value -> M X unit :=
  loop_step X fuel Notebooks.metallicity_target Notebooks.bpt_body.

(** Between two iterations of the BPT loop that started with heap [h]:
    [x] and [y] are the two lists allocated last, both of length [n]. *)
Definition bpt_inv (X : external) (g : xval) (h : list hobj)
    (n : nat) (s : mstate X) : Prop :=
  exists xs ys e w lg,
    length xs = n /\ length ys = n /\
    s = MState e (h ++ [HList xs; HList ys]) w lg /\
    lookup "grid" e = Some (VExt g) /\
    lookup "x" e = Some (VRef (length h)) /\
    lookup "y" e = Some (VRef (S (length h))) /\
    lookup "ia" e = Some (VInt 0) /\
    lookup "diagram_id" e = Some (VStr "BPT-NII").

(** What every run of the galaxy-lines notebook leaves in the log. *)
Definition galaxy_lines_log (lg : list event) : Prop :=
  guarded "get_spectra" "get_lines" lg /\
  guarded "get_particle_spectra" "get_particle_lines" lg /\
  forallb load_ok lg = true /\
  existsb is_plot lg = false.

End Props.
Import Props.

(* ===================================================================== *)
(** ** What is said of a step of a run *)
(* ===================================================================== *)

Module Logic.

Local Open Scope list_scope.

Definition answered (ev : event) : Prop :=
  match snd ev with
  | Ok _ => True
  | Raise _ => False
  end.

(** The events a step added (most recent first) and how it ended: every
    event but the last was answered, and a last event that failed is the
    outcome of the step. *)
Definition orderly {A} (out : outcome A) (new : list event) : Prop :=
  match new with
  | [] => True
  | (_, r) :: older =>
      Forall answered older /\
      match r with
      | Ok _ => True
      | Raise e => out = Raised (VExt e)
      end
  end.

Definition within (S : list op_shape) (new : list event) : Prop :=
  Forall (fun ev => In (shape (fst ev)) S) new.

Section Run.

Variable X : external.

(** [tidy m S]: whatever the state, [m] only adds events to the log, in an
    orderly way, and all of a shape in [S]. *)
Definition tidy {A} (m : M X A) (S : list op_shape) : Prop :=
  forall s, exists new,
    log (snd (m s)) = new ++ log s /\
    orderly (fst (m s)) new /\
    within S new.

(** [sound m c S]: moreover [m] adds at most [c] events. *)
Definition sound {A} (m : M X A) (c : nat) (S : list op_shape) : Prop :=
  forall s, exists new,
    log (snd (m s)) = new ++ log s /\
    orderly (fst (m s)) new /\
    within S new /\
    length new <= c.

(** [quiet m]: [m] leaves the log alone. *)
Definition quiet {A} (m : M X A) : Prop := forall s, log (snd (m s)) = log s.

(** Reading the callee of a call: the expression itself, and for [o.m] also
    the object expression [o]. *)
Definition sound_callee (e : expr) : Prop :=
  match e with
  | EAttr e1 _ => sound (eval X e1) (cost_expr e1) (shapes_expr e1)
  | _ => True
  end.

(** [wp m s Q]: running [m] from [s] ends in a result satisfying [Q]. *)
Definition wp {A} (m : M X A) (s : mstate X)
    (Q : outcome A * mstate X -> Prop) : Prop := Q (m s).

(** What [Q] asks of the step before a continuation [k]. *)
Definition after {A B} (k : A -> M X B) (Q : outcome B * mstate X -> Prop)
  : outcome A * mstate X -> Prop :=
  fun r =>
    match fst r with
    | Normal a => wp (k a) (snd r) Q
    | Raised e => Q (Raised e, snd r)
    | Stuck w => Q (Stuck w, snd r)
    end.

End Run.

Arguments tidy {X A} m S.
Arguments sound {X A} m c S.
Arguments quiet {X A} m.

End Logic.
Import Logic.

(* ===================================================================== *)
(** ** What the cells do, one by one *)
(* ===================================================================== *)

Module Cells.

Import Notebooks.
Local Open Scope list_scope.

(** *** Cells run out of order *)

(** A cell that cannot be run on its own.  In a fresh kernel, whatever the
    packages do, it stops at a name it takes from an earlier cell, unless an
    operation of the packages has failed before it got there. *)
Definition needs_kernel (cell : list stmt) : Prop :=
  forall (X : external) (fuel : nat) (w : lstate X),
    (exists x, In x (cell_inputs cell) /\
               fst (run X fuel w cell) = Raised (VExc "NameError" x)) \/
    (exists op e older,
        fst (run X fuel w cell) = Raised (VExt e) /\
        log (snd (run X fuel w cell)) = (op, Raise e) :: older).

(** *** Names and unpacking *)

(** Of a run of the embedded program (in which the reading of an attribute
    of an imported module or class is resolved by name, and an iteration is
    answered at once): it completed, or ended with the exception of the
    operation of the packages that is last in the log.  In particular it
    did not end on a name that is not bound. *)
Definition library_only {X} (r : outcome unit * mstate X) : Prop :=
  match fst r with
  | Normal _ => True
  | Raised (VExt e) => exists op older, log (snd r) = (op, Raise e) :: older
  | _ => False
  end.

(** The two calls whose result is unpacked into two names:
    [lines.get_diagram(...)] and [get_diagram_labels(...)]. *)
Definition unpacked_call (op : ext_op) : bool :=
  match op with
  | OpCall _ (Some (_, m)) _ _ => String.eqb m "get_diagram"
  | OpCall (VLib q) None _ _ =>
      String.eqb q "synthesizer.line.get_diagram_labels"
  | _ => false
  end.

(** An answer that is not of the kind its operation asks for: the items of
    an iteration that are not a tuple, a formatted value that is not a
    string. *)
Definition protocol_break (ev : event) : bool :=
  match ev with
  | (OpIter _, Ok (XTuple _)) => false
  | (OpIter _, Ok _) => true
  | (OpFormat _ _, Ok (XStr _)) => false
  | (OpFormat _ _, Ok _) => true
  | _ => false
  end.

(** Of a run of the embedded grid-lines notebook: it completed; or ended
    with the exception of the operation of the packages that is last in the
    log; or with a [ValueError], when one of the two unpacked calls has
    just returned something that does not iterate to two items; or on an
    answer that breaks the protocol. *)
Definition grid_lines_ending {X} (r : outcome unit * mstate X) : Prop :=
  match fst r with
  | Normal _ => True
  | Raised (VExt e) => exists op older, log (snd r) = (op, Raise e) :: older
  | Raised (VExc cls msg) =>
      cls = "ValueError" /\
      exists d xs op older,
        log (snd r)
          = (OpIter (VExt d), Ok (XTuple xs)) :: (op, Ok d) :: older /\
        unpacked_call op = true /\ length xs <> 2
  | Raised _ => False
  | Stuck _ =>
      exists ev older, log (snd r) = ev :: older /\ protocol_break ev = true
  end.

(** The last two events of [s] are one of the two unpacked calls and the
    iteration of what it returned, which gave the items [xs]. *)
Definition unpacking {X} (xs : list xval) (s : mstate X) : Prop :=
  exists d op older,
    log s = (OpIter (VExt d), Ok (XTuple xs)) :: (op, Ok d) :: older /\
    unpacked_call op = true.

(** A run that has just unpacked something that is not two items has
    ended with a [ValueError]. *)
Definition unpack_checked {X} (r : outcome unit * mstate X) : Prop :=
  forall xs,
    unpacking xs (snd r) -> length xs <> 2 ->
    exists msg, fst r = Raised (VExc "ValueError" msg).

(** What unpacking into two names does, in both directions. *)
Definition unpacks_in_twos {X} (r : outcome unit * mstate X) : Prop :=
  (forall msg,
      fst r = Raised (VExc "ValueError" msg) ->
      exists xs, unpacking xs (snd r) /\ length xs <> 2) /\
  unpack_checked r.

(** Packages like [Worlds.demo n], except that what is unpacked iterates to one
    item more than it holds. *)
Definition triples (n : nat) : external :=
  External nat
    (fun k _ op =>
       (match op with
        | OpIter (VExt (XTuple xs)) => Ok (XTuple (XNone :: xs))
        | _ => Worlds.demo_reply n k op
        end,
        S k)).

(** *** What a method returned *)

(** The value the event [ev] shows the method [m] returning, if any. *)
Definition returned (m : string) (ev : event) : list xval :=
  match ev with
  | (OpCall _ (Some (_, m')) _ _, Ok x) => if String.eqb m' m then [x] else []
  | _ => []
  end.

(** The values the method [m] returned in the events [evs], in order. *)
Definition method_returns (m : string) (evs : list event) : list xval :=
  flat_map (returned m) evs.

(** After code that started with heap [h] and log [lg]: [ratios] is the list
    allocated first, and holds what [get_ratio] has returned since. *)
Definition ratios_kept (X : external) (h : list hobj) (lg : list event)
    (s : mstate X) : Prop :=
  exists new,
    log s = new ++ lg /\
    lookup "ratios" (env s) = Some (VRef (length h)) /\
    nth_error (heap s) (length h)
      = Some (HList (map VExt (method_returns "get_ratio" (rev new)))).

Definition ratios_inv (X : external) (g : xval) (h : list hobj)
    (lg : list event) (s : mstate X) : Prop :=
  exists new e w,
    s = MState e
          (h ++ [HList (map VExt (method_returns "get_ratio" (rev new)))])
          w (new ++ lg) /\
    lookup "grid" e = Some (VExt g) /\
    lookup "ratios" e = Some (VRef (length h)) /\
    lookup "ia" e = Some (VInt 0) /\
    lookup "ratio_id" e = Some (VStr "R23").

(** *** The grid point of the single-line cells *)

(** The cells before the one that reports the ratios. *)
Definition grid_lines_before_ratios : list stmt :=
  concat (firstn 8 (nb_cells grid_lines)).

(** What the packages answered to the cells that ask for a line, a doublet
    and all lines at one grid point. *)
Record point_replies := PointReplies {
  pr_get_grid_point : xval;
  pr_point : xval;
  pr_get_line : xval;
  pr_line : xval;
  pr_line_printed : xval;
  pr_get_doublet : xval;
  pr_doublet : xval;
  pr_doublet_printed : xval;
  pr_get_lines : xval;
  pr_lines : xval;
  pr_lines_printed : xval
}.

Definition hb_o3_ids : list value :=
  [ VLib "synthesizer.line_ratios.Hb";
    VLib "synthesizer.line_ratios.O3r";
    VLib "synthesizer.line_ratios.O3b" ].

Definition printed (v : value) (x : xval) : event :=
  (OpCall (VBuiltin "print") None [v] [], Ok x).

(** The events of those three cells on the grid [g], when the list of the
    doublet's lines is at [l]. *)
Definition grid_point_events (g : value) (l : nat) (r : point_replies)
  : list event :=
  [ (OpGetAttr g "get_grid_point", Ok (pr_get_grid_point r));
    (OpCall (VExt (pr_get_grid_point r)) (Some (g, "get_grid_point"))
       [VTuple [VFloat "6.0"; VFloat "0.01"]] [],
     Ok (pr_point r));
    (OpGetAttr g "get_line", Ok (pr_get_line r));
    (OpCall (VExt (pr_get_line r)) (Some (g, "get_line"))
       [VExt (pr_point r); VLib "synthesizer.line_ratios.Hb"] [],
     Ok (pr_line r));
    printed (VExt (pr_line r)) (pr_line_printed r);
    (OpGetAttr g "get_line", Ok (pr_get_doublet r));
    (OpCall (VExt (pr_get_doublet r)) (Some (g, "get_line"))
       [VExt (pr_point r); VRef l] [],
     Ok (pr_doublet r));
    printed (VExt (pr_doublet r)) (pr_doublet_printed r);
    (OpGetAttr g "get_lines", Ok (pr_get_lines r));
    (OpCall (VExt (pr_get_lines r)) (Some (g, "get_lines"))
       [VExt (pr_point r)] [],
     Ok (pr_lines r));
    printed (VExt (pr_lines r)) (pr_lines_printed r) ].

(** The call that loaded the test grid. *)
Definition grid_loaded (g : xval) : event :=
  (OpCall (VLib "synthesizer.grid.Grid") None [VStr "test_grid"]
     [("grid_dir", VStr "../../../tests/test_grid")],
   Ok g).

(** What the packages answered to the first five cells: to the five
    imports, to the prints of three constants of [line_ratios], to the
    reading of [grid.available_lines] and to the prints of it and of the
    grid. *)
Record setup_replies := SetupReplies {
  sr_import_pyplot : xval;
  sr_import_numpy : xval;
  sr_import_ratios : xval;
  sr_import_grid : xval;
  sr_import_line : xval;
  sr_ha_printed : xval;
  sr_ratios_printed : xval;
  sr_diagrams_printed : xval;
  sr_available_lines : xval;
  sr_available_printed : xval;
  sr_grid_printed : xval
}.

(** The events of the first five cells, when the grid loaded is [g]. *)
Definition grid_setup_events (g : xval) (r : setup_replies) : list event :=
  [ (OpImport "matplotlib.pyplot", Ok (sr_import_pyplot r));
    (OpImport "numpy", Ok (sr_import_numpy r));
    (OpImport "synthesizer.line_ratios", Ok (sr_import_ratios r));
    (OpImport "synthesizer.grid", Ok (sr_import_grid r));
    (OpImport "synthesizer.line", Ok (sr_import_line r));
    printed (VLib "synthesizer.line_ratios.Ha") (sr_ha_printed r);
    printed (VLib "synthesizer.line_ratios.available_ratios")
      (sr_ratios_printed r);
    printed (VLib "synthesizer.line_ratios.available_diagrams")
      (sr_diagrams_printed r);
    grid_loaded g;
    (OpGetAttr (VExt g) "available_lines", Ok (sr_available_lines r));
    printed (VExt (sr_available_lines r)) (sr_available_printed r);
    printed (VExt g) (sr_grid_printed r) ].

(** Where the cell that reports the ratios starts. *)
Definition at_grid_point {X} (s : mstate X) : Prop :=
  exists g r0 r,
    trace s = grid_setup_events g r0 ++ grid_point_events (VExt g) 0 r /\
    nth_error (heap s) 0 = Some (HList hb_o3_ids) /\
    lookup "grid" (env s) = Some (VExt g) /\
    lookup "lines" (env s) = Some (VExt (pr_lines r)) /\
    lookup "print" (env s) = None.

(** *** The report of the ratios *)

(** What the packages answered when a ratio was asked for and printed: the
    bound method [lines.get_ratio], the ratio, the ratio formatted to two
    decimals, and what [print] returned. *)
Record report_replies := ReportReplies {
  rr_get_ratio : xval;
  rr_ratio : xval;
  rr_ratio_text : string;
  rr_printed : xval
}.

(** One ratio of the loop: its id, as the packages gave and formatted it,
    and the answers. *)
Record ratio_item := RatioItem {
  qi_id : xval;
  qi_id_text : string;
  qi_replies : report_replies
}.

(** [lines.get_ratio(id)], with [id_events] to format the id, printed as
    [<id>: <ratio>]. *)
Definition report_events (l id : value) (id_events : list event)
    (id_text : string) (r : report_replies) : list event :=
  [ (OpGetAttr l "get_ratio", Ok (rr_get_ratio r));
    (OpCall (VExt (rr_get_ratio r)) (Some (l, "get_ratio")) [id] [],
     Ok (rr_ratio r)) ]
  ++ id_events
  ++ [ (OpFormat (VExt (rr_ratio r)) ".2f", Ok (XStr (rr_ratio_text r)));
       printed (VStr (id_text ++ ": " ++ rr_ratio_text r)) (rr_printed r) ].

Definition item_events (l : value) (it : ratio_item) : list event :=
  report_events l (VExt (qi_id it))
    [ (OpFormat (VExt (qi_id it)) "", Ok (XStr (qi_id_text it))) ]
    (qi_id_text it) (qi_replies it).

(** The whole cell: the Balmer decrement, then every ratio that iterating
    [lines.available_ratios] gave. *)
Definition ratios_cell_events (l : value) (first : report_replies)
    (available : xval) (its : list ratio_item) : list event :=
  report_events l (VStr "BalmerDecrement") [] "BalmerDecrement" first
  ++ [ (OpGetAttr l "available_ratios", Ok available);
       (OpIter (VExt available), Ok (XTuple (map qi_id its))) ]
  ++ flat_map (item_events l) its.

Definition report_inv (X : external) (l : value) (e0 : list (string * value))
    (h : list hobj) (lg : list event) (done : list value) (s : mstate X)
  : Prop :=
  exists its e w,
    done = map (fun it => VExt (qi_id it)) its /\
    s = MState e h w (rev (flat_map (item_events l) its) ++ lg) /\
    frames ["ratio_id"; "ratio"] e e0.

(** *** The two figures *)

(** Where the R23 cell can start: [grid] is an object of the packages,
    [enumerate] is the builtin and [plt] is [matplotlib.pyplot]. *)
Definition plot_ready {X} (s : mstate X) : Prop :=
  grid_ready s /\
  lookup "plt" (env s) = Some (VLib "matplotlib.pyplot").

(** Where the BPT cell can start. *)
Definition bpt_ready {X} (s : mstate X) : Prop :=
  plot_ready s /\
  lookup "np" (env s) = Some (VLib "numpy") /\
  lookup "line_ratios" (env s) = Some (VLib "synthesizer.line_ratios") /\
  lookup "get_diagram_labels" (env s)
    = Some (VLib "synthesizer.line.get_diagram_labels").

(** A call of a function of [matplotlib.pyplot]. *)
Definition plt_call (f : string) (args : list value)
    (kwargs : list (string * value)) (x : xval) : event :=
  (OpCall (VLib ("matplotlib.pyplot." ++ f)) None args kwargs, Ok x).

(** Where the plot of the R23 cell starts: [ratios] is the list at [l]. *)
Definition r23_plot_ready {X} (g : xval) (l : nat) (s : mstate X) : Prop :=
  lookup "grid" (env s) = Some (VExt g) /\
  lookup "plt" (env s) = Some (VLib "matplotlib.pyplot") /\
  lookup "ratios" (env s) = Some (VRef l) /\
  lookup "ratio_id" (env s) = Some (VStr "R23").

(** What the packages answered to the plot of the R23 cell: the metallicity
    axis read again, that axis in solar units, and what the calls of
    [plt] returned. *)
Record r23_plot_replies := R23PlotReplies {
  rp_metallicity : xval;
  rp_zsun : xval;
  rp_plot : xval;
  rp_xlim : xval;
  rp_ylim : xval;
  rp_xscale : xval;
  rp_yscale : xval;
  rp_xlabel : xval;
  rp_ylabel : xval;
  rp_show : xval
}.

(** The events of the plot of the R23 cell, when [ratios] is the list
    [ratios] and the two lists of limits are [xlim] and [ylim]. *)
Definition r23_plot_events (g ratios xlim ylim : value)
    (r : r23_plot_replies) : list event :=
  [ (OpGetAttr g "metallicity", Ok (rp_metallicity r));
    (OpBinOp Div (VExt (rp_metallicity r)) (VFloat "0.0124"),
     Ok (rp_zsun r));
    plt_call "plot" [VExt (rp_zsun r); ratios] [] (rp_plot r);
    plt_call "xlim" [xlim] [] (rp_xlim r);
    plt_call "ylim" [ylim] [] (rp_ylim r);
    plt_call "xscale" [VStr "log"] [] (rp_xscale r);
    plt_call "yscale" [VStr "log"] [] (rp_yscale r);
    plt_call "xlabel" [VStr "$Z/Z_{\odot}$"] [] (rp_xlabel r);
    plt_call "ylabel" [VStr "R23"] [] (rp_ylabel r);
    plt_call "show" [] [] (rp_show r) ].

(** Between two iterations of the R23 loop that started in the namespace
    [e0] with heap [h] and log [lg]. *)
Definition r23_frame_inv (X : external) (g : xval)
    (e0 : list (string * value)) (h : list hobj) (lg : list event)
    (done : list value) (s : mstate X) : Prop :=
  exists its e w,
    length its = length done /\
    s = MState e (h ++ [HList (map (fun it => VExt (ri_ratio it)) its)]) w
          (rev (r23_trace (VExt g) 0 its) ++ lg) /\
    frames ["iZ"; "Z"; "grid_point"; "lines"] e e0.

(** What the packages answered in one iteration of the BPT loop: the bound
    method [grid.get_lines], the line collection, its bound method
    [get_diagram], the diagram, and the two items the diagram iterates
    to. *)
Record bpt_iter := BptIter {
  bi_get_lines : xval;
  bi_lines : xval;
  bi_get_diagram : xval;
  bi_diagram : xval;
  bi_x : xval;
  bi_y : xval
}.

(** The events of iteration [i] of the BPT loop on the grid [g]:
    [x_, y_ = g.get_lines((0, i)).get_diagram("BPT-NII")]. *)
Definition bpt_events (g : value) (i : nat) (it : bpt_iter) : list event :=
  [ (OpGetAttr g "get_lines", Ok (bi_get_lines it));
    (OpCall (VExt (bi_get_lines it)) (Some (g, "get_lines"))
       [VTuple [VInt 0; VInt (Z.of_nat i)]] [],
     Ok (bi_lines it));
    (OpGetAttr (VExt (bi_lines it)) "get_diagram", Ok (bi_get_diagram it));
    (OpCall (VExt (bi_get_diagram it))
       (Some (VExt (bi_lines it), "get_diagram")) [VStr "BPT-NII"] [],
     Ok (bi_diagram it));
    (OpIter (VExt (bi_diagram it)), Ok (XTuple [bi_x it; bi_y it])) ].

Fixpoint bpt_trace (g : value) (i : nat) (its : list bpt_iter) : list event :=
  match its with
  | [] => []
  | it :: its' => bpt_events g i it ++ bpt_trace g (S i) its'
  end.

Definition bpt_frame_inv (X : external) (g : xval)
    (e0 : list (string * value)) (h : list hobj) (lg : list event)
    (done : list value) (s : mstate X) : Prop :=
  exists its e w,
    length its = length done /\
    s = MState e
          (h ++ [ HList (map (fun it => VExt (bi_x it)) its);
                  HList (map (fun it => VExt (bi_y it)) its) ])
          w (rev (bpt_trace (VExt g) 0 its) ++ lg) /\
    frames ["iZ"; "Z"; "grid_point"; "lines"; "x_"; "y_"] e e0.

(** Where the plot of the BPT cell starts: [x] and [y] are the lists at
    [lx] and [ly]. *)
Definition bpt_plot_ready {X} (lx ly : nat) (s : mstate X) : Prop :=
  lookup "x" (env s) = Some (VRef lx) /\
  lookup "y" (env s) = Some (VRef ly) /\
  lookup "diagram_id" (env s) = Some (VStr "BPT-NII") /\
  lookup "plt" (env s) = Some (VLib "matplotlib.pyplot") /\
  lookup "np" (env s) = Some (VLib "numpy") /\
  lookup "line_ratios" (env s) = Some (VLib "synthesizer.line_ratios") /\
  lookup "get_diagram_labels" (env s)
    = Some (VLib "synthesizer.line.get_diagram_labels").

(** What the packages answered to the plot of the BPT cell. *)
Record bpt_plot_replies := BptPlotReplies {
  bp_arange : xval;
  bp_kewley : xval;
  bp_pow_x : xval;
  bp_pow_y : xval;
  bp_plot_kewley : xval;
  bp_plot : xval;
  bp_xlim : xval;
  bp_ylim : xval;
  bp_xscale : xval;
  bp_yscale : xval;
  bp_labels : xval;
  bp_x_label : xval;
  bp_y_label : xval;
  bp_x_text : string;
  bp_xlabel : xval;
  bp_y_text : string;
  bp_ylabel : xval;
  bp_show : xval
}.

(** The events of the plot of the BPT cell, when [x] and [y] are the lists
    [x] and [y] and the two lists of limits are [xlim] and [ylim]: the
    Kewley line, the points, the limits and scales, the labels. *)
Definition bpt_plot_events (x y xlim ylim : value) (r : bpt_plot_replies)
  : list event :=
  [ (OpCall (VLib "numpy.arange") None
       [VFloat "-2.0"; VFloat "1.0"; VFloat "0.01"] [],
     Ok (bp_arange r));
    (OpCall (VLib "synthesizer.line_ratios.get_bpt_kewley01") None
       [VExt (bp_arange r)] [],
     Ok (bp_kewley r));
    (OpBinOp Pow (VInt 10) (VExt (bp_arange r)), Ok (bp_pow_x r));
    (OpBinOp Pow (VInt 10) (VExt (bp_kewley r)), Ok (bp_pow_y r));
    plt_call "plot" [VExt (bp_pow_x r); VExt (bp_pow_y r)]
      [("c", VStr "k"); ("lw", VStr "2"); ("alpha", VFloat "0.3")]
      (bp_plot_kewley r);
    plt_call "plot" [x; y] [] (bp_plot r);
    plt_call "xlim" [xlim] [] (bp_xlim r);
    plt_call "ylim" [ylim] [] (bp_ylim r);
    plt_call "xscale" [VStr "log"] [] (bp_xscale r);
    plt_call "yscale" [VStr "log"] [] (bp_yscale r);
    (OpCall (VLib "synthesizer.line.get_diagram_labels") None
       [VStr "BPT-NII"] [],
     Ok (bp_labels r));
    (OpIter (VExt (bp_labels r)),
     Ok (XTuple [bp_x_label r; bp_y_label r]));
    (OpFormat (VExt (bp_x_label r)) "", Ok (XStr (bp_x_text r)));
    plt_call "xlabel" [VStr ("$" ++ bp_x_text r ++ "$")] [] (bp_xlabel r);
    (OpFormat (VExt (bp_y_label r)) "", Ok (XStr (bp_y_text r)));
    plt_call "ylabel" [VStr ("$" ++ bp_y_text r ++ "$")] [] (bp_ylabel r);
    plt_call "show" [] [] (bp_show r) ].

(** *** What a cell leaves alone *)

(** After code that started in the state [s]: the lists and dicts [s] had
    are as they were, and so is what [ratios] names. *)
Definition earlier_kept {X} (s s' : mstate X) : Prop :=
  firstn (length (heap s)) (heap s') = heap s /\
  lookup "ratios" (env s') = lookup "ratios" (env s).

(** *** Three ways to a galaxy ([src/unnamed/part_001]) *)

(** What the packages answered to the three cells that make galaxies: to
    the import at the top of each, to the calls of [Galaxy], and to the
    prints. *)
Record galaxy_replies := GalaxyReplies {
  gr_import : xval;
  gr_part_gal : xval;
  gr_part_gal_printed : xval;
  gr_blank_printed : xval;
  gr_param_gal : xval;
  gr_param_gal_printed : xval;
  gr_import_particle : xval;
  gr_particle_gal : xval;
  gr_particle_gal_printed : xval;
  gr_import_parametric : xval;
  gr_parametric_gal : xval;
  gr_parametric_gal_printed : xval
}.

(** The arguments of [Galaxy] for particle stars, and for parametric
    ones. *)
Definition part_gal_kwargs (stars : xval) : list (string * value) :=
  [ ("stars", VExt stars); ("gas", VNone); ("black_holes", VNone);
    ("redshift", VInt 1) ].
Definition param_gal_kwargs (stars : xval) : list (string * value) :=
  [ ("stars", VExt stars); ("redshift", VInt 1) ].

(** The events of those three cells, when [param_stars] is [pp] and
    [part_stars] is [ps]. *)
Definition galaxies_events (pp ps : xval) (r : galaxy_replies)
  : list event :=
  [ (OpImport "synthesizer", Ok (gr_import r));
    (OpCall (VLib "synthesizer.Galaxy") None [] (part_gal_kwargs ps),
     Ok (gr_part_gal r));
    printed (VExt (gr_part_gal r)) (gr_part_gal_printed r);
    (OpCall (VBuiltin "print") None [] [], Ok (gr_blank_printed r));
    (OpCall (VLib "synthesizer.Galaxy") None [] (param_gal_kwargs pp),
     Ok (gr_param_gal r));
    printed (VExt (gr_param_gal r)) (gr_param_gal_printed r);
    (OpImport "synthesizer.particle", Ok (gr_import_particle r));
    (OpCall (VLib "synthesizer.particle.Galaxy") None []
       (part_gal_kwargs ps),
     Ok (gr_particle_gal r));
    printed (VExt (gr_particle_gal r)) (gr_particle_gal_printed r);
    (OpImport "synthesizer.parametric", Ok (gr_import_parametric r));
    (OpCall (VLib "synthesizer.parametric.Galaxy") None []
       (param_gal_kwargs pp),
     Ok (gr_parametric_gal r));
    printed (VExt (gr_parametric_gal r)) (gr_parametric_gal_printed r) ].

(** In the events [evs], the parametric stars [pp] were made by
    [synthesizer.parametric.Stars], and the particle stars [ps] were
    sampled by [sample_sfhz] from the star formation and metal enrichment
    history of [pp], its ages and its metallicities. *)
Definition stars_made (pp ps : xval) (evs : list event) : Prop :=
  exists args kwargs sfzh ages metallicities others,
    In (OpCall (VLib "synthesizer.parametric.Stars") None args kwargs, Ok pp)
       evs /\
    In (OpGetAttr (VExt pp) "sfzh", Ok sfzh) evs /\
    In (OpGetAttr (VExt pp) "log10ages", Ok ages) evs /\
    In (OpGetAttr (VExt pp) "log10metallicities", Ok metallicities) evs /\
    In (OpCall (VLib "synthesizer.particle.stars.sample_sfhz") None []
          (("sfzh", VExt sfzh) :: ("log10ages", VExt ages)
           :: ("log10metallicities", VExt metallicities) :: others),
        Ok ps)
       evs.

(** Where the cells that make galaxies start. *)
Definition stars_ready {X} (s : mstate X) : Prop :=
  exists pp ps,
    lookup "param_stars" (env s) = Some (VExt pp) /\
    lookup "part_stars" (env s) = Some (VExt ps) /\
    lookup "print" (env s) = None /\
    stars_made pp ps (trace s).

(** The three cells after the first. *)
Definition particle_parametric_galaxies : list stmt :=
  particle_parametric_factory ++ particle_parametric_particle
    ++ particle_parametric_param.

(** *** The particle galaxy of the galaxy-lines notebook *)

(** What the packages answered to the second cell. *)
Record particle_replies := ParticleReplies {
  pa_import_models : xval;
  pa_import_camels : xval;
  pa_galaxies : xval;
  pa_galaxy : xval;
  pa_stars : xval;
  pa_power_law : xval;
  pa_temperature : xval;
  pa_blackbody : xval;
  pa_model : xval;
  pa_get_spectra : xval;
  pa_spectra : xval;
  pa_get_lines : xval;
  pa_lines : xval;
  pa_lines_attr : xval;
  pa_emergent : xval;
  pa_emergent_printed : xval;
  pa_get_particle_spectra : xval;
  pa_particle_spectra : xval;
  pa_get_particle_lines : xval;
  pa_particle_lines : xval;
  pa_particle_lines_attr : xval;
  pa_particle_emergent : xval;
  pa_particle_emergent_printed : xval
}.

(** [o.m(args)], with the read of the bound method before the call. *)
Definition method_call (o : value) (m : string) (args : list value)
    (bound result : xval) : list event :=
  [ (OpGetAttr o m, Ok bound);
    (OpCall (VExt bound) (Some (o, m)) args [], Ok result) ].

(** [print(o.a["emergent"])]. *)
Definition emergent_printed (o : value) (a : string)
    (attr item out : xval) : list event :=
  [ (OpGetAttr o a, Ok attr);
    (OpGetItem (VExt attr) (VStr "emergent"), Ok item);
    printed (VExt item) out ].

(** The events of the second cell, when [grid] is [g]: the stars of the
    first galaxy from CAMELS, a [PacmanEmission] model on [g], then
    spectra and lines, integrated and per particle. *)
Definition particle_cell_events (g : value) (r : particle_replies)
  : list event :=
  [ (OpImport "synthesizer.emission_models", Ok (pa_import_models r));
    (OpImport "synthesizer.load_data.load_camels", Ok (pa_import_camels r));
    (OpCall (VLib camels_loader) None [VStr "../../../tests/data/"]
       [ ("snap_name", VStr "camels_snap.hdf5");
         ("fof_name", VStr "camels_subhalo.hdf5");
         ("physical", VBool true) ],
     Ok (pa_galaxies r));
    (OpGetItem (VExt (pa_galaxies r)) (VInt 0), Ok (pa_galaxy r));
    (OpGetAttr (VExt (pa_galaxy r)) "stars", Ok (pa_stars r));
    (OpCall (VLib "synthesizer.emission_models.attenuation.PowerLaw") None
       [] [("slope", VFloat "-1.3")],
     Ok (pa_power_law r));
    (OpBinOp Mul (VInt 50) (VLib "unyt.kelvin"), Ok (pa_temperature r));
    (OpCall (VLib "synthesizer.emission_models.dust.emission.Blackbody")
       None [] [("temperature", VExt (pa_temperature r))],
     Ok (pa_blackbody r));
    (OpCall (VLib "synthesizer.emission_models.PacmanEmission") None []
       [ ("grid", g); ("tau_v", VFloat "0.7");
         ("dust_curve", VExt (pa_power_law r));
         ("dust_emission", VExt (pa_blackbody r));
         ("fesc", VFloat "0.2"); ("fesc_ly_alpha", VFloat "0.9") ],
     Ok (pa_model r)) ]
  ++ method_call (VExt (pa_stars r)) "get_spectra" [VExt (pa_model r)]
       (pa_get_spectra r) (pa_spectra r)
  ++ method_call (VExt (pa_stars r)) "get_lines"
       [VTuple hb_o3_ids; VExt (pa_model r)]
       (pa_get_lines r) (pa_lines r)
  ++ emergent_printed (VExt (pa_stars r)) "lines"
       (pa_lines_attr r) (pa_emergent r) (pa_emergent_printed r)
  ++ method_call (VExt (pa_stars r)) "get_particle_spectra"
       [VExt (pa_model r)]
       (pa_get_particle_spectra r) (pa_particle_spectra r)
  ++ method_call (VExt (pa_stars r)) "get_particle_lines"
       [VTuple hb_o3_ids; VExt (pa_model r)]
       (pa_get_particle_lines r) (pa_particle_lines r)
  ++ emergent_printed (VExt (pa_stars r)) "particle_lines"
       (pa_particle_lines_attr r) (pa_particle_emergent r)
       (pa_particle_emergent_printed r).

(** Where the second cell starts. *)
Definition galaxy_ready {X} (s : mstate X) : Prop :=
  exists g,
    lookup "grid" (env s) = Some (VExt g) /\
    lookup "line_ratios" (env s) = Some (VLib "synthesizer.line_ratios") /\
    lookup "PowerLaw" (env s)
      = Some (VLib "synthesizer.emission_models.attenuation.PowerLaw") /\
    lookup "Blackbody" (env s)
      = Some (VLib "synthesizer.emission_models.dust.emission.Blackbody") /\
    lookup "kelvin" (env s) = Some (VLib "unyt.kelvin") /\
    lookup "print" (env s) = None /\
    In (grid_loaded g) (trace s).

(** *** The parametric galaxy of the galaxy-lines notebook *)

(** What the packages answered to the first cell. *)
Record parametric_replies := ParametricReplies {
  pm_import_ratios : xval;
  pm_import_models : xval;
  pm_import_attenuation : xval;
  pm_import_emission : xval;
  pm_import_grid : xval;
  pm_import_parametric : xval;
  pm_import_unyt : xval;
  pm_grid : xval;
  pm_duration : xval;
  pm_sfh : xval;
  pm_metal_dist : xval;
  pm_log10age : xval;
  pm_metallicity : xval;
  pm_stars : xval;
  pm_curve_ism : xval;
  pm_curve_nebular : xval;
  pm_temperature_ism : xval;
  pm_emission_ism : xval;
  pm_temperature_nebular : xval;
  pm_emission_nebular : xval;
  pm_model : xval;
  pm_get_spectra : xval;
  pm_spectra : xval;
  pm_get_lines : xval;
  pm_lines : xval;
  pm_lines_attr : xval;
  pm_emergent : xval;
  pm_emergent_printed : xval
}.

(** A call of a function of the packages by its name, with keyword
    arguments only. *)
Definition kw_call (q : string) (kwargs : list (string * value)) (x : xval)
  : event :=
  (OpCall (VLib q) None [] kwargs, Ok x).

(** The events of the first cell: the imports, the grid, a star formation
    history and a metallicity distribution, the stars on the axes of the
    grid, the emission model on the grid, then spectra and lines. *)
Definition parametric_cell_events (r : parametric_replies) : list event :=
  [ (OpImport "synthesizer.line_ratios", Ok (pm_import_ratios r));
    (OpImport "synthesizer.emission_models", Ok (pm_import_models r));
    (OpImport "synthesizer.emission_models.attenuation",
     Ok (pm_import_attenuation r));
    (OpImport "synthesizer.emission_models.dust.emission",
     Ok (pm_import_emission r));
    (OpImport "synthesizer.grid", Ok (pm_import_grid r));
    (OpImport "synthesizer.parametric", Ok (pm_import_parametric r));
    (OpImport "unyt", Ok (pm_import_unyt r));
    grid_loaded (pm_grid r);
    (OpBinOp Mul (VInt 100) (VLib "unyt.Myr"), Ok (pm_duration r));
    kw_call "synthesizer.parametric.SFH.Constant"
      [("duration", VExt (pm_duration r))] (pm_sfh r);
    kw_call "synthesizer.parametric.ZDist.Normal"
      [("mean", VFloat "0.01"); ("sigma", VFloat "0.05")] (pm_metal_dist r);
    (OpGetAttr (VExt (pm_grid r)) "log10age", Ok (pm_log10age r));
    (OpGetAttr (VExt (pm_grid r)) "metallicity", Ok (pm_metallicity r));
    (OpCall (VLib "synthesizer.parametric.Stars") None
       [VExt (pm_log10age r); VExt (pm_metallicity r)]
       [ ("sf_hist", VExt (pm_sfh r));
         ("metal_dist", VExt (pm_metal_dist r));
         ("initial_mass", VInt (10 ^ 12)) ],
     Ok (pm_stars r));
    kw_call "synthesizer.emission_models.attenuation.PowerLaw"
      [("slope", VFloat "-1.3")] (pm_curve_ism r);
    kw_call "synthesizer.emission_models.attenuation.PowerLaw"
      [("slope", VFloat "-0.7")] (pm_curve_nebular r);
    (OpBinOp Mul (VInt 100) (VLib "unyt.kelvin"),
     Ok (pm_temperature_ism r));
    kw_call "synthesizer.emission_models.dust.emission.Blackbody"
      [("temperature", VExt (pm_temperature_ism r))] (pm_emission_ism r);
    (OpBinOp Mul (VInt 30) (VLib "unyt.kelvin"),
     Ok (pm_temperature_nebular r));
    kw_call "synthesizer.emission_models.dust.emission.Blackbody"
      [("temperature", VExt (pm_temperature_nebular r))]
      (pm_emission_nebular r);
    kw_call "synthesizer.emission_models.BimodalPacmanEmission"
      [ ("grid", VExt (pm_grid r));
        ("tau_v_ism", VFloat "0.5");
        ("tau_v_nebular", VFloat "0.7");
        ("dust_curve_ism", VExt (pm_curve_ism r));
        ("dust_curve_nebular", VExt (pm_curve_nebular r));
        ("dust_emission_ism", VExt (pm_emission_ism r));
        ("dust_emission_nebular", VExt (pm_emission_nebular r));
        ("fesc", VFloat "0.2");
        ("fesc_ly_alpha", VFloat "0.9") ]
      (pm_model r) ]
  ++ method_call (VExt (pm_stars r)) "get_spectra" [VExt (pm_model r)]
       (pm_get_spectra r) (pm_spectra r)
  ++ method_call (VExt (pm_stars r)) "get_lines"
       [VTuple hb_o3_ids; VExt (pm_model r)]
       (pm_get_lines r) (pm_lines r)
  ++ emergent_printed (VExt (pm_stars r)) "lines"
       (pm_lines_attr r) (pm_emergent r) (pm_emergent_printed r).

(** *** Containers handed to the packages *)

(** A value that is, or holds, one of the notebook's own lists or dicts. *)
Fixpoint holds_container (v : value) : bool :=
  match v with
  | VRef _ | VBound _ _ => true
  | VTuple vs => existsb holds_container vs
  | _ => false
  end.

(** An operation that shows the packages none of the notebook's lists and
    dicts. *)
Definition container_free (ev : event) : bool :=
  negb
    match fst ev with
    | OpImport _ => false
    | OpGetAttr o _ => holds_container o
    | OpSetAttr o _ v => holds_container o || holds_container v
    | OpGetItem o i => holds_container o || holds_container i
    | OpSetItem o i v =>
        holds_container o || holds_container i || holds_container v
    | OpCall f recv args kwargs =>
        holds_container f
        || match recv with
           | Some (o, _) => holds_container o
           | None => false
           end
        || existsb holds_container args
        || existsb (fun p => holds_container (snd p)) kwargs
    | OpIter o => holds_container o
    | OpTruth o => holds_container o
    | OpBinOp _ l r => holds_container l || holds_container r
    | OpFormat v _ => holds_container v
    end.

(** Every name a statement reads, at any depth. *)
Fixpoint reads_stmt (s : stmt) : list string :=
  match s with
  | SImport _ _ | SFromImport _ _ => []
  | SAssign t e => reads_expr e ++ reads_target t
  | SExpr e => reads_expr e
  | SFor t iter body =>
      reads_expr iter ++ reads_target t ++ flat_map reads_stmt body
  | SWhile c body => reads_expr c ++ flat_map reads_stmt body
  | SIf c body orelse =>
      reads_expr c ++ flat_map reads_stmt body ++ flat_map reads_stmt orelse
  | STry body _ _ handler =>
      flat_map reads_stmt body ++ flat_map reads_stmt handler
  | SRaise e => reads_expr e
  | SFunctionDef _ _ body => flat_map reads_stmt body
  | SClassDef _ bases body =>
      flat_map reads_expr bases ++ flat_map reads_stmt body
  end.

(** The duration of the star formation history, computed on its own:
    [100 * Myr] for the dict, [100 * Myr] again, and [SFH.Constant] given
    the second. *)
Definition duration_events (d d' sfh : xval) : list event :=
  [ (OpBinOp Mul (VInt 100) (VLib "unyt.Myr"), Ok d);
    (OpBinOp Mul (VInt 100) (VLib "unyt.Myr"), Ok d');
    (OpCall (VLib "synthesizer.parametric.SFH.Constant") None []
       [("duration", VExt d')],
     Ok sfh) ].

(** What a run of the particle-vs-parametric notebook leaves: no event
    shows a container; and if the run completed, the one container is the
    dict that [sfh_p] names, with its one entry, and the history was made
    from a duration computed after that of the dict. *)
Definition sfh_p_unused {X} (r : outcome unit * mstate X) : Prop :=
  forallb container_free (log (snd r)) = true /\
  (fst r = Normal tt ->
   exists d d' sfh before after,
     trace (snd r) = before ++ duration_events d d' sfh ++ after /\
     lookup "sfh_p" (env (snd r)) = Some (VRef 0) /\
     heap (snd r) = [HDict [(VStr "duration", VExt d)]] /\
     lookup "sfh" (env (snd r)) = Some (VExt sfh)).

End Cells.
Import Cells.

(* ===================================================================== *)
(** ** How a run extends the log *)
(* ===================================================================== *)

Local Open Scope list_scope.

Section Laws.

Variable X : external.

Lemma orderly_normal {A} (a : A) new :
  orderly (Normal a) new -> Forall answered new.
Proof.
  destruct new as [|[op r] older]; simpl; [constructor|].
  intros [Hold Hr]. constructor; [|exact Hold].
  unfold answered; simpl. destruct r; [exact I | discriminate].
Qed.

Lemma orderly_app {A} (out : outcome A) new1 new2 :
  Forall answered new1 -> orderly out new2 -> orderly out (new2 ++ new1).
Proof.
  intros H1 H2. destruct new2 as [|[op r] older]; simpl in *.
  - destruct new1 as [|[op r] older]; simpl; [exact I|].
    inversion H1 as [|? ? Hr Hold]; subst. split; [exact Hold|].
    unfold answered in Hr; simpl in Hr. destruct r; [exact I | contradiction].
  - destruct H2 as [Hold Hr]. split; [|exact Hr].
    apply Forall_app. split; assumption.
Qed.

(** A step that did not end normally hands its outcome on, at whatever
    type. *)
Lemma orderly_raised {A B} e new :
  orderly (@Raised A e) new -> orderly (@Raised B e) new.
Proof.
  destruct new as [|[op r] older]; simpl; auto.
  intros [Hold Hr]. split; auto. destruct r; auto. congruence.
Qed.

Lemma orderly_stuck {A B} w new :
  orderly (@Stuck A w) new -> orderly (@Stuck B w) new.
Proof.
  destruct new as [|[op r] older]; simpl; auto.
  intros [Hold Hr]. split; auto. destruct r; auto. discriminate.
Qed.

Lemma within_incl S S' new : incl S S' -> within S new -> within S' new.
Proof.
  intros Hi Hw. eapply Forall_impl; [|exact Hw]. intros ev Hin. apply Hi, Hin.
Qed.

Lemma sound_tidy {A} (m : M X A) c S : sound m c S -> tidy m S.
Proof.
  intros H s. destruct (H s) as (new & H1 & H2 & H3 & _). eauto.
Qed.

Lemma sound_weaken {A} (m : M X A) c c' S S' :
  sound m c S -> c <= c' -> incl S S' -> sound m c' S'.
Proof.
  intros H Hc Hi s. destruct (H s) as (new & H1 & H2 & H3 & H4).
  exists new. repeat split; eauto using within_incl. lia.
Qed.

Lemma tidy_weaken {A} (m : M X A) S S' :
  tidy m S -> incl S S' -> tidy m S'.
Proof.
  intros H Hi s. destruct (H s) as (new & H1 & H2 & H3).
  exists new. repeat split; eauto using within_incl.
Qed.

(** A step that leaves the log alone. *)
Lemma sound_silent {A} (m : M X A) :
  (forall s, log (snd (m s)) = log s) -> sound m 0 [].
Proof.
  intros H s. exists []. rewrite H. repeat split; simpl; auto. constructor.
Qed.

Lemma sound_ask op : sound (ask X op) 1 [shape op].
Proof.
  intros s. unfold ask.
  destruct (lstep X (world s) (heap s) op) as [[v|e] w]; simpl.
  - exists [(op, Ok v)]. repeat split; simpl; auto.
    constructor; [left; reflexivity | constructor].
  - exists [(op, Raise e)]. repeat split; simpl; auto.
    constructor; [left; reflexivity | constructor].
Qed.

Lemma sound_bind {A B} (m : M X A) (k : A -> M X B) c1 c2 S :
  sound m c1 S -> (forall a, sound (k a) c2 S) -> sound (bind X m k) (c1 + c2) S.
Proof.
  intros Hm Hk s. unfold bind.
  destruct (Hm s) as (new1 & E1 & O1 & W1 & L1).
  destruct (m s) as [[a|e|w] s1]; simpl in *.
  - destruct (Hk a s1) as (new2 & E2 & O2 & W2 & L2).
    exists (new2 ++ new1). rewrite E2, E1, app_assoc.
    repeat split.
    + apply orderly_app; [eapply orderly_normal; eassumption | assumption].
    + apply Forall_app; split; assumption.
    + rewrite length_app. lia.
  - exists new1. repeat split; auto; [|lia].
    eapply orderly_raised; eassumption.
  - exists new1. repeat split; auto; [|lia].
    eapply orderly_stuck; eassumption.
Qed.

Lemma tidy_bind {A B} (m : M X A) (k : A -> M X B) S :
  tidy m S -> (forall a, tidy (k a) S) -> tidy (bind X m k) S.
Proof.
  intros Hm Hk s. unfold bind.
  destruct (Hm s) as (new1 & E1 & O1 & W1).
  destruct (m s) as [[a|e|w] s1]; simpl in *.
  - destruct (Hk a s1) as (new2 & E2 & O2 & W2).
    exists (new2 ++ new1). rewrite E2, E1, app_assoc.
    repeat split.
    + apply orderly_app; [eapply orderly_normal; eassumption | assumption].
    + apply Forall_app; split; assumption.
  - exists new1. repeat split; auto.
    eapply orderly_raised; eassumption.
  - exists new1. repeat split; auto.
    eapply orderly_stuck; eassumption.
Qed.

(** *** Steps that leave the log alone *)


Lemma sound_quiet {A} (m : M X A) c S : quiet m -> sound m c S.
Proof.
  intros H. eapply sound_weaken; [apply sound_silent, H | lia |].
  intros x [].
Qed.

Lemma quiet_ret {A} (a : A) : quiet (ret X a).
Proof. intros s. reflexivity. Qed.

Lemma quiet_raise {A} e : quiet (@raise X A e).
Proof. intros s. reflexivity. Qed.

Lemma quiet_stuck {A} w : quiet (@stuck X A w).
Proof. intros s. reflexivity. Qed.

Lemma quiet_bind {A B} (m : M X A) (k : A -> M X B) :
  quiet m -> (forall a, quiet (k a)) -> quiet (bind X m k).
Proof.
  intros Hm Hk s. unfold bind. specialize (Hm s).
  destruct (m s) as [[a|e|w] s1]; simpl in *; auto.
  rewrite Hk. exact Hm.
Qed.

Lemma quiet_load_name x : quiet (load_name X x).
Proof.
  intros s. unfold load_name. destruct (lookup x (env s)); auto.
  destruct (existsb _ _); auto.
Qed.

Lemma quiet_set_var x v : quiet (set_var X x v).
Proof. intros s. reflexivity. Qed.

Lemma quiet_alloc o : quiet (alloc X o).
Proof. intros s. reflexivity. Qed.

Lemma quiet_heap_get l : quiet (heap_get X l).
Proof. intros s. unfold heap_get. destruct (nth_error _ _); auto. Qed.

Lemma quiet_heap_set l o : quiet (heap_set X l o).
Proof. intros s. reflexivity. Qed.

Lemma quiet_seq_get vs z : quiet (seq_get X vs z).
Proof.
  unfold seq_get, index_error. destruct (seq_index _ _);
    [destruct (nth_error _ _)|]; auto using quiet_ret, quiet_raise.
Qed.

Lemma quiet_join vs : quiet (join X vs).
Proof.
  unfold join. destruct (concat_strs vs); [apply quiet_ret|apply quiet_stuck].
Qed.

Create HintDb quiet.
#[local] Hint Resolve quiet_ret quiet_raise quiet_stuck quiet_load_name
  quiet_set_var quiet_alloc quiet_heap_get quiet_heap_set quiet_seq_get
  quiet_join : quiet.

(** *** The operations on values *)

Lemma sound_ask_in op c S :
  In (shape op) S -> 1 <= c -> sound (ask X op) c S.
Proof.
  intros Hin Hc. eapply sound_weaken; [apply sound_ask | exact Hc |].
  intros x [<-|[]]. exact Hin.
Qed.

Lemma sound_bind_le {A B} (m : M X A) (k : A -> M X B) c1 c2 c S :
  sound m c1 S -> (forall a, sound (k a) c2 S) -> c1 + c2 <= c ->
  sound (bind X m k) c S.
Proof.
  intros Hm Hk Hc. eapply sound_weaken;
    [apply sound_bind; eassumption | exact Hc | apply incl_refl].
Qed.

(** Quiet first, then [k]. *)
Lemma sound_after_quiet {A B} (m : M X A) (k : A -> M X B) c S :
  quiet m -> (forall a, sound (k a) c S) -> sound (bind X m k) c S.
Proof.
  intros Hm Hk. eapply sound_bind_le with (c1 := 0) (c2 := c);
    [apply sound_quiet, Hm | exact Hk | lia].
Qed.

Ltac quiet_case :=
  solve [ apply sound_quiet;
          repeat first [ apply quiet_bind; [|intros]
                       | solve [auto with quiet] ] ].

(** The cases of a reply that is decoded. *)
Ltac reply_cases r :=
  destruct r; try match goal with x : xval |- _ => destruct x end;
  quiet_case.

Lemma sound_get_attr o a : sound (get_attr X o a) 1 [ShGetAttr a].
Proof.
  destruct o; simpl; try (apply sound_ask_in; simpl; auto); quiet_case.
Qed.

Lemma sound_get_item o i : sound (get_item X o i) 1 [ShGetItem].
Proof.
  destruct o; simpl; try (apply sound_ask_in; simpl; auto).
  - destruct i; try (apply sound_ask_in; simpl; auto). quiet_case.
  - apply sound_quiet. apply quiet_bind; [auto with quiet|].
    intros ho. destruct ho, i; auto with quiet;
      destruct (dict_get _ _); auto with quiet.
Qed.

Lemma sound_set_item o i v : sound (set_item X o i v) 1 [ShSetItem].
Proof.
  destruct o; simpl;
    try (eapply sound_bind_le with (c1 := 1) (c2 := 0);
         [apply sound_ask_in; simpl; auto | intros; quiet_case | lia]).
  apply sound_quiet. apply quiet_bind; [auto with quiet|].
  intros ho. unfold index_error.
  destruct ho, i; auto with quiet. destruct (seq_index _ _); auto with quiet.
Qed.

Lemma sound_iterate v : sound (iterate X v) 1 [ShIter].
Proof.
  destruct v; simpl;
    try (eapply sound_bind_le with (c1 := 1) (c2 := 0);
         [apply sound_ask_in; simpl; auto
         | intros r; reply_cases r | lia]).
  - quiet_case.
  - apply sound_quiet. apply quiet_bind; [auto with quiet|].
    intros ho. destruct ho; auto with quiet.
Qed.

Lemma sound_truth v : sound (truth X v) 1 [ShTruth].
Proof.
  destruct v; simpl;
    try (eapply sound_bind_le with (c1 := 1) (c2 := 0);
         [apply sound_ask_in; simpl; auto
         | intros r; reply_cases r | lia]);
    try quiet_case.
  apply sound_quiet. apply quiet_bind; [auto with quiet|].
  intros ho. destruct ho; auto with quiet.
Qed.

Lemma sound_bin_op op l r : sound (bin_op X op l r) 1 [ShBinOp op].
Proof.
  unfold bin_op.
  destruct op, l, r; try (apply sound_ask_in; simpl; auto); try quiet_case.
  destruct (0 <=? z0)%Z; [quiet_case | apply sound_ask_in; simpl; auto].
Qed.

Lemma sound_ask_format v spec :
  sound (ask_format X v spec) 1 [ShFormat spec].
Proof.
  eapply sound_bind_le with (c1 := 1) (c2 := 0);
    [ apply sound_ask_in; simpl; auto | intros r; reply_cases r | lia ].
Qed.

Lemma sound_format_value v spec :
  sound (format_value X v spec) 1 [ShFormat spec].
Proof.
  destruct v; simpl; try apply sound_ask_format.
  destruct (String.eqb spec ""); [quiet_case | apply sound_ask_format].
Qed.

Lemma sound_call f recv args kwargs :
  sound (call X f recv args kwargs) 1 [ShCall (option_map snd recv); ShIter].
Proof.
  destruct f; simpl; try (apply sound_ask_in; simpl; auto).
  - destruct (String.eqb m "append"); [|quiet_case].
    destruct args as [|v [|]]; try quiet_case.
    destruct kwargs; try quiet_case.
    apply sound_quiet. apply quiet_bind; [auto with quiet|].
    intros ho. destruct ho; auto with quiet.
    apply quiet_bind; auto with quiet.
  - destruct (String.eqb name "enumerate");
      [|apply sound_ask_in; simpl; auto].
    destruct args as [|v [|]]; try quiet_case.
    destruct kwargs; try quiet_case.
    eapply sound_bind_le with (c1 := 1) (c2 := 0);
      [eapply sound_weaken; [apply sound_iterate | lia |]
      | intros; quiet_case | lia].
    intros x [<-|[]]. simpl; auto.
Qed.

(** *** Expressions and targets *)

Lemma sound_ext {A} (m m' : M X A) c S :
  (forall s, m s = m' s) -> sound m c S -> sound m' c S.
Proof. intros E H s. rewrite <- E. apply H. Qed.

Lemma bind_assoc {A B C} (m : M X A) (k1 : A -> M X B) (k2 : B -> M X C) s :
  bind X m (fun a => bind X (k1 a) k2) s = bind X (bind X m k1) k2 s.
Proof. unfold bind. destruct (m s) as [[a|e|w] s1]; reflexivity. Qed.

Lemma sound_mapM {A B} (f : A -> M X B) (cost : A -> nat)
    (sh : A -> list op_shape) (l : list A) :
  list_all A (fun a => sound (f a) (cost a) (sh a)) l ->
  sound (mapM X f l) (list_sum (map cost l)) (flat_map sh l).
Proof.
  induction 1 as [|a Ha l Hl IH]; simpl.
  - apply sound_quiet. auto with quiet.
  - apply sound_bind.
    + eapply sound_weaken; [exact Ha | lia | apply incl_appl, incl_refl].
    + intros b. eapply sound_bind_le with (c2 := 0);
        [eapply sound_weaken; [exact IH | apply Nat.le_refl
                              | apply incl_appr, incl_refl]
        | intros; quiet_case | lia].
Qed.

Ltac sub_incl :=
  solve [ repeat first
            [ apply incl_refl
            | apply incl_nil_l
            | apply incl_tl
            | apply incl_appl; apply incl_refl
            | apply incl_appr ] ].

Lemma sound_eval_callee e :
  sound (eval X e) (cost_expr e) (shapes_expr e) /\ sound_callee X e.
Proof.
  induction e as
    [ x | | b | z | lit | str | parts IHparts | e1 [IH1 _] spec
    | e1 [IH1 _] a | e1 [IH1 _] i [IHi _] | f [IHf Hcallee] args IHargs kwargs IHkw
    | es IHes | es IHes | kvs IHkvs | op l [IHl _] r [IHr _] ];
    (split; [|try exact I; try exact IH1]); simpl.
  - quiet_case.
  - quiet_case.
  - quiet_case.
  - quiet_case.
  - quiet_case.
  - quiet_case.
  - (* f-string *)
    eapply sound_bind_le with (c2 := 0);
      [ apply (sound_mapM (eval X) cost_expr shapes_expr)
      | intros; quiet_case | lia ].
    clear -IHparts. induction IHparts as [|a [Ha _] l Hl IH];
      constructor; assumption.
  - eapply sound_bind_le;
      [ eapply sound_weaken; [exact IH1 | apply Nat.le_refl | sub_incl]
      | intros v; eapply sound_weaken;
          [apply sound_format_value | apply Nat.le_refl |]
      | lia ].
    intros x [<-|[]]. left; reflexivity.
  - eapply sound_bind_le;
      [ eapply sound_weaken; [exact IH1 | apply Nat.le_refl | sub_incl]
      | intros v; eapply sound_weaken;
          [apply sound_get_attr | apply Nat.le_refl |]
      | lia ].
    intros x [<-|[]]. left; reflexivity.
  - eapply sound_bind_le with (c1 := cost_expr e1) (c2 := cost_expr i + 1);
      [ eapply sound_weaken; [exact IH1 | apply Nat.le_refl |]
      | intros o; eapply sound_bind_le;
          [ eapply sound_weaken; [exact IHi | apply Nat.le_refl |]
          | intros k; eapply sound_weaken;
              [apply sound_get_item | apply Nat.le_refl |]
          | apply Nat.le_refl ]
      | lia ].
    + apply incl_tl, incl_appl, incl_refl.
    + apply incl_tl, incl_appr, incl_refl.
    + intros x [<-|[]]. left; reflexivity.
  - (* call *)
    set (Sh := ShCall None :: ShIter :: callee_shapes f ++ shapes_expr f
                 ++ flat_map shapes_expr args
                 ++ flat_map (fun p => shapes_expr (snd p)) kwargs).
    assert (Hrest : forall cr : value * option (value * string),
               In (ShCall (option_map snd (snd cr))) Sh ->
               sound
                 (bind X (mapM X (eval X) args) (fun avs =>
                  bind X (mapM X (fun p : string * expr =>
                            let '(k, e1) := p in
                            bind X (eval X e1) (fun v => ret X (k, v)))
                          kwargs) (fun kvs =>
                  call X (fst cr) (snd cr) avs kvs)))
                 (list_sum (map cost_expr args)
                  + (list_sum (map (fun p => cost_expr (snd p)) kwargs) + 1))
                 Sh).
    { intros cr Hcr. apply sound_bind.
      - eapply sound_weaken;
          [ apply (sound_mapM (eval X) cost_expr shapes_expr)
          | apply Nat.le_refl | ].
        + clear -IHargs. induction IHargs as [|a [Ha _] l Hl IH];
            constructor; assumption.
        + unfold Sh. do 2 apply incl_tl.
          apply incl_appr, incl_appr, incl_appl, incl_refl.
      - intros avs. apply sound_bind.
        + eapply sound_weaken;
            [ apply (sound_mapM _ (fun p => cost_expr (snd p))
                       (fun p => shapes_expr (snd p)))
            | apply Nat.le_refl | ].
          * clear -IHkw. induction IHkw as [|[k e1] Ha l Hl IH];
              constructor; [|assumption].
            inversion Ha as [? _ ? [Hb _]]; subst. simpl.
            eapply sound_bind_le with (c2 := 0);
              [exact Hb | intros; quiet_case | lia].
          * unfold Sh. do 2 apply incl_tl.
            apply incl_appr, incl_appr, incl_appr, incl_refl.
        + intros kvs. eapply sound_weaken;
            [apply sound_call | apply Nat.le_refl |].
          intros x [<-|[<-|[]]]; [exact Hcr | unfold Sh; simpl; auto]. }
    assert (Hplain :
              sound
                (bind X (bind X (eval X f) (fun c => ret X (c, None)))
                   (fun cr =>
                    bind X (mapM X (eval X) args) (fun avs =>
                    bind X (mapM X (fun p : string * expr =>
                              let '(k, e1) := p in
                              bind X (eval X e1) (fun v => ret X (k, v)))
                            kwargs) (fun kvs =>
                    call X (fst cr) (snd cr) avs kvs))))
                (S (cost_expr f + (list_sum (map cost_expr args)
                   + list_sum (map (fun p => cost_expr (snd p)) kwargs))))
                Sh).
    { eapply sound_ext; [intros s; apply bind_assoc|].
      eapply sound_bind_le;
        [ eapply sound_weaken; [exact IHf | apply Nat.le_refl |]
        | intros c; eapply sound_ext; [intros s; reflexivity|];
          apply (Hrest (c, None)); left; reflexivity
        | lia ].
      unfold Sh. do 2 apply incl_tl. apply incl_appr, incl_appl, incl_refl. }
    destruct f; try exact Hplain. clear Hplain. simpl.
    (* the callee is an attribute *)
    eapply sound_ext.
    { intros s. apply bind_assoc. }
    eapply sound_bind_le;
      [ eapply sound_weaken; [exact Hcallee | apply Nat.le_refl |]
      | intros o; eapply sound_ext; [intros s; apply bind_assoc|];
        eapply sound_bind_le;
          [ eapply sound_weaken;
              [apply sound_get_attr | apply Nat.le_refl |]
          | intros c; eapply sound_ext; [intros s; reflexivity|];
            apply (Hrest (c, recv_of o a))
          | apply Nat.le_refl ]
      | simpl; lia ].
    + unfold Sh. simpl. do 4 apply incl_tl. apply incl_appl, incl_refl.
    + intros x [<-|[]]. unfold Sh. simpl. auto.
    + unfold Sh. simpl. destruct o; simpl; auto.
  - eapply sound_bind_le with (c2 := 0);
      [ apply (sound_mapM (eval X) cost_expr shapes_expr)
      | intros; quiet_case | lia ].
    clear -IHes. induction IHes as [|a [Ha _] l Hl IH];
      constructor; assumption.
  - eapply sound_bind_le with (c2 := 0);
      [ apply (sound_mapM (eval X) cost_expr shapes_expr)
      | intros; quiet_case | lia ].
    clear -IHes. induction IHes as [|a [Ha _] l Hl IH];
      constructor; assumption.
  - eapply sound_bind_le with (c2 := 0);
      [ apply (sound_mapM _ (fun p => cost_expr (fst p) + cost_expr (snd p))
                 (fun p => shapes_expr (fst p) ++ shapes_expr (snd p)))
      | intros; quiet_case | lia ].
    clear -IHkvs. induction IHkvs as [|[ke ve] Ha l Hl IH];
      constructor; [|assumption].
    inversion Ha as [? [Hk _] ? [Hv _]]; subst. simpl.
    apply sound_bind;
      [ eapply sound_weaken;
          [exact Hk | apply Nat.le_refl | apply incl_appl, incl_refl]
      | intros k; eapply sound_bind_le with (c2 := 0);
          [ eapply sound_weaken;
              [exact Hv | apply Nat.le_refl | apply incl_appr, incl_refl]
          | intros; quiet_case | lia ] ].
  - eapply sound_bind_le with (c1 := cost_expr l) (c2 := cost_expr r + 1);
      [ eapply sound_weaken; [exact IHl | apply Nat.le_refl |]
      | intros o; eapply sound_bind_le;
          [ eapply sound_weaken; [exact IHr | apply Nat.le_refl |]
          | intros k; eapply sound_weaken;
              [apply sound_bin_op | apply Nat.le_refl |]
          | apply Nat.le_refl ]
      | lia ].
    + apply incl_tl, incl_appl, incl_refl.
    + apply incl_tl, incl_appr, incl_refl.
    + intros x [<-|[]]. left; reflexivity.
Qed.

Lemma sound_eval e : sound (eval X e) (cost_expr e) (shapes_expr e).
Proof. apply sound_eval_callee. Qed.

Lemma sound_assign_all (ts : list target) :
  list_all target
    (fun t => forall v, sound (assign X t v) (cost_target t) (shapes_target t))
    ts ->
  forall vs,
    sound (assign_all X (assign X) ts vs)
      (list_sum (map cost_target ts)) (flat_map shapes_target ts).
Proof.
  induction 1 as [|t Ht ts Hts IH]; intros vs; simpl.
  - apply sound_quiet. destruct vs; auto with quiet.
  - destruct vs as [|v vs]; [quiet_case|].
    apply sound_bind.
    + eapply sound_weaken; [apply Ht | lia | apply incl_appl, incl_refl].
    + intros _. eapply sound_weaken;
        [apply IH | apply Nat.le_refl | apply incl_appr, incl_refl].
Qed.

Lemma sound_assign t :
  forall v, sound (assign X t v) (cost_target t) (shapes_target t).
Proof.
  induction t as [x | ts IHts | e a | e i]; intros v; simpl.
  - quiet_case.
  - eapply sound_bind_le with (c1 := 1);
      [ eapply sound_weaken; [apply sound_iterate | apply Nat.le_refl |]
      | intros items; destruct (Nat.eqb _ _);
          [ eapply sound_weaken;
              [ apply sound_assign_all, IHts | apply Nat.le_refl
              | apply incl_tl, incl_refl ]
          | quiet_case ]
      | simpl; lia ].
    intros x [<-|[]]. left; reflexivity.
  - eapply sound_bind_le with (c2 := 1);
      [ eapply sound_weaken;
          [apply sound_eval | apply Nat.le_refl | apply incl_tl, incl_refl]
      | intros o; eapply sound_bind_le with (c2 := 0);
          [ apply sound_ask_in; [left; reflexivity | apply Nat.le_refl]
          | intros; quiet_case | lia ]
      | lia ].
  - eapply sound_bind_le with (c1 := cost_expr e) (c2 := cost_expr i + 1);
      [ eapply sound_weaken; [apply sound_eval | apply Nat.le_refl |]
      | intros o; eapply sound_bind_le;
          [ eapply sound_weaken; [apply sound_eval | apply Nat.le_refl |]
          | intros k; eapply sound_weaken;
              [apply sound_set_item | apply Nat.le_refl |]
          | apply Nat.le_refl ]
      | lia ].
    + apply incl_tl, incl_appl, incl_refl.
    + apply incl_tl, incl_appr, incl_refl.
    + intros x [<-|[]]. left; reflexivity.
Qed.

(** *** Statements *)

Lemma quiet_for_names (step : string * option string -> M X unit) ps :
  (forall p, quiet (step p)) -> quiet (for_names X step ps).
Proof.
  intros H. induction ps as [|p ps IH]; simpl; [apply quiet_ret|].
  apply quiet_bind; auto.
Qed.

Lemma quiet_bind_import m p : quiet (bind_import X m p).
Proof. destruct p as [x asname]. apply quiet_set_var. Qed.

Lemma sound_simple fuel s :
  simple s = true -> sound (exec X fuel s) (cost_stmt s) (shapes_stmt s).
Proof.
  destruct s; simpl; try discriminate; intros _.
  - eapply sound_bind_le with (c2 := 0);
      [ apply sound_ask_in; [left; reflexivity | apply Nat.le_refl]
      | intros; destruct asname; quiet_case | lia ].
  - eapply sound_bind_le with (c2 := 0);
      [ apply sound_ask_in; [left; reflexivity | apply Nat.le_refl]
      | intros; apply sound_quiet, quiet_for_names, quiet_bind_import | lia ].
  - apply sound_bind.
    + eapply sound_weaken;
        [apply sound_eval | apply Nat.le_refl | apply incl_appl, incl_refl].
    + intros v. eapply sound_weaken;
        [apply sound_assign | apply Nat.le_refl | apply incl_appr, incl_refl].
  - eapply sound_bind_le with (c2 := 0);
      [apply sound_eval | intros; quiet_case | lia].
Qed.

(** Straight-line code asks for at most [cost_block] operations. *)
Lemma sound_straight_line fuel p :
  straight_line p = true ->
  sound (exec_block X fuel p) (cost_block p) (shapes_block p).
Proof.
  unfold exec_block, cost_block, shapes_block.
  induction p as [|s p IH]; simpl; intros H.
  - quiet_case.
  - apply andb_prop in H. destruct H as [Hs Hp].
    apply sound_bind.
    + eapply sound_weaken;
        [ apply sound_simple, Hs | apply Nat.le_refl
        | apply incl_appl, incl_refl ].
    + intros _. eapply sound_weaken;
        [apply IH, Hp | apply Nat.le_refl | apply incl_appr, incl_refl].
Qed.

Lemma tidy_quiet {A} (m : M X A) S : quiet m -> tidy m S.
Proof. intros H. apply (sound_tidy m 0 S), sound_quiet, H. Qed.

Lemma tidy_block (ex : stmt -> M X unit) p S :
  (forall s, In s p -> tidy (ex s) S) -> tidy (block X ex p) S.
Proof.
  induction p as [|s p IH]; simpl; intros H.
  - apply tidy_quiet, quiet_ret.
  - apply tidy_bind; [apply H; left; reflexivity|].
    intros _. apply IH. intros s' Hin. apply H. right. exact Hin.
Qed.

Lemma tidy_for_each (step : value -> M X unit) items S :
  (forall v, tidy (step v) S) -> tidy (for_each X step items) S.
Proof.
  intros H. induction items as [|v items IH]; simpl.
  - apply tidy_quiet, quiet_ret.
  - apply tidy_bind; [apply H | intros _; exact IH].
Qed.

Lemma tidy_while fuel (cond : M X bool) (body : M X unit) S :
  tidy cond S -> tidy body S -> tidy (while_loop X fuel cond body) S.
Proof.
  intros Hc Hb. induction fuel as [|fuel IH]; simpl.
  - apply tidy_quiet, quiet_stuck.
  - apply tidy_bind; [exact Hc|].
    intros [|]; [|apply tidy_quiet, quiet_ret].
    apply tidy_bind; [exact Hb | intros _; exact IH].
Qed.

Lemma list_all_In {A} (P : A -> Prop) (l : list A) :
  list_all A P l -> forall a, In a l -> P a.
Proof.
  induction 1 as [|a Ha l Hl IH]; intros b [].
  - subst. exact Ha.
  - apply IH. assumption.
Qed.

Lemma incl_flat_map_In {A B} (f : A -> list B) a l :
  In a l -> incl (f a) (flat_map f l).
Proof. intros Hin b Hb. apply in_flat_map. exists a. split; assumption. Qed.

Lemma tidy_body fuel body S :
  list_all stmt
    (fun s => no_try s = true -> tidy (exec X fuel s) (shapes_stmt s)) body ->
  forallb no_try body = true ->
  incl (flat_map shapes_stmt body) S ->
  tidy (block X (exec X fuel) body) S.
Proof.
  intros IH Hnt Hi. apply tidy_block. intros s Hin.
  eapply tidy_weaken.
  - apply (list_all_In _ _ IH s Hin).
    rewrite forallb_forall in Hnt. apply Hnt, Hin.
  - eapply incl_tran; [apply incl_flat_map_In, Hin | exact Hi].
Qed.

(** Code without [try] extends the log in an orderly way, by events of the
    shapes its text allows. *)
Lemma tidy_exec fuel s :
  no_try s = true -> tidy (exec X fuel s) (shapes_stmt s).
Proof.
  induction s as
    [ m asname | m names | t e | e | t iter body IHbody | c body IHbody
    | c body IHbody orelse IHorelse | body IHbody cls name handler IHhandler
    | e | name params body IHbody | name bases body IHbody ];
    intros Hnt;
    try (eapply sound_tidy; apply sound_simple; reflexivity).
  - (* for *)
    simpl in *. apply tidy_bind.
    { eapply tidy_weaken; [eapply sound_tidy, sound_eval|].
      apply incl_tl, incl_appl, incl_refl. }
    intros v. apply tidy_bind.
    { eapply tidy_weaken; [eapply sound_tidy, sound_iterate|].
      intros x [<-|[]]. left; reflexivity. }
    intros items. apply tidy_for_each. intros x. apply tidy_bind.
    { eapply tidy_weaken; [eapply sound_tidy, sound_assign|].
      apply incl_tl, incl_appr, incl_appl, incl_refl. }
    intros _. apply (tidy_body fuel body); auto.
    apply incl_tl, incl_appr, incl_appr, incl_refl.
  - (* while *)
    simpl in *. apply tidy_while.
    + apply tidy_bind.
      { eapply tidy_weaken; [eapply sound_tidy, sound_eval|].
        apply incl_tl, incl_appl, incl_refl. }
      intros v. eapply tidy_weaken; [eapply sound_tidy, sound_truth|].
      intros x [<-|[]]. left; reflexivity.
    + apply (tidy_body fuel body); auto.
      apply incl_tl, incl_appr, incl_refl.
  - (* if *)
    simpl in *. apply andb_prop in Hnt. destruct Hnt as [Hb Ho].
    apply tidy_bind.
    { eapply tidy_weaken; [eapply sound_tidy, sound_eval|].
      apply incl_tl, incl_appl, incl_refl. }
    intros v. apply tidy_bind.
    { eapply tidy_weaken; [eapply sound_tidy, sound_truth|].
      intros x [<-|[]]. left; reflexivity. }
    intros [|].
    + apply (tidy_body fuel body); auto.
      apply incl_tl, incl_appr, incl_appl, incl_refl.
    + apply (tidy_body fuel orelse); auto.
      apply incl_tl, incl_appr, incl_appr, incl_refl.
  - discriminate.
  - (* raise *)
    simpl. apply tidy_bind; [eapply sound_tidy, sound_eval|].
    intros v. apply tidy_quiet, quiet_raise.
  - apply tidy_quiet, quiet_stuck.
  - apply tidy_quiet, quiet_stuck.
Qed.

Lemma tidy_exec_block fuel p :
  forallb no_try p = true -> tidy (exec_block X fuel p) (shapes_block p).
Proof.
  intros Hnt. apply tidy_block. intros s Hin.
  eapply tidy_weaken.
  - apply tidy_exec. rewrite forallb_forall in Hnt. apply Hnt, Hin.
  - apply incl_flat_map_In, Hin.
Qed.

End Laws.

(* ===================================================================== *)
(** ** Following a run step by step *)
(* ===================================================================== *)

Section Wp.

Variable X : external.

Lemma wp_bind {A B} (m : M X A) (k : A -> M X B) s Q :
  wp X m s (after X k Q) -> wp X (bind X m k) s Q.
Proof.
  unfold wp, after, bind. destruct (m s) as [[a|e|w] s']; simpl; auto.
Qed.

Lemma after_normal {A B} (k : A -> M X B) Q a s :
  wp X (k a) s Q -> after X k Q (Normal a, s).
Proof. exact (fun H => H). Qed.

Lemma after_raised {A B} (k : A -> M X B) Q e s :
  Q (Raised e, s) -> after X k Q (Raised e, s).
Proof. exact (fun H => H). Qed.

Lemma after_stuck {A B} (k : A -> M X B) Q why s :
  Q (Stuck why, s) -> after X k Q (Stuck why, s).
Proof. exact (fun H => H). Qed.

(** An operation of the oracle: it may answer anything, or raise anything. *)
Lemma wp_ask op s (Q : outcome value * mstate X -> Prop) :
  (forall x w', Q (Normal (VExt x),
                   MState (env s) (heap s) w' ((op, Ok x) :: log s))) ->
  (forall e w', Q (Raised (VExt e),
                   MState (env s) (heap s) w' ((op, Raise e) :: log s))) ->
  wp X (ask X op) s Q.
Proof.
  intros H1 H2. unfold wp, ask.
  destruct (lstep X (world s) (heap s) op) as [[x|e] w']; auto.
Qed.

(** An operation of an oracle whose answer is known. *)
Lemma wp_ask_told op s (Q : outcome value * mstate X -> Prop) x w' :
  lstep X (world s) (heap s) op = (Ok x, w') ->
  Q (Normal (VExt x), MState (env s) (heap s) w' ((op, Ok x) :: log s)) ->
  wp X (ask X op) s Q.
Proof. intros E H. unfold wp, ask. rewrite E. exact H. Qed.

(** The steps that ask nothing. *)
Lemma wp_ret {A} (a : A) s Q : Q (Normal a, s) -> wp X (ret X a) s Q.
Proof. exact (fun H => H). Qed.

Lemma wp_raise {A} e s (Q : outcome A * mstate X -> Prop) :
  Q (Raised e, s) -> wp X (raise X e) s Q.
Proof. exact (fun H => H). Qed.

Lemma wp_stuck {A} why s (Q : outcome A * mstate X -> Prop) :
  Q (Stuck why, s) -> wp X (stuck X why) s Q.
Proof. exact (fun H => H). Qed.

Lemma wp_set_var x v s Q :
  Q (Normal tt, MState ((x, v) :: env s) (heap s) (world s) (log s)) ->
  wp X (set_var X x v) s Q.
Proof. exact (fun H => H). Qed.

Lemma wp_load_name x v s Q :
  lookup x (env s) = Some v -> Q (Normal v, s) -> wp X (load_name X x) s Q.
Proof. unfold wp, load_name. intros ->. exact (fun H => H). Qed.

Lemma wp_load_builtin x s Q :
  lookup x (env s) = None ->
  existsb (String.eqb x) builtin_names = true ->
  Q (Normal (VBuiltin x), s) -> wp X (load_name X x) s Q.
Proof. unfold wp, load_name. intros -> ->. exact (fun H => H). Qed.

Lemma wp_load_unbound x s Q :
  lookup x (env s) = None ->
  existsb (String.eqb x) builtin_names = false ->
  Q (Raised (VExc "NameError" x), s) -> wp X (load_name X x) s Q.
Proof. unfold wp, load_name. intros -> ->. exact (fun H => H). Qed.

Lemma wp_alloc o s Q :
  Q (Normal (VRef (length (heap s))),
     MState (env s) (heap s ++ [o]) (world s) (log s)) ->
  wp X (alloc X o) s Q.
Proof. exact (fun H => H). Qed.

Lemma wp_heap_get l o s Q :
  nth_error (heap s) l = Some o -> Q (Normal o, s) -> wp X (heap_get X l) s Q.
Proof. unfold wp, heap_get. intros ->. exact (fun H => H). Qed.

Lemma wp_heap_set l o s Q :
  Q (Normal tt, MState (env s) (list_set (heap s) l o) (world s) (log s)) ->
  wp X (heap_set X l o) s Q.
Proof. exact (fun H => H). Qed.

Lemma wp_join vs str s Q :
  concat_strs vs = Some str -> Q (Normal str, s) -> wp X (join X vs) s Q.
Proof. unfold wp, join. intros ->. exact (fun H => H). Qed.

(** Reading the namespace and the heap. *)
Lemma lookup_here x y v e :
  String.eqb x y = true -> lookup x ((y, v) :: e) = Some v.
Proof. simpl. intros ->. reflexivity. Qed.

Lemma lookup_skip x y v e r :
  String.eqb x y = false -> lookup x e = r -> lookup x ((y, v) :: e) = r.
Proof. simpl. intros ->. exact (fun H => H). Qed.

Lemma frames_refl names e : frames names e e.
Proof. intros x _. reflexivity. Qed.

Lemma frames_cons names x v e' e :
  existsb (String.eqb x) names = true ->
  frames names e' e -> frames names ((x, v) :: e') e.
Proof.
  intros Hx H y Hy. simpl. destruct (String.eqb y x) eqn:E.
  - apply String.eqb_eq in E. subst y. congruence.
  - apply H, Hy.
Qed.

Lemma nth_error_at_length {A} (h : list A) o t :
  nth_error (h ++ o :: t) (length h) = Some o.
Proof. rewrite nth_error_app2, Nat.sub_diag by apply Nat.le_refl. reflexivity. Qed.

Lemma list_set_at_length {A} (h : list A) o o' t :
  list_set (h ++ o :: t) (length h) o' = h ++ o' :: t.
Proof. induction h as [|a h IH]; simpl; [reflexivity|]. rewrite IH. reflexivity. Qed.

Lemma nth_error_after_length {A} (h : list A) a o t :
  nth_error (h ++ a :: o :: t) (S (length h)) = Some o.
Proof. induction h as [|b h IH]; simpl; [reflexivity | exact IH]. Qed.

Lemma list_set_after_length {A} (h : list A) a o o' t :
  list_set (h ++ a :: o :: t) (S (length h)) o' = h ++ a :: o' :: t.
Proof. induction h as [|b h IH]; simpl; [reflexivity|]. rewrite IH. reflexivity. Qed.

(** A [for] loop, by an invariant that knows the items already done. *)
Lemma wp_for_each (step : value -> M X unit) items
    (Inv : list value -> mstate X -> Prop) Q :
  forall s,
  Inv [] s ->
  (forall done v rest s',
      items = done ++ v :: rest -> Inv done s' ->
      wp X (step v) s'
        (fun r => match fst r with
                  | Normal _ => Inv (done ++ [v]) (snd r)
                  | Raised e => Q (Raised e, snd r)
                  | Stuck w => Q (Stuck w, snd r)
                  end)) ->
  (forall s', Inv items s' -> Q (Normal tt, s')) ->
  wp X (for_each X step items) s Q.
Proof.
  intros s H0 Hstep Hend.
  assert (G : forall rest done s',
             items = done ++ rest -> Inv done s' ->
             wp X (for_each X step rest) s' Q).
  { induction rest as [|v rest IH]; intros done s' E Hinv.
    - rewrite app_nil_r in E. subst done. apply Hend, Hinv.
    - simpl. apply wp_bind. unfold after.
      specialize (Hstep done v rest s' E Hinv). unfold wp in *.
      destruct (step v s') as [[[]|e|w'] s'']; simpl in *; auto.
      apply (IH (done ++ [v])); [|exact Hstep].
      rewrite <- app_assoc. exact E. }
  apply (G items []); auto.
Qed.

End Wp.

Ltac wp_cont :=
  cbv beta iota delta [fst snd env heap world log recv_of].

(** [lookup x e = ?r], for [e] a chain of bindings (each link possibly
    a local definition) in front of a namespace the context knows about. *)
Ltac lookup_step :=
  lazymatch goal with
  | |- lookup ?x ((?y, ?v) :: ?e) = _ =>
      let b := eval vm_compute in (String.eqb x y) in
      lazymatch b with
      | true => exact (lookup_here x y v e (eq_refl true))
      | false => refine (lookup_skip x y v e _ (eq_refl false) _)
      end
  | |- lookup ?x ?e = _ =>
      first
        [ unfold e
        | lazymatch goal with
          | H : frames _ e _ |- _ =>
              refine (eq_trans (H x _) _); [vm_compute; reflexivity|]
          end ]
  end.

Ltac lookup_solve :=
  cbv beta iota delta [env];
  repeat lookup_step;
  first [ reflexivity | eassumption ].

(** Name the namespace and the log of the state in the goal, so that the
    goal stays small. *)
Ltac name_env :=
  lazymatch goal with
  | |- ?Q (?o, @MState ?X (?b :: ?e) ?h ?w ?lg) =>
      let e' := fresh "env" in
      pose (e' := b :: e); change (Q (o, @MState X e' h w lg))
  end.

Ltac name_log :=
  lazymatch goal with
  | |- ?Q (?o, @MState ?X ?e ?h ?w (?ev :: ?lg)) =>
      let lg' := fresh "log" in
      pose (lg' := ev :: lg); change (Q (o, @MState X e h w lg'))
  end.

Ltac wp_load :=
  first
    [ eapply wp_load_name; [lookup_solve|]
    | eapply wp_load_builtin; [lookup_solve | vm_compute; reflexivity |]
    | eapply wp_load_unbound; [lookup_solve | vm_compute; reflexivity |] ].

(** Unfold the step at the head, as far as its values decide it. *)
Ltac wp_unfold X m s Q :=
  let m' := eval cbv -[bind ask ret raise stuck load_name set_var
                       alloc heap_get heap_set seq_get join
                       for_each while_loop lstep lstate Worlds.demo
                       length map app rev enumerate_from seq Nat.mul] in m in
  lazymatch m' with
  | m => fail "no progress"
  | _ => change (wp X m' s Q)
  end.

(** Turn program text at the head into the steps it stands for. *)
Ltac wp_compile X m s Q :=
  let m' := eval cbv -[bind ask ret raise stuck load_name set_var
                       alloc heap_get heap_set seq_get join
                       for_each while_loop lstep lstate Worlds.demo
                       map seq Nat.mul
                       get_attr get_item set_item iterate truth
                       ask_format format_value bin_op call] in m in
  lazymatch m' with
  | m => fail "no progress"
  | _ => change (wp X m' s Q)
  end.

(** Asking an oracle that may answer anything, and one that is known. *)
Ltac ask_any := idtac; simple apply wp_ask; intros ? ?.
Ltac ask_told :=
  idtac; eapply wp_ask_told;
  [cbv -[map seq Nat.mul]; reflexivity|].

(** One step of a run.  [asking] deals with an operation of the oracle;
    [heap_read] proves what the heap holds at a location; [track] is run
    when the oracle has answered (to note what is now known of the log);
    [leaf] closes the goals where the run has ended. *)
Ltac wp_step_by asking heap_read track leaf :=
  lazymatch goal with
  | |- wp ?X (bind _ ?m ?k) ?s ?Q =>
      let kk := fresh "k" in
      pose (kk := k); refine (wp_bind X m kk s Q _)
  | |- wp _ (ask _ _) _ _ =>
      asking; wp_cont;
      lazymatch goal with
      | |- _ (Normal _, _) => name_log; track
      | |- _ => idtac
      end
  | |- wp _ (for_each _ _ _) _ _ => fail "a loop"
  | |- wp _ (while_loop _ _ _ _) _ _ => fail "a loop"
  | |- wp ?X ?m ?s ?Q =>
      lazymatch m with
      | ret _ _ => simple apply wp_ret
      | raise _ _ => simple apply wp_raise
      | stuck _ _ => simple apply wp_stuck
      | load_name _ _ => wp_load
      | set_var _ _ _ => simple apply wp_set_var; wp_cont; name_env
      | alloc _ _ => simple apply wp_alloc; wp_cont
      | heap_get _ _ => eapply wp_heap_get; [heap_read|]
      | heap_set _ _ _ =>
          simple apply wp_heap_set; wp_cont;
          rewrite ?list_set_at_length, ?list_set_after_length
      | join _ _ =>
          eapply wp_join;
          [cbv beta iota delta [concat_strs option_map]; reflexivity|]
      | get_attr _ _ _ => wp_unfold X m s Q
      | get_item _ _ _ => wp_unfold X m s Q
      | set_item _ _ _ _ => wp_unfold X m s Q
      | iterate _ _ => wp_unfold X m s Q
      | truth _ _ => wp_unfold X m s Q
      | ask_format _ _ _ => wp_unfold X m s Q
      | format_value _ _ _ => wp_unfold X m s Q
      | bin_op _ _ _ _ => wp_unfold X m s Q
      | call _ _ _ _ _ => wp_unfold X m s Q
      | _ =>
          first
            [ lazymatch m with
              | match ?x with _ => _ end => is_var x; destruct x
              end
            | wp_compile X m s Q ]
      end
  | |- after _ ?kk _ (Normal _, _) =>
      simple apply after_normal; unfold kk; clear kk; cbv beta
  | |- after _ ?kk _ (Raised _, _) => simple apply after_raised; clear kk
  | |- after _ ?kk _ (Stuck _, _) => simple apply after_stuck; clear kk
  | |- _ => leaf
  end.

Ltac wp_run heap_read track leaf :=
  repeat wp_step_by ask_any heap_read track leaf.
Ltac wp_run_told heap_read track leaf :=
  repeat wp_step_by ask_told heap_read track leaf.

(** Reading a heap that is written out, or the cells allocated last. *)
Ltac heap_concrete := idtac; cbv beta iota delta [heap]; reflexivity.
Ltac heap_recent :=
  idtac; cbv beta iota delta [heap];
  first [ apply nth_error_at_length | apply nth_error_after_length ].

Import Notebooks Worlds.

(* ===================================================================== *)
(** ** The notebooks catch nothing *)
(* ===================================================================== *)

(** In the trace of code without [try], an operation that failed is the last
    one, and its exception is the outcome of the run. *)
Lemma failure_is_final (X : external) fuel w p before op e after :
  forallb no_try p = true ->
  trace (snd (run X fuel w p)) = before ++ (op, Raise e) :: after ->
  after = [] /\ fst (run X fuel w p) = Raised (VExt e).
Proof.
  intros Hnt Htrace. unfold run, trace in *.
  destruct (tidy_exec_block X fuel p Hnt (initial X w)) as (new & E & O & _).
  simpl in E. rewrite app_nil_r in E. rewrite E in Htrace.
  apply (f_equal (@rev event)) in Htrace.
  rewrite rev_involutive, rev_app_distr in Htrace. simpl in Htrace.
  rewrite <- app_assoc in Htrace. simpl in Htrace. subst new.
  destruct (rev after) as [|[op' r'] older] eqn:Hafter.
  - apply (f_equal (@rev event)) in Hafter. rewrite rev_involutive in Hafter.
    simpl in *. destruct O as [_ Hout]. split; [exact Hafter | exact Hout].
  - simpl in O. destruct O as [Hold _]. exfalso.
    apply Forall_app in Hold. destruct Hold as [_ Hbad].
    inversion Hbad as [|? ? Hans _]; subst. exact Hans.
Qed.

(** C2: no notebook catches or classifies an exception.  None of them
    contains a [try]; and whatever the packages do, an operation that raises
    is the last event of the run and the run ends with that very
    exception. *)
Theorem C2_exceptions_propagate :
  forall (X : external) (fuel : nat) (w : lstate X) (nb : notebook),
    In nb notebooks ->
    forallb no_try (nb_code nb) = true /\
    forall before op e after,
      trace (snd (run X fuel w (nb_code nb)))
        = before ++ (op, Raise e) :: after ->
      after = [] /\ fst (run X fuel w (nb_code nb)) = Raised (VExt e).
Proof.
  intros X fuel w nb Hin.
  assert (Hnt : forallb no_try (nb_code nb) = true).
  { destruct Hin as [<-|[<-|[<-|[]]]]; reflexivity. }
  split; [exact Hnt|].
  intros before op e after. apply failure_is_final. exact Hnt.
Qed.

(** The loader of the CAMELS data failing in the galaxy-lines notebook: the
    run ends there, with the loader's exception. *)
Lemma C2_exceptions_propagate_witness :
  In galaxy_lines notebooks /\
  fst (run (failing 2 30) 0 0 (nb_code galaxy_lines))
    = Raised (VExt library_failure).
Proof.
  split; [simpl; auto|].
  refine (proj2 (proj2 (C2_exceptions_propagate (failing 2 30) 0 0
                          galaxy_lines _)
                   (firstn 30 (trace (snd (run (failing 2 30) 0 0
                                             (nb_code galaxy_lines)))))
                   (OpCall
                      (VLib "synthesizer.load_data.load_camels.load_CAMELS_IllustrisTNG")
                      None [VStr "../../../tests/data/"]
                      [("snap_name", VStr "camels_snap.hdf5");
                       ("fof_name", VStr "camels_subhalo.hdf5");
                       ("physical", VBool true)])
                   library_failure [] _)).
  - simpl; auto.
  - vm_compute. reflexivity.
Defined.

(* ===================================================================== *)
(** ** The galaxy-lines notebook, run against any packages *)
(* ===================================================================== *)

Ltac find_completed :=
  repeat first
    [ apply Exists_cons_hd; solve [do 2 eexists; reflexivity]
    | apply Exists_cons_tl ].

Lemma forallb_cons_true {A} (f : A -> bool) a l :
  f a = true -> forallb f l = true -> forallb f (a :: l) = true.
Proof. simpl. intros -> ->. reflexivity. Qed.

Lemma existsb_cons_false {A} (f : A -> bool) a l :
  f a = false -> existsb f l = false -> existsb f (a :: l) = false.
Proof. simpl. intros -> ->. reflexivity. Qed.

(** One more event in a [guarded] log. *)
Ltac guarded_cons G :=
  split;
  [ cbv beta iota delta [String.eqb Ascii.eqb Bool.eqb last];
    first [ exact I | find_completed ]
  | exact G ].

Ltac galaxy_lines_cons H :=
  destruct H as (?G1 & ?G2 & ?L & ?P);
  split; [guarded_cons G1|];
  split; [guarded_cons G2|];
  split;
  [ apply forallb_cons_true; [vm_compute; reflexivity | exact L]
  | apply existsb_cons_false; [vm_compute; reflexivity | exact P] ].

Ltac galaxy_lines_track :=
  idtac;
  lazymatch goal with
  | H : galaxy_lines_log ?lg |- _ (_, MState _ _ _ ?lg') =>
      let H' := fresh "H" in
      assert (H' : galaxy_lines_log lg')
        by (unfold lg'; galaxy_lines_cons H);
      clear H
  end.

Ltac galaxy_lines_leaf :=
  idtac; wp_cont;
  lazymatch goal with
  | H : galaxy_lines_log _ |- galaxy_lines_log (_ :: _) =>
      galaxy_lines_cons H
  | H : galaxy_lines_log _ |- galaxy_lines_log _ => exact H
  end.

Lemma galaxy_lines_run (X : external) fuel w :
  galaxy_lines_log (log (snd (run X fuel w (nb_code galaxy_lines)))).
Proof.
  pose (log0 := @nil event).
  assert (H : galaxy_lines_log log0) by (repeat split; reflexivity).
  change (wp X (exec_block X fuel (nb_code galaxy_lines))
            (MState [] [] w log0)
            (fun r => galaxy_lines_log (log (snd r)))).
  wp_run heap_concrete galaxy_lines_track galaxy_lines_leaf.
Qed.

Lemma guarded_suffix m1 m2 l1 l2 : guarded m1 m2 (l1 ++ l2) -> guarded m1 m2 l2.
Proof.
  induction l1 as [|ev l1 IH]; simpl; [auto|]. intros [_ H]. auto.
Qed.

Lemma guarded_before m1 m2 lg before ev after o model :
  guarded m1 m2 lg ->
  rev lg = before ++ ev :: after ->
  requests m2 o model ev ->
  exists ev', In ev' before /\ completed m1 o model ev'.
Proof.
  intros G E (f & args & kwargs & r & -> & Hlast).
  apply (f_equal (@rev event)) in E.
  rewrite rev_involutive, rev_app_distr in E. simpl in E.
  rewrite <- app_assoc in E. simpl in E. subst lg.
  apply guarded_suffix in G. simpl in G. destruct G as [G _].
  rewrite String.eqb_refl, Hlast in G.
  apply Exists_exists in G. destruct G as (ev' & Hin & Hc).
  exists ev'. split; [|exact Hc]. apply in_rev. exact Hin.
Qed.

(** C10: in every run of the galaxy-lines notebook, whatever the packages
    do, a call of [get_lines(..., model)] on an object comes after a
    completed call of [get_spectra(model)] on that same object with that same
    model, and a call of [get_particle_lines(..., model)] after a completed
    call of [get_particle_spectra(model)]. *)
Theorem C10_spectra_before_lines :
  forall (X : external) (fuel : nat) (w : lstate X) before ev after o model,
    trace (snd (run X fuel w (nb_code galaxy_lines))) = before ++ ev :: after ->
    (requests "get_lines" o model ev ->
     exists ev', In ev' before /\ completed "get_spectra" o model ev') /\
    (requests "get_particle_lines" o model ev ->
     exists ev', In ev' before /\ completed "get_particle_spectra" o model ev').
Proof.
  intros X fuel w before ev after o model E.
  destruct (galaxy_lines_run X fuel w) as (G1 & G2 & _).
  split; intros R.
  - exact (guarded_before _ _ _ _ _ _ _ _ G1 E R).
  - exact (guarded_before _ _ _ _ _ _ _ _ G2 E R).
Qed.

(** In a run against the sample packages: the [get_lines] call is the
    25th event, and the completed [get_spectra] call is among the 24 before. *)
Lemma C10_spectra_before_lines_witness :
  exists ev',
    In ev' (firstn 24 (trace (snd (run (demo 2) 0 0 (nb_code galaxy_lines)))))
    /\ completed "get_spectra" (VExt (XObj 13)) (VExt (XObj 20)) ev'.
Proof.
  refine (proj1 (C10_spectra_before_lines (demo 2) 0 0
                   (firstn 24 (trace (snd (run (demo 2) 0 0
                                             (nb_code galaxy_lines)))))
                   (nth 24 (trace (snd (run (demo 2) 0 0
                                          (nb_code galaxy_lines))))
                        (OpImport "", Ok XNone))
                   (skipn 25 (trace (snd (run (demo 2) 0 0
                                            (nb_code galaxy_lines)))))
                   (VExt (XObj 13)) (VExt (XObj 20)) _) _).
  - vm_compute. reflexivity.
  - vm_compute. do 4 eexists. split; reflexivity.
Defined.

(* ===================================================================== *)
(** ** The loops over the metallicity axis *)
(* ===================================================================== *)

Lemma block_app X (f : stmt -> M X unit) p q s :
  block X f (p ++ q) s = bind X (block X f p) (fun _ => block X f q) s.
Proof.
  revert s. induction p as [|a p IH]; intros s; simpl.
  - reflexivity.
  - unfold bind in *. destruct (f a s) as [[[]|e|w] s']; simpl; auto.
Qed.

(** A block that ends in a loop is the iteration of [loop_step] from where
    [loop_start] leaves off. *)
Lemma loop_unfold X fuel init t iter body s items s1 :
  loop_start X fuel init iter s = (Normal items, s1) ->
  exec_block X fuel (init ++ [SFor t iter body]) s
    = for_each X (loop_step X fuel t body) items s1.
Proof.
  unfold loop_start, exec_block. intros H. rewrite block_app.
  unfold bind in *.
  destruct (block X (exec X fuel) init s) as [[[]|e|w] s0]; try discriminate.
  simpl. unfold bind.
  destruct (eval X iter s0) as [[v|e|w] s0']; try discriminate.
  rewrite H. destruct (for_each X _ items s1) as [[[]|e|w] s2]; reflexivity.
Qed.

Lemma r23_trace_snoc g i its it :
  r23_trace g i (its ++ [it])
    = r23_trace g i its ++ r23_events g (i + length its) it.
Proof.
  revert i. induction its as [|a its IH]; intros i; simpl.
  - rewrite Nat.add_0_r. reflexivity.
  - rewrite IH. rewrite <- Nat.add_succ_comm. reflexivity.
Qed.

Lemma enumerate_from_split k l done v rest :
  enumerate_from k l = done ++ v :: rest ->
  exists u, v = VTuple [VInt (Z.of_nat (k + length done)); u].
Proof.
  revert k done. induction l as [|a l IH]; intros k done E; simpl in E.
  - destruct done; discriminate.
  - destruct done as [|d done]; simpl in E.
    + injection E as <- _. exists a. rewrite Nat.add_0_r. reflexivity.
    + injection E as _ E. apply IH in E. destruct E as [u ->].
      exists u. simpl. rewrite <- Nat.add_succ_comm. reflexivity.
Qed.

Lemma enumerate_from_length k l : length (enumerate_from k l) = length l.
Proof. revert k. induction l; intros; simpl; auto. Qed.

Lemma enumerate_from_firstn k j l :
  firstn j (enumerate_from k l) = enumerate_from k (firstn j l).
Proof.
  revert k j. induction l as [|a l IH]; intros k [|j]; simpl; auto.
  rewrite IH. reflexivity.
Qed.

Ltac no_track := idtac.

Ltac r23_leaf :=
  idtac; wp_cont;
  lazymatch goal with
  | |- after _ _ _ _ => idtac
  | |- _ = Normal _ -> _ => intros Hn; discriminate Hn
  | |- r23_inv _ _ _ _ _ _ => idtac
  end.

(** The R23 loop, from any state in which [grid] is an object of the
    packages and [enumerate] is the builtin. *)
Lemma r23_loop_run (X : external) fuel (s : mstate X) g :
  lookup "grid" (env s) = Some (VExt g) ->
  lookup "enumerate" (env s) = None ->
  fst (exec_block X fuel r23_loop s) = Normal tt ->
  exists xm ms its,
    length its = length ms /\
    log (snd (exec_block X fuel r23_loop s))
      = rev (metallicity_header (VExt g) xm ms ++ r23_trace (VExt g) 0 its)
          ++ log s /\
    lookup "ratios" (env (snd (exec_block X fuel r23_loop s)))
      = Some (VRef (length (heap s))) /\
    nth_error (heap (snd (exec_block X fuel r23_loop s))) (length (heap s))
      = Some (HList (map (fun it => VExt (ri_ratio it)) its)).
Proof.
  destruct s as [e h w lg]. cbv beta iota delta [env heap log].
  intros Hgrid Henum.
  match goal with
  | |- context [exec_block ?X ?f ?p ?s] => pattern (exec_block X f p s)
  end.
  match goal with
  | |- ?P ?r =>
      change (wp X (exec_block X fuel r23_loop) (MState e h w lg) P)
  end.
  wp_run heap_recent no_track r23_leaf.
  match goal with
  | |- wp _ (for_each _ _ _) (MState _ _ _ ?lg1) _ =>
      apply (wp_for_each X _ _ (r23_inv X g h lg1))
  end.
  - exists [], env2, w'0. repeat split; lookup_solve.
  - intros done v rest s' E (its & e' & w'' & Hlen & -> & Hg & Hr & Hia & Hid).
    apply enumerate_from_split in E. destruct E as [u ->].
    remember (Z.of_nat (0 + length done)) as i eqn:Hi.
    cbv beta.
    wp_run heap_recent no_track r23_leaf.
    exists (its ++ [R23Iter x0 x1 x2 x3]), env6, w'4.
    rewrite !length_app, map_app, r23_trace_snoc, rev_app_distr, Hlen.
    repeat split; try lookup_solve.
    unfold log5, log4, log3, log2. rewrite Hi. reflexivity.
  - intros s' (its & e' & w'' & Hlen & -> & Hg & Hr & Hia & Hid).
    wp_run heap_recent no_track r23_leaf.
    intros _. exists x, xs, its.
    rewrite enumerate_from_length, length_map in Hlen.
    repeat split; auto.
    + rewrite rev_app_distr, <- app_assoc. reflexivity.
    + apply nth_error_at_length.
Qed.

(** The same, read as a trace and as the list [ratios] stands for. *)
Lemma r23_loop_ratios (X : external) fuel (s : mstate X) g :
  lookup "grid" (env s) = Some (VExt g) ->
  lookup "enumerate" (env s) = None ->
  fst (exec_block X fuel r23_loop s) = Normal tt ->
  exists xm ms its,
    length its = length ms /\
    trace (snd (exec_block X fuel r23_loop s))
      = trace s ++ metallicity_header (VExt g) xm ms
          ++ r23_trace (VExt g) 0 its /\
    list_at (snd (exec_block X fuel r23_loop s)) "ratios"
      = Some (map (fun it => VExt (ri_ratio it)) its).
Proof.
  intros Hgrid Henum Hdone.
  destruct (r23_loop_run X fuel s g Hgrid Henum Hdone)
    as (xm & ms & its & Hlen & Hlog & Hl & Hh).
  exists xm, ms, its. split; [exact Hlen|]. split.
  - unfold trace. rewrite Hlog, rev_app_distr, rev_involutive. reflexivity.
  - unfold list_at. rewrite Hl, Hh. reflexivity.
Qed.

Ltac bpt_leaf :=
  idtac; wp_cont;
  lazymatch goal with
  | |- after _ _ _ _ => idtac
  | |- bpt_inv _ _ _ _ _ =>
      do 5 eexists;
      split; [|split; [|split; [reflexivity|]]];
      [ rewrite ?length_app; simpl; lia ..
      | repeat (split; [lookup_solve|]); lookup_solve ]
  end.

(** The reply that is unpacked into two names: by its length. *)
Ltac unpack_reply :=
  lazymatch goal with
  | |- wp _ (if _ then _ else _) _ _ =>
      match goal with
      | |- context [map VExt ?l] =>
          is_var l; destruct l as [|? [|? [|? l]]];
          cbv beta iota delta [map]
      end
  end.

Lemma bpt_inv_aligned X g h n s : bpt_inv X g h n s -> aligned n s.
Proof.
  intros (xs & ys & e & w & lg & Hx & Hy & -> & _ & Lx & Ly & _).
  exists xs, ys. unfold list_at. cbv beta iota delta [env heap].
  rewrite Lx, Ly, nth_error_at_length, nth_error_after_length. auto.
Qed.

(** An iteration that completes appends one element to each list; one that
    does not appends to neither. *)
Lemma bpt_step_inv X fuel g h n u i s :
  bpt_inv X g h n s ->
  match fst (bpt_step X fuel (VTuple [VInt i; u]) s) with
  | Normal _ => bpt_inv X g h (S n)
  | _ => bpt_inv X g h n
  end (snd (bpt_step X fuel (VTuple [VInt i; u]) s)).
Proof.
  intros (xs & ys & e & w & lg & Hx & Hy & -> & Hg & Lx & Ly & Hia & Hid).
  match goal with
  | |- context [bpt_step ?X ?f ?v ?s] => pattern (bpt_step X f v s)
  end.
  match goal with
  | |- ?P ?r =>
      change (wp X (bpt_step X fuel (VTuple [VInt i; u]))
                (MState e (h ++ [HList xs; HList ys]) w lg) P)
  end.
  wp_run heap_recent no_track bpt_leaf.
  unpack_reply; wp_run heap_recent no_track bpt_leaf.
Qed.

Lemma bpt_iterations X fuel g h ms :
  forall k n s,
    bpt_inv X g h n s ->
    exists m,
      m <= length ms /\
      bpt_inv X g h (n + m)
        (snd (for_each X (bpt_step X fuel) (enumerate_from k ms) s)) /\
      (fst (for_each X (bpt_step X fuel) (enumerate_from k ms) s) = Normal tt ->
       m = length ms).
Proof.
  induction ms as [|u ms IH]; intros k n s Hinv; simpl.
  - exists 0. rewrite Nat.add_0_r. auto.
  - pose proof (bpt_step_inv X fuel g h n u (Z.of_nat k) s Hinv) as Hs.
    unfold bind.
    destruct (bpt_step X fuel (VTuple [VInt (Z.of_nat k); u]) s)
      as [[[]|e|w] s']; simpl in Hs |- *.
    + destruct (IH (S k) (S n) s' Hs) as (m & Hm & Hi & Hn).
      exists (S m). rewrite <- Nat.add_succ_comm.
      repeat split; auto with arith.
    + exists 0. rewrite Nat.add_0_r.
      repeat split; auto with arith. discriminate.
    + exists 0. rewrite Nat.add_0_r.
      repeat split; auto with arith. discriminate.
Qed.

Ltac start_leaf :=
  idtac; wp_cont;
  lazymatch goal with
  | |- after _ _ _ _ => idtac
  | |- (Raised _, _) = _ -> _ => intros Hn; discriminate Hn
  | |- (Stuck _, _) = _ -> _ => intros Hn; discriminate Hn
  end.

(** Where the BPT loop starts: [x] and [y] are two fresh empty lists, and
    the items are the elements of [grid.metallicity], numbered. *)
Lemma bpt_start (X : external) fuel (s : mstate X) g items s1 :
  lookup "grid" (env s) = Some (VExt g) ->
  lookup "enumerate" (env s) = None ->
  loop_start X fuel bpt_init metallicity_items s = (Normal items, s1) ->
  exists xm ms,
    items = enumerate_from 0 (map VExt ms) /\
    bpt_inv X g (heap s) 0 s1 /\
    log s1 = (OpIter (VExt xm), Ok (XTuple ms))
             :: (OpGetAttr (VExt g) "metallicity", Ok xm) :: log s.
Proof.
  destruct s as [e h w lg]. cbv beta iota delta [env heap log].
  intros Hgrid Henum.
  match goal with
  | |- _ = ?v -> ?G =>
      change (wp X (loop_start X fuel bpt_init metallicity_items)
                (MState e h w lg) (fun r0 => r0 = v -> G))
  end.
  wp_run heap_recent no_track start_leaf.
  intros E. injection E as <- <-. exists x, xs.
  split; [reflexivity|]. split; [|reflexivity].
  exists [], [], env3, w'0, log1.
  split; [reflexivity|]. split; [reflexivity|].
  split; [rewrite <- app_assoc; reflexivity|].
  assert (Ly : length (h ++ [HList []]) = S (length h))
    by (rewrite length_app, Nat.add_1_r; reflexivity).
  unfold env3. rewrite Ly.
  repeat (split; [lookup_solve|]); lookup_solve.
Qed.

(** The BPT loop, from any state in which [grid] is an object of the
    packages and [enumerate] is the builtin.  From where the loop starts
    (with the [items] to go through, in state [s1]), the loop is the
    iteration of [bpt_step] over [items]; after the first [j] iterations (or
    fewer, if one of them failed) [x] and [y] have the same length
    [k <= j], and [k = min j (length items)] if all of them completed. *)
Lemma bpt_loop_run (X : external) fuel (s s1 : mstate X) g items :
  lookup "grid" (env s) = Some (VExt g) ->
  lookup "enumerate" (env s) = None ->
  loop_start X fuel bpt_init metallicity_items s = (Normal items, s1) ->
  exec_block X fuel bpt_loop s = for_each X (bpt_step X fuel) items s1 /\
  (forall j,
      (exists k,
          k <= j /\
          aligned k
            (snd (for_each X (bpt_step X fuel) (firstn j items) s1))) /\
      (fst (for_each X (bpt_step X fuel) (firstn j items) s1) = Normal tt ->
       aligned (min j (length items))
         (snd (for_each X (bpt_step X fuel) (firstn j items) s1)))) /\
  exists xm ms,
    length ms = length items /\
    log s1 = (OpIter (VExt xm), Ok (XTuple ms))
             :: (OpGetAttr (VExt g) "metallicity", Ok xm) :: log s.
Proof.
  intros Hgrid Henum Hstart.
  destruct (bpt_start X fuel s g items s1 Hgrid Henum Hstart)
    as (xm & ms & -> & Hinv & Hlog).
  split; [|split].
  - apply (loop_unfold X fuel bpt_init metallicity_target metallicity_items
             bpt_body s _ s1 Hstart).
  - intros j. rewrite enumerate_from_firstn.
    destruct (bpt_iterations X fuel g (heap s) (firstn j (map VExt ms))
                0 0 s1 Hinv) as (m & Hm & Hi & Hn).
    simpl in Hi. apply bpt_inv_aligned in Hi.
    rewrite length_firstn in Hm, Hn. rewrite enumerate_from_length.
    split.
    + exists m. split; [lia | exact Hi].
    + intros Hr. rewrite <- (Hn Hr). exact Hi.
  - exists xm, ms. rewrite enumerate_from_length, length_map. auto.
Qed.

(* ===================================================================== *)
(** ** The other two notebooks, run against any packages *)
(* ===================================================================== *)

(** Keeping track of a property that every event of the log has. *)
Ltac all_track f :=
  idtac;
  lazymatch goal with
  | H : forallb f ?lg = true |- _ (_, MState _ _ _ ?lg') =>
      let H' := fresh "H" in
      assert (H' : forallb f lg' = true)
        by (unfold lg'; apply forallb_cons_true;
            [vm_compute; reflexivity | exact H]);
      clear H
  end.

Ltac frames_solve :=
  repeat first
    [ eassumption
    | apply frames_refl
    | apply frames_cons; [vm_compute; reflexivity|]
    | lazymatch goal with |- frames _ ?e _ => unfold e end ].

Ltac all_leaf f :=
  idtac; wp_cont;
  lazymatch goal with
  | |- after _ _ _ _ => idtac
  | H : forallb f _ = true |- forallb f (_ :: _) = true =>
      apply forallb_cons_true; [vm_compute; reflexivity | exact H]
  | H : forallb f _ = true |- forallb f _ = true => exact H
  end.

Ltac forget_log :=
  match goal with H : forallb _ _ = true |- _ => clear H end.

Lemma map_split {A B} (f : A -> B) l done v rest :
  map f l = done ++ v :: rest -> exists a, v = f a.
Proof.
  revert done. induction l as [|a l IH]; intros [|d done] E; simpl in E;
    try discriminate.
  - injection E as <- _. eauto.
  - injection E as _ E. eauto.
Qed.

Lemma forallb_weaken {A} (f g : A -> bool) l :
  (forall a, f a = true -> g a = true) ->
  forallb f l = true -> forallb g l = true.
Proof.
  intros Hfg. rewrite !forallb_forall. intros H a Ha. apply Hfg, H, Ha.
Qed.

(** Whatever the packages do, the particle-vs-parametric notebook loads
    through the loaders, never plots and never asks for lines. *)
Lemma particle_parametric_run (X : external) fuel w :
  forallb prints_only
    (log (snd (run X fuel w (nb_code particle_parametric)))) = true.
Proof.
  pose (log0 := @nil event).
  assert (H : forallb prints_only log0 = true) by reflexivity.
  change (wp X (exec_block X fuel (nb_code particle_parametric))
            (MState [] [] w log0)
            (fun r => forallb prints_only (log (snd r)) = true)).
  wp_run heap_concrete ltac:(all_track prints_only)
         ltac:(all_leaf prints_only).
Qed.

(** The leaves of a run of the grid-lines notebook: every event loads
    through the loaders, and a run that completes has shown its figure. *)
Ltac grid_leaf :=
  idtac; wp_cont;
  lazymatch goal with
  | |- after _ _ _ _ => idtac
  | H : forallb load_ok _ = true |- _ /\ (_ -> shown _) =>
      split;
      [ first
          [ exact H
          | apply forallb_cons_true; [vm_compute; reflexivity | exact H] ]
      | first
          [ intros Hn; discriminate Hn
          | intros _;
            lazymatch goal with |- shown ?lg => unfold lg end;
            do 2 eexists; reflexivity ] ]
  | H : forallb load_ok _ = true |- loop_inv _ load_ok _ _ _ _ =>
      do 4 eexists;
      split; [reflexivity|];
      split;
      [ first [ reflexivity
              | eexists; reflexivity
              | do 2 eexists; reflexivity ]
      | split; [frames_solve | exact H] ]
  end.

Ltac grid_run := wp_run heap_concrete ltac:(all_track load_ok) grid_leaf.

(** The grid-lines notebook, through its three loops. *)
Lemma grid_lines_run (X : external) fuel w :
  forallb load_ok (log (snd (run X fuel w (nb_code grid_lines)))) = true /\
  (fst (run X fuel w (nb_code grid_lines)) = Normal tt ->
   shown (log (snd (run X fuel w (nb_code grid_lines))))).
Proof.
  pose (log0 := @nil event).
  assert (H : forallb load_ok log0 = true) by reflexivity.
  change (wp X (exec_block X fuel (nb_code grid_lines))
            (MState [] [] w log0)
            (fun r => forallb load_ok (log (snd r)) = true /\
                      (fst r = Normal tt -> shown (log (snd r))))).
  grid_run.
  lazymatch goal with
  | |- wp ?X (for_each _ _ _) (MState ?e ?h _ _) _ =>
      apply (wp_for_each X _ _
               (fun _ => loop_inv X load_ok ["ratio_id"; "ratio"] e (eq h)))
  end.
  - grid_leaf.
  - forget_log.
    intros done v rest s1 E (e1 & h1 & w1 & lg1 & -> & <- & HF & HL).
    apply map_split in E. destruct E as [a ->]. cbv beta.
    grid_run.
  - forget_log.
    intros s1 (e1 & h1 & w1 & lg1 & -> & <- & HF & HL).
    grid_run.
    lazymatch goal with
    | |- wp ?X (for_each _ _ _) (MState ?e (?h ++ [HList []]) _ _) _ =>
        apply (wp_for_each X _ _
                 (fun _ =>
                    loop_inv X load_ok ["iZ"; "Z"; "grid_point"; "lines"] e
                      (fun h' => exists vs, h' = h ++ [HList vs])))
    end.
    + grid_leaf.
    + forget_log.
      intros done v rest s2 E (e2 & h2 & w2 & lg2 & -> & [vs ->] & HF2 & HL2).
      apply enumerate_from_split in E. destruct E as [u ->].
      remember (Z.of_nat (0 + length done)) as i eqn:Hi.
      cbv beta.
      grid_run.
    + forget_log.
      intros s2 (e2 & h2 & w2 & lg2 & -> & [vs ->] & HF2 & HL2).
      grid_run.
      lazymatch goal with
      | |- wp ?X (for_each _ _ _)
             (MState ?e ((?h ++ [HList []]) ++ [HList []]) _ _) _ =>
          apply (wp_for_each X _ _
                   (fun _ =>
                      loop_inv X load_ok
                        ["iZ"; "Z"; "grid_point"; "lines"; "x_"; "y_"] e
                        (fun h' =>
                           exists xs ys,
                             h' = (h ++ [HList xs]) ++ [HList ys])))
      end.
      * grid_leaf.
      * forget_log.
        intros done v rest s3 E
          (e3 & h3 & w3 & lg3 & -> & (xs3 & ys3 & ->) & HF3 & HL3).
        apply enumerate_from_split in E. destruct E as [u ->].
        remember (Z.of_nat (0 + length done)) as i eqn:Hi.
        cbv beta.
        grid_run.
        unpack_reply; grid_run.
      * forget_log.
        intros s3 (e3 & h3 & w3 & lg3 & -> & (xs3 & ys3 & ->) & HF3 & HL3).
        grid_run.
        unpack_reply; grid_run.
Qed.

(* ===================================================================== *)
(** ** A run as long as the packages like *)
(* ===================================================================== *)

Lemma items_length k n : length (map VExt (map XObj (seq k n))) = n.
Proof. rewrite 2 length_map. apply length_seq. Qed.

Lemma exec_block_app X fuel p q s :
  exec_block X fuel (p ++ q) s
    = match exec_block X fuel p s with
      | (Normal _, s') => exec_block X fuel q s'
      | (Raised e, s') => (Raised e, s')
      | (Stuck why, s') => (Stuck why, s')
      end.
Proof. unfold exec_block. rewrite block_app. reflexivity. Qed.

(** Code without [try] never shortens the log. *)
Lemma log_grows X fuel p s :
  forallb no_try p = true ->
  length (log s) <= length (log (snd (exec_block X fuel p s))).
Proof.
  intros Hnt. destruct (tidy_exec_block X fuel p Hnt s) as (new & E & _).
  rewrite E, length_app. lia.
Qed.

Lemma grid_lines_code_split :
  nb_code grid_lines = grid_lines_upto_ratios ++ grid_lines_after_ratios.
Proof. reflexivity. Qed.

Ltac busy_leaf :=
  idtac; wp_cont;
  lazymatch goal with
  | |- after _ _ _ _ => idtac
  | |- busy_inv _ _ _ _ _ _ =>
      do 3 eexists;
      split; [reflexivity|];
      split; [frames_solve|]
  end.

(** Against [demo n], the loop over the available ratios goes round [n]
    times, and each round asks the packages for something. *)
Lemma ratios_loop_is_long n :
  fst (exec_block (demo n) 0 grid_lines_upto_ratios (initial (demo n) 0))
    = Normal tt /\
  n <= length (log (snd (exec_block (demo n) 0 grid_lines_upto_ratios
                           (initial (demo n) 0)))).
Proof.
  match goal with
  | |- context [exec_block ?X ?f ?p ?s] => pattern (exec_block X f p s)
  end.
  match goal with
  | |- ?P ?r =>
      change (wp (demo n) (exec_block (demo n) 0 grid_lines_upto_ratios)
                (@MState (demo n) [] [] 0 []) P)
  end.
  wp_run_told heap_concrete no_track busy_leaf.
  lazymatch goal with
  | |- wp ?X (for_each _ _ _) (MState ?e ?h _ _) _ =>
      apply (wp_for_each X _ _ (busy_inv n ["ratio_id"; "ratio"] e h))
  end.
  - busy_leaf. apply Nat.le_0_l.
  - intros done v rest s1 E (e1 & k1 & lg1 & -> & HF & HL).
    apply map_split in E. destruct E as [a ->]. cbv beta.
    wp_run_told heap_concrete no_track busy_leaf.
    rewrite length_app.
    repeat match goal with lg := _ :: _ : list (ext_op * reply) |- _ =>
             subst lg
           end.
    simpl. lia.
  - intros s1 (e1 & k1 & lg1 & -> & HF & HL).
    wp_run_told heap_concrete no_track busy_leaf.
    rewrite items_length in HL. split; [reflexivity | exact HL].
Qed.

Lemma grid_lines_is_long n :
  n <= length (trace (snd (run (demo n) 0 0 (nb_code grid_lines)))).
Proof.
  unfold trace, run.
  rewrite length_rev, grid_lines_code_split, exec_block_app.
  destruct (ratios_loop_is_long n) as [Hn Hlen].
  destruct (exec_block (demo n) 0 grid_lines_upto_ratios (initial (demo n) 0))
    as [[[]|e|w] s1]; try discriminate Hn.
  apply (Nat.le_trans _ _ _ Hlen).
  apply log_grows. reflexivity.
Qed.

(* ===================================================================== *)
(** ** Control flow *)
(* ===================================================================== *)

(** C1, as the specification has it, fails: the grid-lines notebook is not
    a straight-line program in disguise.  A straight-line program asks the
    packages for a bounded number of things, the grid-lines notebook for as
    many as the packages make its loops go round. *)
Lemma C1_grid_lines_is_not_straight_line :
  ~ (forall nb, In nb notebooks ->
       exists p, straight_line p = true /\ same_behaviour p (nb_code nb)).
Proof.
  intros H. destruct (H grid_lines) as (p & Hsl & Hsame).
  { simpl. auto. }
  destruct (Hsame (demo (S (cost_block p))) 0 0) as [_ Ht].
  pose proof (grid_lines_is_long (S (cost_block p))) as Hlong.
  rewrite <- Ht in Hlong.
  destruct (sound_straight_line (demo (S (cost_block p))) 0 p Hsl
              (initial (demo (S (cost_block p))) 0)) as (new & E & _ & _ & Hc).
  unfold trace, run in Hlong. rewrite length_rev, E in Hlong.
  simpl in Hlong. rewrite app_nil_r in Hlong. lia.
Qed.

(** C1, amended: the particle-vs-parametric and the galaxy-lines notebooks
    are straight-line code, and no run of either asks the packages for more
    than the code has places to ask from; the grid-lines notebook is not
    straight-line, but it is so except for three [for] loops at the top
    level of its cells, whose bodies are straight-line. *)
Theorem C1_loops_only_in_grid_lines :
  forall (X : external) (fuel : nat) (w : lstate X),
    Forall (fun nb =>
              straight_line (nb_code nb) = true /\
              length (trace (snd (run X fuel w (nb_code nb))))
                <= cost_block (nb_code nb))
           [particle_parametric; galaxy_lines] /\
    straight_line (nb_code grid_lines) = false /\
    flat (nb_code grid_lines) = true /\
    loops (nb_code grid_lines) = 3.
Proof.
  intros X fuel w. split; [|repeat split].
  apply Forall_forall. intros nb Hin.
  assert (Hsl : straight_line (nb_code nb) = true).
  { destruct Hin as [<-|[<-|[]]]; reflexivity. }
  split; [exact Hsl|].
  destruct (sound_straight_line X fuel (nb_code nb) Hsl (initial X w))
    as (new & E & _ & _ & Hc).
  unfold trace, run. rewrite length_rev, E.
  simpl. rewrite app_nil_r. exact Hc.
Qed.

(* ===================================================================== *)
(** ** What every event of every run looks like *)
(* ===================================================================== *)

(** The shapes of the events of a run are among those its code shows. *)
Lemma events_within (X : external) fuel w p :
  forallb no_try p = true ->
  Forall (fun ev => In (shape (fst ev)) (shapes_block p))
         (log (snd (run X fuel w p))).
Proof.
  intros Hnt. unfold run.
  destruct (tidy_exec_block X fuel p Hnt (initial X w)) as (new & E & _ & Hw).
  rewrite E. simpl. rewrite app_nil_r. exact Hw.
Qed.

Lemma events_have (X : external) fuel w p (f : op_shape -> bool) :
  forallb no_try p = true ->
  forallb f (shapes_block p) = true ->
  Forall (fun ev => f (shape (fst ev)) = true) (trace (snd (run X fuel w p))).
Proof.
  intros Hnt Hf. unfold trace. apply Forall_rev.
  eapply Forall_impl; [|apply events_within, Hnt].
  intros ev Hin. rewrite forallb_forall in Hf. apply Hf, Hin.
Qed.

Lemma prints_only_load_ok ev : prints_only ev = true -> load_ok ev = true.
Proof.
  unfold prints_only. intros H.
  apply andb_prop in H. destruct H as [H _].
  apply andb_prop in H. destruct H as [H _]. exact H.
Qed.

(** Whatever the packages do, every event of every notebook passes
    [load_ok]. *)
Lemma notebook_loads (X : external) fuel w nb :
  In nb notebooks ->
  forallb load_ok (log (snd (run X fuel w (nb_code nb)))) = true.
Proof.
  intros [<-|[<-|[<-|[]]]].
  - apply grid_lines_run.
  - eapply forallb_weaken; [|apply particle_parametric_run].
    exact prints_only_load_ok.
  - destruct (galaxy_lines_run X fuel w) as (_ & _ & L & _). exact L.
Qed.

Lemma forallb_trace {X} (f : event -> bool) (s : mstate X) :
  forallb f (log s) = true -> Forall (fun ev => f ev = true) (trace s).
Proof.
  intros H. unfold trace. apply Forall_rev, Forall_forall.
  rewrite forallb_forall in H. exact H.
Qed.

Lemma existsb_none {A} (f : A -> bool) l :
  existsb f l = false -> Forall (fun a => f a = false) l.
Proof.
  induction l as [|a l IH]; simpl; intros H; constructor.
  - apply orb_false_elim in H. apply H.
  - apply IH. apply orb_false_elim in H. apply H.
Qed.

(** C3: every data load of every notebook goes through [Grid] or
    [load_CAMELS_IllustrisTNG], given a fixture under [../../../tests/].
    Whatever the packages do, every call of every run is a loader given a
    fixture, one of the other functions of the packages given no path, a
    method given no path, or [print] or [type] (never [open]); no notebook
    defines a function or a class, or imports anything but [matplotlib],
    [numpy], [synthesizer] and [unyt] (nothing to parse a command line, a
    file or a wire with); and against the sample packages each notebook
    does call a loader. *)
Theorem C3_loads_through_loaders :
  forall (X : external) (fuel : nat) (w : lstate X),
    Forall (fun nb =>
              forallb no_defs (nb_code nb) = true /\
              forallb known_import (shapes_block (nb_code nb)) = true /\
              Forall (fun ev => load_ok ev = true)
                     (trace (snd (run X fuel w (nb_code nb)))) /\
              existsb is_load (trace (snd (run (demo 2) 0 0 (nb_code nb))))
                = true)
           notebooks.
Proof.
  intros X fuel w. apply Forall_forall. intros nb Hin.
  split; [|split; [|split]].
  - destruct Hin as [<-|[<-|[<-|[]]]]; reflexivity.
  - destruct Hin as [<-|[<-|[<-|[]]]]; reflexivity.
  - apply forallb_trace, notebook_loads, Hin.
  - destruct Hin as [<-|[<-|[<-|[]]]]; vm_compute; reflexivity.
Qed.

Lemma plain_callees_allowed q :
  existsb (String.eqb q) plain_callees = true -> from_allowed q = true.
Proof.
  intros H. apply existsb_exists in H. destruct H as (q' & Hin & E).
  apply String.eqb_eq in E. subst q'.
  repeat (destruct Hin as [<-|Hin]; [reflexivity|]). destruct Hin.
Qed.

Lemma load_ok_sequential ev :
  load_ok ev = true -> known_import (shape (fst ev)) = true ->
  sequential ev = true.
Proof.
  destruct ev as [op r]. unfold load_ok, sequential.
  destruct op as [m| | | | |f recv args kwargs| | | |]; simpl; auto.
  destruct f as [ | | | | | | | |b|q| |]; auto.
  destruct (String.eqb q grid_loader) eqn:Eg.
  { apply String.eqb_eq in Eg. subst q. reflexivity. }
  destruct (String.eqb q camels_loader) eqn:Ec.
  { apply String.eqb_eq in Ec. subst q. reflexivity. }
  intros H _. apply andb_prop in H. destruct H as [H _].
  apply plain_callees_allowed, H.
Qed.

(** Keeping track of [synchronous] through a run. *)
Ltac sync_leaf :=
  idtac; wp_cont;
  lazymatch goal with
  | |- after _ _ _ _ => idtac
  | H : forallb synchronous _ = true |- forallb synchronous (_ :: _) = true =>
      apply forallb_cons_true; [vm_compute; reflexivity | exact H]
  | H : forallb synchronous _ = true |- forallb synchronous _ = true => exact H
  | H : forallb synchronous _ = true |- loop_inv _ synchronous _ _ _ _ =>
      do 4 eexists;
      split; [reflexivity|];
      split;
      [ first [ reflexivity
              | eexists; reflexivity
              | do 2 eexists; reflexivity ]
      | split; [frames_solve | exact H] ]
  end.

Ltac sync_run := wp_run heap_concrete ltac:(all_track synchronous) sync_leaf.

(** Whatever the packages do, every event of every notebook passes
    [synchronous]. *)
Lemma straight_notebooks_synchronous (X : external) fuel w :
  forallb synchronous
    (log (snd (run X fuel w (nb_code particle_parametric)))) = true /\
  forallb synchronous (log (snd (run X fuel w (nb_code galaxy_lines)))) = true.
Proof.
  split.
  - pose (log0 := @nil event).
    assert (H : forallb synchronous log0 = true) by reflexivity.
    change (wp X (exec_block X fuel (nb_code particle_parametric))
              (MState [] [] w log0)
              (fun r => forallb synchronous (log (snd r)) = true)).
    sync_run.
  - pose (log0 := @nil event).
    assert (H : forallb synchronous log0 = true) by reflexivity.
    change (wp X (exec_block X fuel (nb_code galaxy_lines))
              (MState [] [] w log0)
              (fun r => forallb synchronous (log (snd r)) = true)).
    sync_run.
Qed.

Lemma grid_lines_synchronous (X : external) fuel w :
  forallb synchronous (log (snd (run X fuel w (nb_code grid_lines)))) = true.
Proof.
  pose (log0 := @nil event).
  assert (H : forallb synchronous log0 = true) by reflexivity.
  change (wp X (exec_block X fuel (nb_code grid_lines))
            (MState [] [] w log0)
            (fun r => forallb synchronous (log (snd r)) = true)).
  sync_run.
  lazymatch goal with
  | |- wp ?X (for_each _ _ _) (MState ?e ?h _ _) _ =>
      apply (wp_for_each X _ _
               (fun _ => loop_inv X synchronous ["ratio_id"; "ratio"] e (eq h)))
  end.
  - sync_leaf.
  - forget_log.
    intros done v rest s1 E (e1 & h1 & w1 & lg1 & -> & <- & HF & HL).
    apply map_split in E. destruct E as [a ->]. cbv beta.
    sync_run.
  - forget_log.
    intros s1 (e1 & h1 & w1 & lg1 & -> & <- & HF & HL).
    sync_run.
    lazymatch goal with
    | |- wp ?X (for_each _ _ _) (MState ?e (?h ++ [HList []]) _ _) _ =>
        apply (wp_for_each X _ _
                 (fun _ =>
                    loop_inv X synchronous ["iZ"; "Z"; "grid_point"; "lines"] e
                      (fun h' => exists vs, h' = h ++ [HList vs])))
    end.
    + sync_leaf.
    + forget_log.
      intros done v rest s2 E (e2 & h2 & w2 & lg2 & -> & [vs ->] & HF2 & HL2).
      apply enumerate_from_split in E. destruct E as [u ->].
      remember (Z.of_nat (0 + length done)) as i eqn:Hi.
      cbv beta.
      sync_run.
    + forget_log.
      intros s2 (e2 & h2 & w2 & lg2 & -> & [vs ->] & HF2 & HL2).
      sync_run.
      lazymatch goal with
      | |- wp ?X (for_each _ _ _)
             (MState ?e ((?h ++ [HList []]) ++ [HList []]) _ _) _ =>
          apply (wp_for_each X _ _
                   (fun _ =>
                      loop_inv X synchronous
                        ["iZ"; "Z"; "grid_point"; "lines"; "x_"; "y_"] e
                        (fun h' =>
                           exists xs ys,
                             h' = (h ++ [HList xs]) ++ [HList ys])))
      end.
      * sync_leaf.
      * forget_log.
        intros done v rest s3 E
          (e3 & h3 & w3 & lg3 & -> & (xs3 & ys3 & ->) & HF3 & HL3).
        apply enumerate_from_split in E. destruct E as [u ->].
        remember (Z.of_nat (0 + length done)) as i eqn:Hi.
        cbv beta.
        sync_run.
        unpack_reply; sync_run.
      * forget_log.
        intros s3 (e3 & h3 & w3 & lg3 & -> & (xs3 & ys3 & ->) & HF3 & HL3).
        sync_run.
        unpack_reply; sync_run.
Qed.

Lemma notebook_synchronous (X : external) fuel w nb :
  In nb notebooks ->
  forallb synchronous (log (snd (run X fuel w (nb_code nb)))) = true.
Proof.
  intros [<-|[<-|[<-|[]]]].
  - apply grid_lines_synchronous.
  - apply straight_notebooks_synchronous.
  - apply straight_notebooks_synchronous.
Qed.

(** C4: no notebook ever starts a thread, a process or a coroutine, and
    what it gets hold of is a loaded data file and plotted figures.  No
    notebook defines a function (so no coroutine) or a class, and the
    imports its code shows are from [matplotlib], [numpy], [synthesizer] and
    [unyt].  Whatever the packages do, every event of every run is
    [sequential], passes [load_ok] and is [synchronous]: an import is from
    one of these four packages; the only builtins called are [print] and
    [type]; a function of the packages called by name is a loader given a
    fixture (the data file), a function of [matplotlib.pyplot] (the
    figure) or one of the other [plain_callees], which build objects and
    numbers and are given no path, and its keywords are among
    [known_keywords], none of which asks for threads, processes or workers;
    a method called on an object of the packages is one of the eight
    [object_methods], given no path and no keyword; and nothing is assigned
    to an attribute or an item of an object. *)
Theorem C4_nothing_concurrent :
  forall (X : external) (fuel : nat) (w : lstate X),
    Forall (fun nb =>
              forallb no_defs (nb_code nb) = true /\
              forallb known_import (shapes_block (nb_code nb)) = true /\
              Forall (fun ev => sequential ev = true /\ load_ok ev = true /\
                                synchronous ev = true)
                     (trace (snd (run X fuel w (nb_code nb)))))
           notebooks.
Proof.
  intros X fuel w. apply Forall_forall. intros nb Hin.
  assert (Hk : Forall (fun ev => known_import (shape (fst ev)) = true)
                 (trace (snd (run X fuel w (nb_code nb))))).
  { apply events_have; destruct Hin as [<-|[<-|[<-|[]]]]; reflexivity. }
  pose proof (forallb_trace load_ok _ (notebook_loads X fuel w nb Hin)) as Hl.
  pose proof (forallb_trace synchronous _
                (notebook_synchronous X fuel w nb Hin)) as Hs.
  split; [|split].
  - destruct Hin as [<-|[<-|[<-|[]]]]; reflexivity.
  - destruct Hin as [<-|[<-|[<-|[]]]]; reflexivity.
  - rewrite Forall_forall in *. intros ev Hev.
    split; [|split].
    + apply load_ok_sequential; [apply Hl | apply Hk]; exact Hev.
    + apply Hl, Hev.
    + apply Hs, Hev.
Qed.



(* ===================================================================== *)
(** ** Plotting *)
(* ===================================================================== *)

(** C6, as the specification has it, fails: the galaxy-lines notebook runs
    to its end against the sample packages without importing or calling
    anything of a plotting library. *)
Lemma C6_galaxy_lines_plots_nothing :
  ~ (forall nb, In nb notebooks -> renders nb).
Proof.
  intros H.
  assert (Hin : In galaxy_lines notebooks) by (simpl; auto).
  specialize (H galaxy_lines Hin (demo 2) 0 0).
  assert (Hrun : fst (run (demo 2) 0 0 (nb_code galaxy_lines)) = Normal tt)
    by (vm_compute; reflexivity).
  apply H in Hrun.
  destruct (galaxy_lines_run (demo 2) 0 0) as (_ & _ & _ & P).
  rewrite P in Hrun. discriminate Hrun.
Qed.

(** C6, amended: every notebook imports from the library, but only the
    grid-lines notebook plots.  Whatever the packages do, no event of the
    galaxy-lines notebook is an import or a call of the plotting library;
    none of the particle-vs-parametric notebook is, nor is any a call of
    [get_line], [get_lines], [get_ratio] or [get_diagram]; and a run of the
    grid-lines notebook that completes ends with showing its figure (as
    its run against the sample packages does). *)
Theorem C6_only_grid_lines_plots :
  forall (X : external) (fuel : nat) (w : lstate X),
    Forall (fun nb => existsb library_import (nb_code nb) = true) notebooks /\
    Forall (fun ev => is_plot ev = false)
           (trace (snd (run X fuel w (nb_code galaxy_lines)))) /\
    Forall (fun ev => is_plot ev = false /\ calls_line_method ev = false)
           (trace (snd (run X fuel w (nb_code particle_parametric)))) /\
    (fst (run X fuel w (nb_code grid_lines)) = Normal tt ->
     shown (log (snd (run X fuel w (nb_code grid_lines))))) /\
    fst (run (demo 2) 0 0 (nb_code grid_lines)) = Normal tt.
Proof.
  intros X fuel w. split; [|split; [|split; [|split]]].
  - apply Forall_forall. intros nb [<-|[<-|[<-|[]]]]; reflexivity.
  - destruct (galaxy_lines_run X fuel w) as (_ & _ & _ & P).
    unfold trace. apply Forall_rev, existsb_none, P.
  - pose proof (forallb_trace prints_only _
                  (particle_parametric_run X fuel w)) as H.
    eapply Forall_impl; [|exact H].
    intros ev Hev. unfold prints_only in Hev.
    apply andb_prop in Hev. destruct Hev as [Hev Hm].
    apply andb_prop in Hev. destruct Hev as [_ Hp].
    apply negb_true_iff in Hm, Hp. auto.
  - apply grid_lines_run.
  - vm_compute. reflexivity.
Qed.

(* ===================================================================== *)
(** ** Names shared between cells *)
(* ===================================================================== *)

(** C7, as the specification has it, fails: the outcome of a cell does
    depend on what earlier cells left in the namespace.  Run in an empty
    namespace, the cell that reports the ratios stops at its second line;
    with [lines] bound, it runs to its end against the sample packages. *)
Lemma C7_cells_depend_on_earlier_cells :
  ~ (forall nb cell,
       In nb notebooks -> In cell (nb_cells nb) -> independent cell).
Proof.
  intros H.
  assert (Hnb : In grid_lines notebooks) by (simpl; auto).
  assert (Hcell : In grid_lines_ratios (nb_cells grid_lines))
    by (simpl; auto 10).
  specialize (H grid_lines grid_lines_ratios Hnb Hcell (demo 2) 0
                [] [("lines", VExt (XObj 0))] [] 0 []).
  vm_compute in H. discriminate H.
Qed.

(** C7, amended: the cells do share the namespace of the kernel (the cell
    that reports the ratios, run on its own, fails on the name [lines],
    whatever the packages do), but every name a cell takes from the cells
    before it was bound exactly once in those cells and is the object of no
    in-place change there: no cell relies on a binding that was rebound or
    mutated. *)
Theorem C7_shared_names_are_settled :
  forall (X : external) (fuel : nat) (w : lstate X),
    fst (run X fuel w grid_lines_ratios) = Raised (VExc "NameError" "lines") /\
    In "lines" (cell_inputs grid_lines_ratios) /\
    Forall (fun nb => settled_inputs [] (nb_cells nb) = true) notebooks.
Proof.
  intros X fuel w. split; [|split].
  - reflexivity.
  - simpl. auto.
  - apply Forall_forall. intros nb [<-|[<-|[<-|[]]]]; vm_compute; reflexivity.
Qed.

(* ===================================================================== *)
(** ** The loops over the metallicity axis, where the notebook gets to them *)
(* ===================================================================== *)

Ltac ready_leaf :=
  idtac; wp_cont;
  lazymatch goal with
  | |- after _ _ _ _ => idtac
  | |- _ = Normal tt -> grid_ready _ =>
      first
        [ intros Hn; discriminate Hn
        | intros _; eexists; cbv beta iota delta [env]; split; lookup_solve ]
  | H : forallb any_event _ = true |- loop_inv _ any_event _ _ _ _ =>
      do 4 eexists;
      split; [reflexivity|];
      split;
      [ first [ reflexivity | eexists; reflexivity ]
      | split; [frames_solve | exact H] ]
  end.

Ltac ready_run := wp_run heap_concrete ltac:(all_track any_event) ready_leaf.

(** Whatever the packages do, a run that gets to the R23 cell finds [grid]
    bound to an object of the packages, and [enumerate] not shadowed. *)
Lemma grid_ready_at_r23 (X : external) fuel w :
  fst (run X fuel w grid_lines_before_r23) = Normal tt ->
  grid_ready (snd (run X fuel w grid_lines_before_r23)).
Proof.
  pose (log0 := @nil event).
  assert (H : forallb any_event log0 = true) by reflexivity.
  change (wp X (exec_block X fuel grid_lines_before_r23)
            (MState [] [] w log0)
            (fun r => fst r = Normal tt -> grid_ready (snd r))).
  ready_run.
  lazymatch goal with
  | |- wp ?X (for_each _ _ _) (MState ?e ?h _ _) _ =>
      apply (wp_for_each X _ _
               (fun _ => loop_inv X any_event ["ratio_id"; "ratio"] e (eq h)))
  end.
  - ready_leaf.
  - forget_log.
    intros done v rest s1 E (e1 & h1 & w1 & lg1 & -> & <- & HF & HL).
    apply map_split in E. destruct E as [a ->]. cbv beta.
    ready_run.
  - forget_log.
    intros s1 (e1 & h1 & w1 & lg1 & -> & <- & HF & HL).
    ready_run.
Qed.

(** The same for the BPT cell, one more loop on. *)
Lemma grid_ready_at_bpt (X : external) fuel w :
  fst (run X fuel w grid_lines_before_bpt) = Normal tt ->
  grid_ready (snd (run X fuel w grid_lines_before_bpt)).
Proof.
  pose (log0 := @nil event).
  assert (H : forallb any_event log0 = true) by reflexivity.
  change (wp X (exec_block X fuel grid_lines_before_bpt)
            (MState [] [] w log0)
            (fun r => fst r = Normal tt -> grid_ready (snd r))).
  ready_run.
  lazymatch goal with
  | |- wp ?X (for_each _ _ _) (MState ?e ?h _ _) _ =>
      apply (wp_for_each X _ _
               (fun _ => loop_inv X any_event ["ratio_id"; "ratio"] e (eq h)))
  end.
  - ready_leaf.
  - forget_log.
    intros done v rest s1 E (e1 & h1 & w1 & lg1 & -> & <- & HF & HL).
    apply map_split in E. destruct E as [a ->]. cbv beta.
    ready_run.
  - forget_log.
    intros s1 (e1 & h1 & w1 & lg1 & -> & <- & HF & HL).
    ready_run.
    lazymatch goal with
    | |- wp ?X (for_each _ _ _) (MState ?e (?h ++ [HList []]) _ _) _ =>
        apply (wp_for_each X _ _
                 (fun _ =>
                    loop_inv X any_event ["iZ"; "Z"; "grid_point"; "lines"] e
                      (fun h' => exists vs, h' = h ++ [HList vs])))
    end.
    + ready_leaf.
    + forget_log.
      intros done v rest s2 E (e2 & h2 & w2 & lg2 & -> & [vs ->] & HF2 & HL2).
      apply enumerate_from_split in E. destruct E as [u ->].
      remember (Z.of_nat (0 + length done)) as i eqn:Hi.
      cbv beta.
      ready_run.
    + forget_log.
      intros s2 (e2 & h2 & w2 & lg2 & -> & [vs ->] & HF2 & HL2).
      ready_run.
Qed.

(** C8: when the grid-lines notebook has run to the end of its R23 loop,
    [ratios] has one entry per element that iterating [grid.metallicity]
    gave, and its [i]-th entry is what
    [grid.get_lines((0, i)).get_ratio("R23")] returned.  Whatever the
    packages do: the loop added to the trace the reading and iterating of
    [grid.metallicity] (giving [ms]), then for each index in turn these two
    calls on the grid [g] that [grid] names, and [ratios] is the list of the
    ratios returned, in that order. *)
Theorem C8_ratios_follow_metallicity :
  forall (X : external) (fuel : nat) (w : lstate X),
    fst (run X fuel w (grid_lines_before_r23 ++ r23_loop)) = Normal tt ->
    exists g xm ms its,
      lookup "grid" (env (snd (run X fuel w grid_lines_before_r23)))
        = Some (VExt g) /\
      length its = length ms /\
      trace (snd (run X fuel w (grid_lines_before_r23 ++ r23_loop)))
        = trace (snd (run X fuel w grid_lines_before_r23))
            ++ metallicity_header (VExt g) xm ms
            ++ r23_trace (VExt g) 0 its /\
      list_at (snd (run X fuel w (grid_lines_before_r23 ++ r23_loop)))
              "ratios"
        = Some (map (fun it => VExt (ri_ratio it)) its).
Proof.
  intros X fuel w. pose proof (grid_ready_at_r23 X fuel w) as Hready.
  unfold run in *. rewrite exec_block_app.
  destruct (exec_block X fuel grid_lines_before_r23 (initial X w))
    as [[[]|e|why] s]; try discriminate.
  intros Hdone. destruct (Hready eq_refl) as (g & Hgrid & Henum).
  destruct (r23_loop_ratios X fuel s g Hgrid Henum Hdone)
    as (xm & ms & its & H).
  exists g, xm, ms, its. split; [exact Hgrid | exact H].
Qed.

(** Against the sample packages with three metallicities, the notebook gets
    to the end of the R23 loop. *)
Lemma C8_ratios_follow_metallicity_witness :
  exists g xm ms its,
    lookup "grid" (env (snd (run (demo 3) 0 0 grid_lines_before_r23)))
      = Some (VExt g) /\
    length its = length ms /\
    trace (snd (run (demo 3) 0 0 (grid_lines_before_r23 ++ r23_loop)))
      = trace (snd (run (demo 3) 0 0 grid_lines_before_r23))
          ++ metallicity_header (VExt g) xm ms
          ++ r23_trace (VExt g) 0 its /\
    list_at (snd (run (demo 3) 0 0 (grid_lines_before_r23 ++ r23_loop)))
            "ratios"
      = Some (map (fun it => VExt (ri_ratio it)) its).
Proof.
  apply (C8_ratios_follow_metallicity (demo 3) 0 0).
  vm_compute. reflexivity.
Defined.

(** C9: in the BPT loop of the grid-lines notebook, [x] and [y] have the
    same length after every iteration, and when the loop completes both
    have as many elements as iterating [grid.metallicity] gave.  Whatever
    the packages do, when the notebook has got to where the loop starts
    (with the [items] to go through, in state [s1]): the notebook up to the
    end of the loop is the iteration of [bpt_step] over [items]; after the
    first [j] iterations (or fewer, if one of them failed) [x] and [y] have
    the same length [k <= j], and [k = min j (length items)] if all of them
    completed; and [items] has one item for each of the [ms] that iterating
    [grid.metallicity] gave. *)
Theorem C9_x_and_y_same_length :
  forall (X : external) (fuel : nat) (w : lstate X) items (s1 : mstate X),
    fst (run X fuel w grid_lines_before_bpt) = Normal tt ->
    loop_start X fuel bpt_init metallicity_items
      (snd (run X fuel w grid_lines_before_bpt)) = (Normal items, s1) ->
    run X fuel w (grid_lines_before_bpt ++ bpt_loop)
      = for_each X (bpt_step X fuel) items s1 /\
    (forall j,
        (exists k,
            k <= j /\
            aligned k
              (snd (for_each X (bpt_step X fuel) (firstn j items) s1))) /\
        (fst (for_each X (bpt_step X fuel) (firstn j items) s1) = Normal tt ->
         aligned (min j (length items))
           (snd (for_each X (bpt_step X fuel) (firstn j items) s1)))) /\
    exists g xm ms,
      length ms = length items /\
      log s1 = (OpIter (VExt xm), Ok (XTuple ms))
               :: (OpGetAttr (VExt g) "metallicity", Ok xm)
               :: log (snd (run X fuel w grid_lines_before_bpt)).
Proof.
  intros X fuel w items s1 Hbefore.
  destruct (grid_ready_at_bpt X fuel w Hbefore) as (g & Hgrid & Henum).
  unfold run in *. rewrite exec_block_app.
  destruct (exec_block X fuel grid_lines_before_bpt (initial X w))
    as [[[]|e|why] s]; try discriminate.
  simpl in *. intros Hstart.
  destruct (bpt_loop_run X fuel s s1 g items Hgrid Henum Hstart)
    as (Hloop & Hj & xm & ms & H).
  split; [exact Hloop|]. split; [exact Hj|].
  exists g, xm, ms. exact H.
Qed.

(** Against the sample packages with three metallicities, the notebook gets
    to the BPT loop, and after three iterations [x] and [y] both have three
    elements. *)
Lemma C9_x_and_y_same_length_witness :
  aligned 3
    (snd (for_each (demo 3) (bpt_step (demo 3) 0) (firstn 3 bpt_demo_items)
            bpt_demo_start)).
Proof.
  refine (proj2 (proj1 (proj2 (C9_x_and_y_same_length (demo 3) 0 0
                                 bpt_demo_items bpt_demo_start _ _)) 3) _);
    vm_compute; reflexivity.
Defined.

(* ===================================================================== *)
(** ** Cells run out of order *)
(* ===================================================================== *)

Ltac kernel_leaf :=
  idtac; wp_cont;
  lazymatch goal with
  | |- after _ _ _ _ => idtac
  | |- _ \/ _ =>
      first
        [ left; eexists; split; [|reflexivity]; vm_compute; tauto
        | right; do 3 eexists; split; reflexivity ]
  end.

(** X1: no cell but the first of a notebook can be run on its own.  Run in
    a fresh kernel, whatever the packages do, every later cell of every
    notebook ends with a [NameError] on one of the names it takes from an
    earlier cell, unless an operation of the packages (an import, a call)
    has raised before the cell got to that name; it never completes. *)
Theorem later_cells_need_the_kernel :
  Forall (fun nb => Forall needs_kernel (tl (nb_cells nb))) notebooks.
Proof.
  repeat (apply Forall_cons || apply Forall_nil);
    intros X fuel w;
    match goal with
    | |- context [run ?X ?f ?w ?p] =>
        pattern (run X f w p);
        match goal with
        | |- ?P _ => change (wp X (exec_block X f p) (MState [] [] w []) P)
        end
    end.
  all: wp_run heap_concrete no_track kernel_leaf.
Qed.

(* ===================================================================== *)
(** ** Names and unpacking *)
(* ===================================================================== *)

Lemma any_event_all lg : forallb any_event lg = true.
Proof. induction lg; simpl; auto. Qed.

(** Write out the log of the state in the goal. *)
Ltac unfold_logs :=
  repeat match goal with
         | lg := _ :: _ : list (ext_op * reply) |- _ => subst lg
         | lg := _ :: _ : list event |- _ => subst lg
         end.

Ltac only_leaf :=
  idtac; wp_cont;
  lazymatch goal with
  | |- after _ _ _ _ => idtac
  | |- library_only _ =>
      cbv beta iota delta [library_only fst snd log];
      first [ exact I | do 2 eexists; reflexivity ]
  end.

(** The runs of the two notebooks without loops. *)
Lemma straight_notebooks_end (X : external) fuel w :
  library_only (run X fuel w (nb_code particle_parametric)) /\
  library_only (run X fuel w (nb_code galaxy_lines)).
Proof.
  split.
  - change (wp X (exec_block X fuel (nb_code particle_parametric))
              (MState [] [] w []) library_only).
    wp_run heap_concrete no_track only_leaf.
  - change (wp X (exec_block X fuel (nb_code galaxy_lines))
              (MState [] [] w []) library_only).
    wp_run heap_concrete no_track only_leaf.
Qed.

Ltac checked_solve :=
  cbv beta iota delta [unpack_checked unpacking fst snd log];
  let xs := fresh "xs" in
  let d := fresh "d" in
  let op := fresh "op" in
  let older := fresh "older" in
  let Hlog := fresh "Hlog" in
  let Hop := fresh "Hop" in
  let Hlen := fresh "Hlen" in
  intros xs (d & op & older & Hlog & Hop) Hlen;
  unfold_logs;
  first
    [ discriminate Hlog
    | inversion Hlog; subst;
      first
        [ discriminate Hop
        | eexists; reflexivity
        | exfalso; apply Hlen; reflexivity ] ].

Ltac ending_leaf :=
  idtac; wp_cont;
  lazymatch goal with
  | |- after _ _ _ _ => idtac
  | |- grid_lines_ending _ /\ unpack_checked _ =>
      split;
      [ cbv beta iota delta [grid_lines_ending fst snd log];
        first
          [ exact I
          | do 2 eexists; reflexivity
          | split; [reflexivity|];
            unfold_logs; do 4 eexists;
            split; [reflexivity|]; split; [reflexivity|];
            simpl; intros Hlen; discriminate Hlen
          | unfold_logs; do 2 eexists; split; reflexivity ]
      | checked_solve ]
  | |- loop_inv _ any_event _ _ _ _ =>
      do 4 eexists;
      split; [reflexivity|];
      split;
      [ first [ reflexivity
              | eexists; reflexivity
              | do 2 eexists; reflexivity ]
      | split; [frames_solve | apply any_event_all] ]
  end.

Ltac ending_run := wp_run heap_concrete no_track ending_leaf.

(** The runs of the grid-lines notebook, through its three loops. *)
Lemma grid_lines_ends (X : external) fuel w :
  grid_lines_ending (run X fuel w (nb_code grid_lines)) /\
  unpack_checked (run X fuel w (nb_code grid_lines)).
Proof.
  change (wp X (exec_block X fuel (nb_code grid_lines))
            (MState [] [] w [])
            (fun r => grid_lines_ending r /\ unpack_checked r)).
  ending_run.
  lazymatch goal with
  | |- wp ?X (for_each _ _ _) (MState ?e ?h _ _) _ =>
      apply (wp_for_each X _ _
               (fun _ => loop_inv X any_event ["ratio_id"; "ratio"] e (eq h)))
  end.
  - ending_leaf.
  - intros done v rest s1 E (e1 & h1 & w1 & lg1 & -> & <- & HF & _).
    apply map_split in E. destruct E as [a ->]. cbv beta.
    ending_run.
  - intros s1 (e1 & h1 & w1 & lg1 & -> & <- & HF & _).
    ending_run.
    lazymatch goal with
    | |- wp ?X (for_each _ _ _) (MState ?e (?h ++ [HList []]) _ _) _ =>
        apply (wp_for_each X _ _
                 (fun _ =>
                    loop_inv X any_event ["iZ"; "Z"; "grid_point"; "lines"] e
                      (fun h' => exists vs, h' = h ++ [HList vs])))
    end.
    + ending_leaf.
    + intros done v rest s2 E (e2 & h2 & w2 & lg2 & -> & [vs ->] & HF2 & _).
      apply enumerate_from_split in E. destruct E as [u ->].
      remember (Z.of_nat (0 + length done)) as i eqn:Hi.
      cbv beta.
      ending_run.
    + intros s2 (e2 & h2 & w2 & lg2 & -> & [vs ->] & HF2 & _).
      ending_run.
      lazymatch goal with
      | |- wp ?X (for_each _ _ _)
             (MState ?e ((?h ++ [HList []]) ++ [HList []]) _ _) _ =>
          apply (wp_for_each X _ _
                   (fun _ =>
                      loop_inv X any_event
                        ["iZ"; "Z"; "grid_point"; "lines"; "x_"; "y_"] e
                        (fun h' =>
                           exists xs ys,
                             h' = (h ++ [HList xs]) ++ [HList ys])))
      end.
      * ending_leaf.
      * intros done v rest s3 E
          (e3 & h3 & w3 & lg3 & -> & (xs3 & ys3 & ->) & HF3 & _).
        apply enumerate_from_split in E. destruct E as [u ->].
        remember (Z.of_nat (0 + length done)) as i eqn:Hi.
        cbv beta.
        ending_run.
        unpack_reply; ending_run.
      * intros s3 (e3 & h3 & w3 & lg3 & -> & (xs3 & ys3 & ->) & HF3 & _).
        ending_run.
        unpack_reply; ending_run.
Qed.

(** X2: run in order, no notebook ever fails on a name.  Whatever the
    packages do (whatever they return, however many items their iterations
    give, none included, and wherever they raise), no run of any of the
    three notebooks from a fresh kernel ends with the [NameError] of a name
    the notebook reads: every name a cell reads has been bound by then. *)
Theorem no_notebook_fails_on_a_name :
  forall (X : external) (fuel : nat) (w : lstate X),
    Forall (fun nb =>
              forall x,
                fst (run X fuel w (nb_code nb)) <> Raised (VExc "NameError" x))
           notebooks.
Proof.
  intros X fuel w.
  destruct (straight_notebooks_end X fuel w) as [Hp Hg].
  destruct (grid_lines_ends X fuel w) as [He _].
  repeat (apply Forall_cons || apply Forall_nil); intros x E.
  - unfold grid_lines_ending in He. rewrite E in He.
    destruct He as [Hcls _]. discriminate Hcls.
  - unfold library_only in Hp. rewrite E in Hp. exact Hp.
  - unfold library_only in Hg. rewrite E in Hg. exact Hg.
Qed.

(** X3: unpacking into two names.  Whatever the packages do, a run of the
    grid-lines notebook ends with the [ValueError] of an unpacking exactly
    when what [get_diagram] or [get_diagram_labels] has just returned did
    not iterate to two items: if the run ends with that [ValueError], its
    last two events are such a call and the iteration of its result, which
    gave a number of items other than two; and if the last two events of a
    run are such a call and the iteration of its result into a number of
    items other than two, the run has ended with that [ValueError] (nothing
    was appended or plotted after them).  Packages whose diagrams iterate
    to three items do make the run end so. *)
Theorem unpacking_needs_two_values :
  (forall (X : external) (fuel : nat) (w : lstate X),
      unpacks_in_twos (run X fuel w (nb_code grid_lines))) /\
  exists msg,
    fst (run (triples 3) 0 0 (nb_code grid_lines))
      = Raised (VExc "ValueError" msg).
Proof.
  split.
  - intros X fuel w. destruct (grid_lines_ends X fuel w) as [He Hc].
    split; [|exact Hc].
    intros msg E. unfold grid_lines_ending in He. rewrite E in He.
    destruct He as (_ & d & xs & op & older & Hlog & Hop & Hlen).
    exists xs. split; [|exact Hlen].
    exists d, op, older. split; [exact Hlog | exact Hop].
  - eexists. vm_compute. reflexivity.
Qed.

(* ===================================================================== *)
(** ** What the R23 loop keeps, however it ends *)
(* ===================================================================== *)

Lemma method_returns_snoc m ev new :
  method_returns m (rev (ev :: new))
    = method_returns m (rev new) ++ returned m ev.
Proof.
  unfold method_returns. simpl. rewrite flat_map_app. simpl.
  rewrite app_nil_r. reflexivity.
Qed.

Ltac returns_solve :=
  rewrite ?method_returns_snoc;
  cbv beta iota delta [returned String.eqb Ascii.eqb Bool.eqb];
  rewrite ?app_nil_r, ?map_app.

Ltac kept_leaf :=
  idtac; wp_cont;
  lazymatch goal with
  | |- after _ _ _ _ => idtac
  | |- ratios_kept _ _ _ _ =>
      unfold_logs; rewrite ?app_comm_cons;
      eexists;
      split; [reflexivity|];
      split; [lookup_solve|];
      cbv beta iota delta [heap];
      returns_solve;
      apply nth_error_at_length
  | |- ratios_inv _ _ _ _ _ =>
      unfold_logs; rewrite ?app_comm_cons;
      lazymatch goal with
      | |- ratios_inv _ _ _ _ (MState ?e _ ?w (?n ++ _)) => exists n, e, w
      end;
      split; [returns_solve; reflexivity|];
      split; [lookup_solve|]; split; [lookup_solve|]; split; lookup_solve
  end.

(** The R23 loop, however it ends. *)
Lemma ratios_are_returns (X : external) fuel (s : mstate X) :
  grid_ready s ->
  ratios_kept X (heap s) (log s) (snd (exec_block X fuel r23_loop s)).
Proof.
  destruct s as [e h w lg]. intros (g & Hgrid & Henum).
  cbv beta iota delta [env heap log] in *.
  change (wp X (exec_block X fuel r23_loop) (MState e h w ([] ++ lg))
            (fun r => ratios_kept X h lg (snd r))).
  wp_run heap_recent no_track kept_leaf.
  match goal with
  | |- wp _ (for_each _ _ _) _ _ =>
      apply (wp_for_each X _ _ (fun _ => ratios_inv X g h lg))
  end.
  - kept_leaf.
  - intros done v rest s' E (new & e' & w'' & -> & Hg & Hr & Hia & Hid).
    apply enumerate_from_split in E. destruct E as [u ->].
    remember (Z.of_nat (0 + length done)) as i eqn:Hi.
    cbv beta.
    wp_run heap_recent no_track kept_leaf.
  - intros s' (new & e' & w'' & -> & Hg & Hr & Hia & Hid).
    wp_run heap_recent no_track kept_leaf.
Qed.

(** X4: the R23 loop of the grid-lines notebook, however it ends.  When
    the notebook has got to the R23 cell, then after the loop (completed,
    or stopped by an exception anywhere in it) [ratios] holds exactly the
    values that the calls of [get_ratio] made by the loop have returned, in
    order: a call that raised, or one that was never reached, leaves
    nothing behind. *)
Theorem ratios_hold_what_get_ratio_returned :
  forall (X : external) (fuel : nat) (w : lstate X),
    fst (run X fuel w grid_lines_before_r23) = Normal tt ->
    exists new,
      trace (snd (run X fuel w (grid_lines_before_r23 ++ r23_loop)))
        = trace (snd (run X fuel w grid_lines_before_r23)) ++ new /\
      list_at (snd (run X fuel w (grid_lines_before_r23 ++ r23_loop)))
              "ratios"
        = Some (map VExt (method_returns "get_ratio" new)).
Proof.
  intros X fuel w Hbefore.
  pose proof (grid_ready_at_r23 X fuel w Hbefore) as Hready.
  unfold run in *. rewrite exec_block_app.
  destruct (exec_block X fuel grid_lines_before_r23 (initial X w))
    as [[[]|e|why] s]; try discriminate.
  destruct (ratios_are_returns X fuel s Hready) as (new & Hlog & Hl & Hh).
  exists (rev new). split.
  - unfold trace. rewrite Hlog, rev_app_distr. reflexivity.
  - unfold list_at. rewrite Hl, Hh. reflexivity.
Qed.

(** Against the sample packages with three metallicities, when the call of
    [get_ratio] in the second iteration fails: [ratios] holds the one ratio
    of the first iteration. *)
Lemma ratios_hold_what_get_ratio_returned_witness :
  exists new,
    trace (snd (run (failing 3 57) 0 0 (grid_lines_before_r23 ++ r23_loop)))
      = trace (snd (run (failing 3 57) 0 0 grid_lines_before_r23)) ++ new /\
    list_at (snd (run (failing 3 57) 0 0 (grid_lines_before_r23 ++ r23_loop)))
            "ratios"
      = Some (map VExt (method_returns "get_ratio" new)).
Proof.
  apply (ratios_hold_what_get_ratio_returned (failing 3 57) 0 0).
  vm_compute. reflexivity.
Defined.

(* ===================================================================== *)
(** ** One grid point, three requests *)
(* ===================================================================== *)

(** An event that is in a list that is written out. *)
Ltac in_solve :=
  cbv beta iota delta [In];
  repeat first [ left; reflexivity | right ].

Ltac point_leaf :=
  idtac; wp_cont;
  lazymatch goal with
  | |- after _ _ _ _ => idtac
  | |- _ = Normal tt -> at_grid_point _ =>
      first
        [ intros Hn; discriminate Hn
        | intros _; unfold_logs;
          eexists;
          eexists (SetupReplies _ _ _ _ _ _ _ _ _ _ _);
          eexists (PointReplies _ _ _ _ _ _ _ _ _ _ _);
          split; [reflexivity|];
          split; [reflexivity|];
          cbv beta iota delta [env];
          split; [lookup_solve|]; split; lookup_solve ]
  end.

(** Whatever the packages do, a run that gets to the cell that reports the
    ratios has loaded a grid and made three requests at one point of it. *)
Lemma grid_point_run (X : external) fuel w :
  fst (run X fuel w grid_lines_before_ratios) = Normal tt ->
  at_grid_point (snd (run X fuel w grid_lines_before_ratios)).
Proof.
  change (wp X (exec_block X fuel grid_lines_before_ratios)
            (MState [] [] w [])
            (fun r => fst r = Normal tt -> at_grid_point (snd r))).
  wp_run heap_concrete no_track point_leaf.
Qed.
(** X5: the first eight cells of the grid-lines notebook.  When they have
    completed, their trace is: the five imports; the prints of three
    constants of [line_ratios]; the load [Grid("test_grid", grid_dir=...)];
    the print of the lines available on the grid, and of the grid; then
    [get_grid_point((6.0, 0.01))] on the grid, and [get_line] for H-beta,
    [get_line] for a list and [get_lines], all three on that same grid and
    at the grid point the first call returned, each result printed.  The
    list is the notebook's first, and holds the ids of H-beta and the two
    [O III] lines; and [lines] is left naming what [get_lines] returned. *)
Theorem three_requests_at_one_grid_point :
  forall (X : external) (fuel : nat) (w : lstate X),
    fst (run X fuel w grid_lines_before_ratios) = Normal tt ->
    exists g r0 r,
      trace (snd (run X fuel w grid_lines_before_ratios))
        = grid_setup_events g r0 ++ grid_point_events (VExt g) 0 r /\
      nth_error (heap (snd (run X fuel w grid_lines_before_ratios))) 0
        = Some (HList hb_o3_ids) /\
      lookup "lines" (env (snd (run X fuel w grid_lines_before_ratios)))
        = Some (VExt (pr_lines r)).
Proof.
  intros X fuel w Hdone.
  destruct (grid_point_run X fuel w Hdone)
    as (g & r0 & r & Ht & Hh & _ & Hl & _).
  exists g, r0, r. auto.
Qed.

(** Against the sample packages, the first eight cells complete. *)
Lemma three_requests_at_one_grid_point_witness :
  exists g r0 r,
    trace (snd (run (demo 3) 0 0 grid_lines_before_ratios))
      = grid_setup_events g r0 ++ grid_point_events (VExt g) 0 r /\
    nth_error (heap (snd (run (demo 3) 0 0 grid_lines_before_ratios))) 0
      = Some (HList hb_o3_ids) /\
    lookup "lines" (env (snd (run (demo 3) 0 0 grid_lines_before_ratios)))
      = Some (VExt (pr_lines r)).
Proof.
  apply (three_requests_at_one_grid_point (demo 3) 0 0).
  vm_compute. reflexivity.
Defined.

(** From here on the texts put together from formatted values are kept as
    they are written, not computed letter by letter. *)
Ltac wp_unfold X m s Q ::=
  let m' := eval cbv -[bind ask ret raise stuck load_name set_var
                       alloc heap_get heap_set seq_get join
                       for_each while_loop lstep lstate Worlds.demo
                       length map app rev enumerate_from seq Nat.mul
                       String.append] in m in
  lazymatch m' with
  | m => fail "no progress"
  | _ => change (wp X m' s Q)
  end.

Ltac wp_compile X m s Q ::=
  let m' := eval cbv -[bind ask ret raise stuck load_name set_var
                       alloc heap_get heap_set seq_get join
                       for_each while_loop lstep lstate Worlds.demo
                       map seq Nat.mul String.append
                       get_attr get_item set_item iterate truth
                       ask_format format_value bin_op call] in m in
  lazymatch m' with
  | m => fail "no progress"
  | _ => change (wp X m' s Q)
  end.

(* ===================================================================== *)
(** ** The report of the ratios *)
(* ===================================================================== *)

Lemma append_empty (s : string) : (s ++ "")%string = s.
Proof. induction s as [|c s IH]; simpl; [reflexivity | rewrite IH; reflexivity]. Qed.

Lemma map_VExt_inj (a b : list xval) : map VExt a = map VExt b -> a = b.
Proof.
  revert b. induction a as [|x a IH]; intros [|y b] E; simpl in E;
    try discriminate; [reflexivity|].
  injection E as -> E. rewrite (IH b E). reflexivity.
Qed.

Ltac report_leaf :=
  idtac; wp_cont;
  lazymatch goal with
  | |- after _ _ _ _ => idtac
  | |- _ = Normal tt -> _ => intros Hn; discriminate Hn
  | |- report_inv _ _ _ _ _ _ _ => idtac
  end.

Lemma ratios_cell_run (X : external) fuel (s : mstate X) l :
  lookup "lines" (env s) = Some (VExt l) ->
  lookup "print" (env s) = None ->
  fst (exec_block X fuel grid_lines_ratios s) = Normal tt ->
  exists first available its,
    log (snd (exec_block X fuel grid_lines_ratios s))
      = rev (ratios_cell_events (VExt l) first available its) ++ log s.
Proof.
  destruct s as [e h w lg]. cbv beta iota delta [env heap log].
  intros Hlines Hprint.
  match goal with
  | |- context [exec_block ?X ?f ?p ?s] => pattern (exec_block X f p s)
  end.
  match goal with
  | |- ?P ?r =>
      change (wp X (exec_block X fuel grid_lines_ratios) (MState e h w lg) P)
  end.
  wp_run heap_concrete no_track report_leaf.
  match goal with
  | |- wp _ (for_each _ _ _) (MState ?e1 _ _ ?lg1) _ =>
      apply (wp_for_each X _ _ (report_inv X (VExt l) e1 h lg1))
  end.
  - exists []. do 2 eexists.
    split; [reflexivity|]. split; [reflexivity | apply frames_refl].
  - intros done v rest s' E (its & e' & w'' & -> & -> & Hfr).
    apply map_split in E. destruct E as [a ->]. cbv beta.
    wp_run heap_concrete no_track report_leaf.
    exists (its ++ [RatioItem a s0 (ReportReplies x3 x4 s1 x5)]), env3, w'9.
    rewrite map_app, flat_map_app, rev_app_distr, <- app_assoc.
    split; [reflexivity|]. split; [|frames_solve].
    unfold log10, log9, log8, log7, log6. rewrite append_empty.
    reflexivity.
  - intros s' (its & e' & w'' & Hits & -> & Hfr).
    wp_run heap_concrete no_track report_leaf.
    intros _. exists (ReportReplies x x0 s x1), x2, its.
    rewrite <- (map_map qi_id VExt) in Hits.
    apply map_VExt_inj in Hits. subst xs.
    unfold ratios_cell_events, report_events.
    rewrite !rev_app_distr, <- !app_assoc.
    unfold log5, log4, log3, log2, log1, log0. rewrite append_empty.
    reflexivity.
Qed.

(** X6: the cell that reports the ratios.  When the grid-lines notebook
    has completed that cell, the cell has added to the trace, on the line
    collection [l] that [lines] names: [l.get_ratio("BalmerDecrement")] and
    the print of [BalmerDecrement: <ratio>]; the reading and iterating of
    [l.available_ratios]; then for each id that iteration gave, in order,
    [l.get_ratio(id)] and the print of [<id>: <ratio>], where [<id>] is the
    id as the packages formatted it and [<ratio>] the ratio as they
    formatted it to two decimals. *)
Theorem ratios_are_reported_one_by_one :
  forall (X : external) (fuel : nat) (w : lstate X),
    fst (run X fuel w (grid_lines_before_ratios ++ grid_lines_ratios))
      = Normal tt ->
    exists l first available its,
      lookup "lines" (env (snd (run X fuel w grid_lines_before_ratios)))
        = Some (VExt l) /\
      trace (snd (run X fuel w (grid_lines_before_ratios ++ grid_lines_ratios)))
        = trace (snd (run X fuel w grid_lines_before_ratios))
            ++ ratios_cell_events (VExt l) first available its.
Proof.
  intros X fuel w. pose proof (grid_point_run X fuel w) as Hready.
  unfold run in *. rewrite exec_block_app.
  destruct (exec_block X fuel grid_lines_before_ratios (initial X w))
    as [[[]|e|why] s]; try discriminate.
  intros Hdone.
  destruct (Hready eq_refl) as (g & r0 & r & _ & _ & _ & Hl & Hp).
  destruct (ratios_cell_run X fuel s _ Hl Hp Hdone)
    as (first & available & its & Hlog).
  exists (pr_lines r), first, available, its. split; [exact Hl|].
  unfold trace. cbv beta iota delta [snd] in *.
  rewrite Hlog, rev_app_distr, rev_involutive. reflexivity.
Qed.

(** Against the sample packages with three available ratios, the cell
    completes. *)
Lemma ratios_are_reported_one_by_one_witness :
  exists l first available its,
    lookup "lines" (env (snd (run (demo 3) 0 0 grid_lines_before_ratios)))
      = Some (VExt l) /\
    trace (snd (run (demo 3) 0 0
                  (grid_lines_before_ratios ++ grid_lines_ratios)))
      = trace (snd (run (demo 3) 0 0 grid_lines_before_ratios))
          ++ ratios_cell_events (VExt l) first available its.
Proof.
  apply (ratios_are_reported_one_by_one (demo 3) 0 0).
  vm_compute. reflexivity.
Defined.
(* ===================================================================== *)
(** ** Where the two figures are drawn *)
(* ===================================================================== *)

Ltac plot_ready_leaf :=
  idtac; wp_cont;
  lazymatch goal with
  | |- after _ _ _ _ => idtac
  | |- _ = Normal tt -> _ =>
      first
        [ intros Hn; discriminate Hn
        | intros _;
          cbv beta iota delta [bpt_ready plot_ready grid_ready env];
          repeat lazymatch goal with
                 | |- _ /\ _ => split
                 | |- exists _, _ => eexists
                 end;
          lookup_solve ]
  | |- loop_inv _ any_event _ _ _ _ =>
      do 4 eexists;
      split; [reflexivity|];
      split;
      [ first [ reflexivity | eexists; reflexivity ]
      | split; [frames_solve | apply any_event_all] ]
  end.

Ltac plot_ready_run := wp_run heap_concrete no_track plot_ready_leaf.

Lemma plot_ready_at_r23 (X : external) fuel w :
  fst (run X fuel w grid_lines_before_r23) = Normal tt ->
  plot_ready (snd (run X fuel w grid_lines_before_r23)).
Proof.
  change (wp X (exec_block X fuel grid_lines_before_r23)
            (MState [] [] w [])
            (fun r => fst r = Normal tt -> plot_ready (snd r))).
  plot_ready_run.
  lazymatch goal with
  | |- wp ?X (for_each _ _ _) (MState ?e ?h _ _) _ =>
      apply (wp_for_each X _ _
               (fun _ => loop_inv X any_event ["ratio_id"; "ratio"] e (eq h)))
  end.
  - plot_ready_leaf.
  - intros done v rest s1 E (e1 & h1 & w1 & lg1 & -> & <- & HF & _).
    apply map_split in E. destruct E as [a ->]. cbv beta.
    plot_ready_run.
  - intros s1 (e1 & h1 & w1 & lg1 & -> & <- & HF & _).
    plot_ready_run.
Qed.

Lemma bpt_ready_at_bpt (X : external) fuel w :
  fst (run X fuel w grid_lines_before_bpt) = Normal tt ->
  bpt_ready (snd (run X fuel w grid_lines_before_bpt)).
Proof.
  change (wp X (exec_block X fuel grid_lines_before_bpt)
            (MState [] [] w [])
            (fun r => fst r = Normal tt -> bpt_ready (snd r))).
  plot_ready_run.
  lazymatch goal with
  | |- wp ?X (for_each _ _ _) (MState ?e ?h _ _) _ =>
      apply (wp_for_each X _ _
               (fun _ => loop_inv X any_event ["ratio_id"; "ratio"] e (eq h)))
  end.
  - plot_ready_leaf.
  - intros done v rest s1 E (e1 & h1 & w1 & lg1 & -> & <- & HF & _).
    apply map_split in E. destruct E as [a ->]. cbv beta.
    plot_ready_run.
  - intros s1 (e1 & h1 & w1 & lg1 & -> & <- & HF & _).
    plot_ready_run.
    lazymatch goal with
    | |- wp ?X (for_each _ _ _) (MState ?e (?h ++ [HList []]) _ _) _ =>
        apply (wp_for_each X _ _
                 (fun _ =>
                    loop_inv X any_event ["iZ"; "Z"; "grid_point"; "lines"] e
                      (fun h' => exists vs, h' = h ++ [HList vs])))
    end.
    + plot_ready_leaf.
    + intros done v rest s2 E (e2 & h2 & w2 & lg2 & -> & [vs ->] & HF2 & _).
      apply enumerate_from_split in E. destruct E as [u ->].
      remember (Z.of_nat (0 + length done)) as i eqn:Hi.
      cbv beta.
      plot_ready_run.
    + intros s2 (e2 & h2 & w2 & lg2 & -> & [vs ->] & HF2 & _).
      plot_ready_run.
Qed.
(* ===================================================================== *)
(** ** The R23 figure *)
(* ===================================================================== *)

Lemma length_snoc {A} (l : list A) (a : A) : length (l ++ [a]) = S (length l).
Proof. rewrite length_app, Nat.add_1_r. reflexivity. Qed.

Ltac unfold_envs :=
  repeat match goal with
         | e := _ :: _ : list (string * value) |- _ => subst e
         end.

Ltac frame_leaf :=
  idtac; wp_cont;
  lazymatch goal with
  | |- after _ _ _ _ => idtac
  | |- _ = Normal tt -> _ => intros Hn; discriminate Hn
  | |- r23_frame_inv _ _ _ _ _ _ _ => idtac
  | |- bpt_frame_inv _ _ _ _ _ _ _ => idtac
  end.

(** The R23 loop once more, with what it leaves in the namespace for the
    plot. *)
Lemma r23_loop_frame (X : external) fuel (s : mstate X) g :
  lookup "grid" (env s) = Some (VExt g) ->
  lookup "enumerate" (env s) = None ->
  lookup "plt" (env s) = Some (VLib "matplotlib.pyplot") ->
  fst (exec_block X fuel r23_loop s) = Normal tt ->
  r23_plot_ready g (length (heap s)) (snd (exec_block X fuel r23_loop s)) /\
  exists vs,
    heap (snd (exec_block X fuel r23_loop s)) = heap s ++ [HList vs].
Proof.
  destruct s as [e h w lg]. cbv beta iota delta [env heap log].
  intros Hgrid Henum Hplt.
  match goal with
  | |- context [exec_block ?X ?f ?p ?s] => pattern (exec_block X f p s)
  end.
  match goal with
  | |- ?P ?r =>
      change (wp X (exec_block X fuel r23_loop) (MState e h w lg) P)
  end.
  wp_run heap_recent no_track frame_leaf.
  match goal with
  | |- wp _ (for_each _ _ _) (MState ?e1 _ _ ?lg1) _ =>
      apply (wp_for_each X _ _ (r23_frame_inv X g e1 h lg1))
  end.
  - exists []. do 2 eexists.
    split; [reflexivity|]. split; [reflexivity | apply frames_refl].
  - intros done v rest s' E (its & e' & w'' & Hlen & -> & Hfr).
    apply enumerate_from_split in E. destruct E as [u ->].
    remember (Z.of_nat (0 + length done)) as i eqn:Hi.
    cbv beta.
    wp_run heap_recent no_track frame_leaf.
    exists (its ++ [R23Iter x0 x1 x2 x3]), env6, w'4.
    rewrite !length_app, map_app, r23_trace_snoc, rev_app_distr, Hlen.
    split; [reflexivity|]. split; [|frames_solve].
    unfold log5, log4, log3, log2. rewrite Hi. reflexivity.
  - intros s' (its & e' & w'' & Hlen & -> & Hfr).
    wp_run heap_recent no_track frame_leaf.
    intros _. split.
    + cbv beta iota delta [r23_plot_ready env].
      split; [lookup_solve|]. split; [lookup_solve|]. split; lookup_solve.
    + eexists. reflexivity.
Qed.

Ltac r23_plot_leaf :=
  idtac; wp_cont;
  lazymatch goal with
  | |- after _ _ _ _ => idtac
  | |- _ = Normal tt -> _ =>
      first
        [ intros Hn; discriminate Hn
        | intros _; unfold_logs; rewrite <- ?app_assoc;
          eexists (R23PlotReplies _ _ _ _ _ _ _ _ _ _);
          split; [reflexivity|]; split; [reflexivity | lookup_solve] ]
  end.

(** The plot of the R23 cell, from any state in which the loop has left
    [ratios]. *)
Lemma r23_plot_run (X : external) fuel (s : mstate X) g l :
  r23_plot_ready g l s ->
  fst (exec_block X fuel r23_plot s) = Normal tt ->
  exists r,
    log (snd (exec_block X fuel r23_plot s))
      = rev (r23_plot_events (VExt g) (VRef l)
               (VRef (length (heap s)))
               (VRef (length (heap s ++ [HList [VFloat "0.01"; VInt 1]])))
               r)
          ++ log s /\
    heap (snd (exec_block X fuel r23_plot s))
      = heap s ++ [ HList [VFloat "0.01"; VInt 1];
                    HList [VInt 1; VInt 20] ] /\
    lookup "ratios" (env (snd (exec_block X fuel r23_plot s)))
      = Some (VRef l).
Proof.
  destruct s as [e h w lg]. cbv beta iota delta [r23_plot_ready env heap log].
  intros (Hgrid & Hplt & Hratios & Hid).
  match goal with
  | |- context [exec_block ?X ?f ?p ?s] => pattern (exec_block X f p s)
  end.
  match goal with
  | |- ?P ?r =>
      change (wp X (exec_block X fuel r23_plot) (MState e h w lg) P)
  end.
  wp_run heap_recent no_track r23_plot_leaf.
Qed.

(** X7: the R23 figure.  When the grid-lines notebook has completed the
    R23 cell, the part of the cell after the loop has added to the trace:
    [grid.metallicity] read again and divided by [0.0124]; [plt.plot] of
    that quotient against the list that [ratios] names, which is at that
    point as the loop left it; the limits [[0.01, 1]] and [[1, 20]], both
    scales set to ["log"], the two labels (the second is ["R23"]); and
    [plt.show()] last. *)
Theorem r23_figure_plots_the_ratios :
  forall (X : external) (fuel : nat) (w : lstate X),
    fst (run X fuel w (grid_lines_before_r23 ++ r23_loop ++ r23_plot))
      = Normal tt ->
    exists g l xlim ylim r,
      lookup "grid" (env (snd (run X fuel w grid_lines_before_r23)))
        = Some (VExt g) /\
      lookup "ratios"
        (env (snd (run X fuel w (grid_lines_before_r23 ++ r23_loop))))
        = Some (VRef l) /\
      trace (snd (run X fuel w
                    (grid_lines_before_r23 ++ r23_loop ++ r23_plot)))
        = trace (snd (run X fuel w (grid_lines_before_r23 ++ r23_loop)))
            ++ r23_plot_events (VExt g) (VRef l) (VRef xlim) (VRef ylim) r /\
      nth_error
        (heap (snd (run X fuel w
                      (grid_lines_before_r23 ++ r23_loop ++ r23_plot))))
        l
        = nth_error
            (heap (snd (run X fuel w (grid_lines_before_r23 ++ r23_loop))))
            l /\
      nth_error
        (heap (snd (run X fuel w
                      (grid_lines_before_r23 ++ r23_loop ++ r23_plot))))
        xlim
        = Some (HList [VFloat "0.01"; VInt 1]) /\
      nth_error
        (heap (snd (run X fuel w
                      (grid_lines_before_r23 ++ r23_loop ++ r23_plot))))
        ylim
        = Some (HList [VInt 1; VInt 20]).
Proof.
  intros X fuel w. pose proof (plot_ready_at_r23 X fuel w) as Hready.
  unfold run in *. rewrite app_assoc, (exec_block_app X fuel (_ ++ _)).
  rewrite exec_block_app.
  destruct (exec_block X fuel grid_lines_before_r23 (initial X w))
    as [[[]|e|why] s]; try discriminate.
  destruct (Hready eq_refl) as ((g & Hgrid & Henum) & Hplt).
  pose proof (r23_loop_frame X fuel s g Hgrid Henum Hplt) as Hloop.
  destruct (exec_block X fuel r23_loop s) as [[[]|e|why] s1];
    try discriminate.
  destruct (Hloop eq_refl) as (Hpr & vs & Hheap).
  intros Hdone.
  destruct (r23_plot_run X fuel s1 g _ Hpr Hdone) as (r & Hlog & Hh & _).
  rewrite length_snoc in Hlog.
  exists g, (length (heap s)), (length (heap s1)), (S (length (heap s1))), r.
  cbv beta iota delta [snd] in *.
  split; [exact Hgrid|]. split; [apply Hpr|]. split.
  { unfold trace. rewrite Hlog, rev_app_distr, rev_involutive. reflexivity. }
  rewrite Hh. split; [|split].
  - rewrite Hheap, <- app_assoc. simpl.
    rewrite !nth_error_at_length. reflexivity.
  - apply nth_error_at_length.
  - apply nth_error_after_length.
Qed.

(** Against the sample packages with three metallicities, the R23 cell
    completes. *)
Lemma r23_figure_plots_the_ratios_witness :
  exists g l xlim ylim r,
    lookup "grid" (env (snd (run (demo 3) 0 0 grid_lines_before_r23)))
      = Some (VExt g) /\
    lookup "ratios"
      (env (snd (run (demo 3) 0 0 (grid_lines_before_r23 ++ r23_loop))))
      = Some (VRef l) /\
    trace (snd (run (demo 3) 0 0
                  (grid_lines_before_r23 ++ r23_loop ++ r23_plot)))
      = trace (snd (run (demo 3) 0 0 (grid_lines_before_r23 ++ r23_loop)))
          ++ r23_plot_events (VExt g) (VRef l) (VRef xlim) (VRef ylim) r /\
    nth_error
      (heap (snd (run (demo 3) 0 0
                    (grid_lines_before_r23 ++ r23_loop ++ r23_plot))))
      l
      = nth_error
          (heap (snd (run (demo 3) 0 0 (grid_lines_before_r23 ++ r23_loop))))
          l /\
    nth_error
      (heap (snd (run (demo 3) 0 0
                    (grid_lines_before_r23 ++ r23_loop ++ r23_plot))))
      xlim
      = Some (HList [VFloat "0.01"; VInt 1]) /\
    nth_error
      (heap (snd (run (demo 3) 0 0
                    (grid_lines_before_r23 ++ r23_loop ++ r23_plot))))
      ylim
      = Some (HList [VInt 1; VInt 20]).
Proof.
  apply (r23_figure_plots_the_ratios (demo 3) 0 0).
  vm_compute. reflexivity.
Defined.
(* ===================================================================== *)
(** ** The BPT figure *)
(* ===================================================================== *)

Lemma bpt_trace_snoc g i its it :
  bpt_trace g i (its ++ [it])
    = bpt_trace g i its ++ bpt_events g (i + length its) it.
Proof.
  revert i. induction its as [|a its IH]; intros i; simpl.
  - rewrite Nat.add_0_r. reflexivity.
  - rewrite IH. rewrite <- Nat.add_succ_comm. reflexivity.
Qed.

(** The BPT loop, from any state in which the BPT cell can start: what it
    adds to the log, what it leaves in [x] and [y], and what it leaves in
    the namespace for the plot. *)
Lemma bpt_loop_frame (X : external) fuel (s : mstate X) g :
  lookup "grid" (env s) = Some (VExt g) ->
  bpt_ready s ->
  fst (exec_block X fuel bpt_loop s) = Normal tt ->
  exists xm ms its,
    length its = length ms /\
    log (snd (exec_block X fuel bpt_loop s))
      = rev (metallicity_header (VExt g) xm ms ++ bpt_trace (VExt g) 0 its)
          ++ log s /\
    heap (snd (exec_block X fuel bpt_loop s))
      = heap s ++ [ HList (map (fun it => VExt (bi_x it)) its);
                    HList (map (fun it => VExt (bi_y it)) its) ] /\
    bpt_plot_ready (length (heap s)) (S (length (heap s)))
      (snd (exec_block X fuel bpt_loop s)).
Proof.
  destruct s as [e h w lg].
  cbv beta iota delta [bpt_ready plot_ready grid_ready env heap log].
  intros Hgrid (((g' & _ & Henum) & Hplt) & Hnp & Hlr & Hgdl).
  match goal with
  | |- context [exec_block ?X ?f ?p ?s] => pattern (exec_block X f p s)
  end.
  match goal with
  | |- ?P ?r =>
      change (wp X (exec_block X fuel bpt_loop) (MState e h w lg) P)
  end.
  wp_run heap_recent no_track frame_leaf.
  unfold_envs. rewrite length_snoc, <- app_assoc. cbn [app].
  match goal with
  | |- wp _ (for_each _ _ _) (MState ?e1 _ _ ?lg1) _ =>
      apply (wp_for_each X _ _ (bpt_frame_inv X g e1 h lg1))
  end.
  - exists []. do 2 eexists.
    split; [reflexivity|]. split; [reflexivity | apply frames_refl].
  - intros done v rest s' E (its & e' & w'' & Hlen & -> & Hfr).
    apply enumerate_from_split in E. destruct E as [u ->].
    remember (Z.of_nat (0 + length done)) as i eqn:Hi.
    cbv beta.
    wp_run heap_recent no_track frame_leaf.
    unpack_reply; wp_run heap_recent no_track frame_leaf.
    exists (its ++ [BptIter x0 x1 x2 x3 x4 x5]), env5, w'5.
    rewrite !length_app, !map_app, bpt_trace_snoc, rev_app_distr, Hlen.
    split; [reflexivity|]. split; [|frames_solve].
    unfold log6, log5, log4, log3, log2. rewrite Hi. reflexivity.
  - intros s' (its & e' & w'' & Hlen & -> & Hfr).
    wp_run heap_recent no_track frame_leaf.
    intros _. exists x, xs, its.
    rewrite enumerate_from_length, length_map in Hlen.
    split; [exact Hlen|]. split.
    { rewrite rev_app_distr, <- app_assoc. reflexivity. }
    split; [reflexivity|].
    cbv beta iota delta [bpt_plot_ready env].
    repeat (split; [lookup_solve|]). lookup_solve.
Qed.

Ltac bpt_plot_leaf :=
  idtac; wp_cont;
  lazymatch goal with
  | |- after _ _ _ _ => idtac
  | |- _ = Normal tt -> _ =>
      first
        [ intros Hn; discriminate Hn
        | intros _; unfold_logs; rewrite <- ?app_assoc, ?append_empty;
          eexists (BptPlotReplies _ _ _ _ _ _ _ _ _ _ _ _ _ _ _ _ _ _);
          split; reflexivity ]
  end.

(** The plot of the BPT cell, from any state in which the loop has left
    [x] and [y]. *)
Lemma bpt_plot_run (X : external) fuel (s : mstate X) lx ly :
  bpt_plot_ready lx ly s ->
  fst (exec_block X fuel bpt_plot s) = Normal tt ->
  exists r,
    log (snd (exec_block X fuel bpt_plot s))
      = rev (bpt_plot_events (VRef lx) (VRef ly)
               (VRef (length (heap s)))
               (VRef (length (heap s ++ [HList [VFloat "0.01"; VInt 10]])))
               r)
          ++ log s /\
    heap (snd (exec_block X fuel bpt_plot s))
      = heap s ++ [ HList [VFloat "0.01"; VInt 10];
                    HList [VFloat "0.05"; VInt 20] ].
Proof.
  destruct s as [e h w lg]. cbv beta iota delta [bpt_plot_ready env heap log].
  intros (Hx & Hy & Hid & Hplt & Hnp & Hlr & Hgdl).
  match goal with
  | |- context [exec_block ?X ?f ?p ?s] => pattern (exec_block X f p s)
  end.
  match goal with
  | |- ?P ?r =>
      change (wp X (exec_block X fuel bpt_plot) (MState e h w lg) P)
  end.
  wp_run heap_recent no_track bpt_plot_leaf.
  unpack_reply; wp_run heap_recent no_track bpt_plot_leaf.
Qed.

(** X8: the BPT loop.  When the grid-lines notebook has run to the end of
    its BPT loop, the loop has added to the trace the reading and iterating
    of [grid.metallicity] (giving [ms]), then for each index [i] in turn
    [grid.get_lines((0, i)).get_diagram("BPT-NII")] and the iteration of
    the diagram returned, which gave two items; there are as many
    iterations as [ms] has elements; and [x] is the list of the first
    items, [y] the list of the second ones, in that order.  So [x[i]] and
    [y[i]] come from the same diagram, that of the metallicity [i]. *)
Theorem bpt_points_follow_metallicity :
  forall (X : external) (fuel : nat) (w : lstate X),
    fst (run X fuel w (grid_lines_before_bpt ++ bpt_loop)) = Normal tt ->
    exists g xm ms its,
      lookup "grid" (env (snd (run X fuel w grid_lines_before_bpt)))
        = Some (VExt g) /\
      length its = length ms /\
      trace (snd (run X fuel w (grid_lines_before_bpt ++ bpt_loop)))
        = trace (snd (run X fuel w grid_lines_before_bpt))
            ++ metallicity_header (VExt g) xm ms
            ++ bpt_trace (VExt g) 0 its /\
      list_at (snd (run X fuel w (grid_lines_before_bpt ++ bpt_loop))) "x"
        = Some (map (fun it => VExt (bi_x it)) its) /\
      list_at (snd (run X fuel w (grid_lines_before_bpt ++ bpt_loop))) "y"
        = Some (map (fun it => VExt (bi_y it)) its).
Proof.
  intros X fuel w. pose proof (bpt_ready_at_bpt X fuel w) as Hready.
  unfold run in *. rewrite exec_block_app.
  destruct (exec_block X fuel grid_lines_before_bpt (initial X w))
    as [[[]|e|why] s]; try discriminate.
  intros Hdone. pose proof (Hready eq_refl) as Hr.
  destruct Hr as (((g & Hgrid & Henum) & Hplt) & Hrest).
  destruct (bpt_loop_frame X fuel s g Hgrid (Hready eq_refl) Hdone)
    as (xm & ms & its & Hlen & Hlog & Hheap & Hx & Hy & _).
  exists g, xm, ms, its. cbv beta iota delta [snd] in *.
  split; [exact Hgrid|]. split; [exact Hlen|]. split; [|split].
  - unfold trace. rewrite Hlog, rev_app_distr, rev_involutive. reflexivity.
  - unfold list_at. rewrite Hx, Hheap, nth_error_at_length. reflexivity.
  - unfold list_at. rewrite Hy, Hheap, nth_error_after_length. reflexivity.
Qed.

(** Against the sample packages with three metallicities, the notebook gets
    to the end of the BPT loop. *)
Lemma bpt_points_follow_metallicity_witness :
  exists g xm ms its,
    lookup "grid" (env (snd (run (demo 3) 0 0 grid_lines_before_bpt)))
      = Some (VExt g) /\
    length its = length ms /\
    trace (snd (run (demo 3) 0 0 (grid_lines_before_bpt ++ bpt_loop)))
      = trace (snd (run (demo 3) 0 0 grid_lines_before_bpt))
          ++ metallicity_header (VExt g) xm ms
          ++ bpt_trace (VExt g) 0 its /\
    list_at (snd (run (demo 3) 0 0 (grid_lines_before_bpt ++ bpt_loop))) "x"
      = Some (map (fun it => VExt (bi_x it)) its) /\
    list_at (snd (run (demo 3) 0 0 (grid_lines_before_bpt ++ bpt_loop))) "y"
      = Some (map (fun it => VExt (bi_y it)) its).
Proof.
  apply (bpt_points_follow_metallicity (demo 3) 0 0).
  vm_compute. reflexivity.
Defined.

(** X9: the BPT figure.  When the grid-lines notebook has completed, the
    part of the BPT cell after the loop has added to the trace: the Kewley
    line, [line_ratios.get_bpt_kewley01] of [np.arange(-2.0, 1.0, 0.01)],
    both raised as powers of ten and plotted with [c="k", lw="2",
    alpha=0.3]; [plt.plot] of the lists that [x] and [y] name, which are at
    that point as the loop left them; the limits [[0.01, 10]] and
    [[0.05, 20]] and both scales set to ["log"]; the two labels that
    [get_diagram_labels("BPT-NII")] returned, each formatted and put
    between dollar signs; and [plt.show()] last. *)
Theorem bpt_figure_plots_the_points :
  forall (X : external) (fuel : nat) (w : lstate X),
    fst (run X fuel w (grid_lines_before_bpt ++ bpt_loop ++ bpt_plot))
      = Normal tt ->
    exists lx ly xlim ylim r,
      lookup "x" (env (snd (run X fuel w (grid_lines_before_bpt ++ bpt_loop))))
        = Some (VRef lx) /\
      lookup "y" (env (snd (run X fuel w (grid_lines_before_bpt ++ bpt_loop))))
        = Some (VRef ly) /\
      trace (snd (run X fuel w
                    (grid_lines_before_bpt ++ bpt_loop ++ bpt_plot)))
        = trace (snd (run X fuel w (grid_lines_before_bpt ++ bpt_loop)))
            ++ bpt_plot_events (VRef lx) (VRef ly) (VRef xlim) (VRef ylim) r /\
      nth_error
        (heap (snd (run X fuel w
                      (grid_lines_before_bpt ++ bpt_loop ++ bpt_plot))))
        lx
        = nth_error
            (heap (snd (run X fuel w (grid_lines_before_bpt ++ bpt_loop))))
            lx /\
      nth_error
        (heap (snd (run X fuel w
                      (grid_lines_before_bpt ++ bpt_loop ++ bpt_plot))))
        ly
        = nth_error
            (heap (snd (run X fuel w (grid_lines_before_bpt ++ bpt_loop))))
            ly /\
      nth_error
        (heap (snd (run X fuel w
                      (grid_lines_before_bpt ++ bpt_loop ++ bpt_plot))))
        xlim
        = Some (HList [VFloat "0.01"; VInt 10]) /\
      nth_error
        (heap (snd (run X fuel w
                      (grid_lines_before_bpt ++ bpt_loop ++ bpt_plot))))
        ylim
        = Some (HList [VFloat "0.05"; VInt 20]).
Proof.
  intros X fuel w. pose proof (bpt_ready_at_bpt X fuel w) as Hready.
  unfold run in *. rewrite app_assoc, (exec_block_app X fuel (_ ++ _)).
  rewrite exec_block_app.
  destruct (exec_block X fuel grid_lines_before_bpt (initial X w))
    as [[[]|e|why] s]; try discriminate.
  pose proof (Hready eq_refl) as Hr.
  destruct Hr as (((g & Hgrid & Henum) & Hplt) & Hrest).
  pose proof (bpt_loop_frame X fuel s g Hgrid (Hready eq_refl)) as Hloop.
  destruct (exec_block X fuel bpt_loop s) as [[[]|e|why] s1];
    try discriminate.
  destruct (Hloop eq_refl) as (xm & ms & its & _ & _ & Hheap & Hpr).
  intros Hdone.
  destruct (bpt_plot_run X fuel s1 _ _ Hpr Hdone) as (r & Hlog & Hh).
  rewrite length_snoc in Hlog.
  exists (length (heap s)), (S (length (heap s))),
         (length (heap s1)), (S (length (heap s1))), r.
  cbv beta iota delta [snd] in *.
  split; [apply Hpr|]. split; [apply Hpr|]. split.
  { unfold trace. rewrite Hlog, rev_app_distr, rev_involutive. reflexivity. }
  rewrite Hh. split; [|split; [|split]].
  - apply nth_error_app1. rewrite Hheap, length_app. simpl. lia.
  - apply nth_error_app1. rewrite Hheap, length_app. simpl. lia.
  - apply nth_error_at_length.
  - apply nth_error_after_length.
Qed.

(** Against the sample packages with three metallicities, the notebook
    completes. *)
Lemma bpt_figure_plots_the_points_witness :
  exists lx ly xlim ylim r,
    lookup "x"
      (env (snd (run (demo 3) 0 0 (grid_lines_before_bpt ++ bpt_loop))))
      = Some (VRef lx) /\
    lookup "y"
      (env (snd (run (demo 3) 0 0 (grid_lines_before_bpt ++ bpt_loop))))
      = Some (VRef ly) /\
    trace (snd (run (demo 3) 0 0
                  (grid_lines_before_bpt ++ bpt_loop ++ bpt_plot)))
      = trace (snd (run (demo 3) 0 0 (grid_lines_before_bpt ++ bpt_loop)))
          ++ bpt_plot_events (VRef lx) (VRef ly) (VRef xlim) (VRef ylim) r /\
    nth_error
      (heap (snd (run (demo 3) 0 0
                    (grid_lines_before_bpt ++ bpt_loop ++ bpt_plot))))
      lx
      = nth_error
          (heap (snd (run (demo 3) 0 0 (grid_lines_before_bpt ++ bpt_loop))))
          lx /\
    nth_error
      (heap (snd (run (demo 3) 0 0
                    (grid_lines_before_bpt ++ bpt_loop ++ bpt_plot))))
      ly
      = nth_error
          (heap (snd (run (demo 3) 0 0 (grid_lines_before_bpt ++ bpt_loop))))
          ly /\
    nth_error
      (heap (snd (run (demo 3) 0 0
                    (grid_lines_before_bpt ++ bpt_loop ++ bpt_plot))))
      xlim
      = Some (HList [VFloat "0.01"; VInt 10]) /\
    nth_error
      (heap (snd (run (demo 3) 0 0
                    (grid_lines_before_bpt ++ bpt_loop ++ bpt_plot))))
      ylim
      = Some (HList [VFloat "0.05"; VInt 20]).
Proof.
  apply (bpt_figure_plots_the_points (demo 3) 0 0).
  vm_compute. reflexivity.
Defined.
(* ===================================================================== *)
(** ** What the BPT cell leaves alone *)
(* ===================================================================== *)

Lemma firstn_length_app {A} (h t : list A) : firstn (length h) (h ++ t) = h.
Proof. induction h as [|a h IH]; simpl; [reflexivity | rewrite IH; reflexivity]. Qed.

Ltac kept_heap_leaf :=
  idtac; wp_cont;
  lazymatch goal with
  | |- after _ _ _ _ => idtac
  | |- earlier_kept _ _ =>
      cbv beta iota delta [earlier_kept heap env];
      split;
      [ rewrite <- ?app_assoc;
        first [ apply firstn_all | apply firstn_length_app ]
      | lookup_solve ]
  | |- loop_inv _ any_event _ _ _ _ =>
      do 4 eexists;
      split; [reflexivity|];
      split;
      [ do 2 eexists; reflexivity
      | split; [frames_solve | apply any_event_all] ]
  end.

(** The BPT cell, however it ends, from any state in which it can start. *)
Lemma bpt_cell_keeps (X : external) fuel (s : mstate X) :
  bpt_ready s ->
  earlier_kept s (snd (exec_block X fuel grid_lines_bpt s)).
Proof.
  destruct s as [e h w lg].
  cbv beta iota delta [bpt_ready plot_ready grid_ready env heap log].
  intros (((g & Hgrid & Henum) & Hplt) & Hnp & Hlr & Hgdl).
  change (wp X (exec_block X fuel grid_lines_bpt) (MState e h w lg)
            (fun r => earlier_kept (MState e h w lg) (snd r))).
  wp_run heap_recent no_track kept_heap_leaf.
  unfold_envs. rewrite length_snoc, <- app_assoc. cbn [app].
  lazymatch goal with
  | |- wp ?X (for_each _ _ _) (MState ?e1 _ _ _) _ =>
      apply (wp_for_each X _ _
               (fun _ =>
                  loop_inv X any_event
                    ["iZ"; "Z"; "grid_point"; "lines"; "x_"; "y_"] e1
                    (fun h' => exists xs ys, h' = h ++ [HList xs; HList ys])))
  end.
  - kept_heap_leaf.
  - intros done v rest s3 E
      (e3 & h3 & w3 & lg3 & -> & (xs3 & ys3 & ->) & HF3 & _).
    apply enumerate_from_split in E. destruct E as [u ->].
    remember (Z.of_nat (0 + length done)) as i eqn:Hi.
    cbv beta.
    wp_run heap_recent no_track kept_heap_leaf.
    unpack_reply; wp_run heap_recent no_track kept_heap_leaf.
  - intros s3 (e3 & h3 & w3 & lg3 & -> & (xs3 & ys3 & ->) & HF3 & _).
    wp_run heap_recent no_track kept_heap_leaf.
    unpack_reply; wp_run heap_recent no_track kept_heap_leaf.
Qed.

Lemma before_bpt_split :
  grid_lines_before_bpt = grid_lines_before_r23 ++ r23_loop ++ r23_plot.
Proof. reflexivity. Qed.

(** X10: the BPT cell leaves [ratios] alone.  When the grid-lines notebook
    has got to the BPT cell, [ratios] names a list; and after the BPT cell,
    however it ends (completed, or stopped by an exception anywhere in it),
    [ratios] names a list with the very same elements: the cell appends to
    the lists it has made itself and to no other. *)
Theorem bpt_cell_leaves_ratios_alone :
  forall (X : external) (fuel : nat) (w : lstate X),
    fst (run X fuel w grid_lines_before_bpt) = Normal tt ->
    exists vs,
      list_at (snd (run X fuel w grid_lines_before_bpt)) "ratios" = Some vs /\
      list_at (snd (run X fuel w (grid_lines_before_bpt ++ grid_lines_bpt)))
              "ratios"
        = Some vs.
Proof.
  intros X fuel w Hbefore.
  pose proof (bpt_ready_at_bpt X fuel w Hbefore) as Hready.
  assert (Hl : exists l vs,
             lookup "ratios" (env (snd (run X fuel w grid_lines_before_bpt)))
               = Some (VRef l) /\
             nth_error (heap (snd (run X fuel w grid_lines_before_bpt))) l
               = Some (HList vs)).
  { clear Hready. revert Hbefore. rewrite before_bpt_split.
    pose proof (plot_ready_at_r23 X fuel w) as Hr.
    unfold run in *. rewrite app_assoc, (exec_block_app X fuel (_ ++ _)).
    rewrite exec_block_app.
    destruct (exec_block X fuel grid_lines_before_r23 (initial X w))
      as [[[]|e|why] s]; try discriminate.
    destruct (Hr eq_refl) as ((g & Hgrid & Henum) & Hplt).
    pose proof (r23_loop_frame X fuel s g Hgrid Henum Hplt) as Hloop.
    destruct (exec_block X fuel r23_loop s) as [[[]|e|why] s1];
      try discriminate.
    destruct (Hloop eq_refl) as (Hpr & vs & Hheap).
    intros Hdone.
    destruct (r23_plot_run X fuel s1 g _ Hpr Hdone) as (r & _ & Hh & Hlk).
    exists (length (heap s)), vs. cbv beta iota delta [snd] in *.
    split; [exact Hlk|].
    rewrite Hh, Hheap, <- app_assoc. apply nth_error_at_length. }
  destruct Hl as (l & vs & Hlk & Hnth). exists vs.
  unfold run in *. rewrite exec_block_app.
  destruct (exec_block X fuel grid_lines_before_bpt (initial X w))
    as [[[]|e|why] s]; try discriminate.
  cbn [snd] in *.
  destruct (bpt_cell_keeps X fuel s Hready) as [Hheap Henv].
  unfold list_at. rewrite Henv, Hlk, Hnth. split; [reflexivity|].
  assert (Hlt : l < length (heap s)).
  { apply nth_error_Some. rewrite Hnth. discriminate. }
  rewrite <- Hheap in Hnth at 1.
  rewrite nth_error_firstn in Hnth.
  apply Nat.ltb_lt in Hlt. rewrite Hlt in Hnth. rewrite Hnth. reflexivity.
Qed.

(** Against the sample packages with three metallicities, when the second
    call of [get_diagram] fails: [ratios] is as the R23 cell left it. *)
Lemma bpt_cell_leaves_ratios_alone_witness :
  exists vs,
    list_at (snd (run (failing 3 82) 0 0 grid_lines_before_bpt)) "ratios"
      = Some vs /\
    list_at (snd (run (failing 3 82) 0 0
                    (grid_lines_before_bpt ++ grid_lines_bpt)))
            "ratios"
      = Some vs.
Proof.
  apply (bpt_cell_leaves_ratios_alone (failing 3 82) 0 0).
  vm_compute. reflexivity.
Defined.
(* ===================================================================== *)
(** ** Three ways to a galaxy *)
(* ===================================================================== *)

(** An event that is in the trace of a state whose log is written out. *)
Ltac in_trace_solve :=
  unfold trace; cbv beta iota delta [log];
  apply -> in_rev; in_solve.

Ltac stars_leaf :=
  idtac; wp_cont;
  lazymatch goal with
  | |- after _ _ _ _ => idtac
  | |- _ = Normal tt -> _ =>
      first
        [ intros Hn; discriminate Hn
        | intros _; unfold_logs;
          cbv beta iota delta [stars_ready stars_made galaxy_ready env];
          repeat lazymatch goal with
                 | |- _ /\ _ => split
                 | |- exists _, _ => eexists
                 | |- lookup _ _ = _ => lookup_solve
                 | |- In _ _ => in_trace_solve
                 end ]
  end.

Lemma stars_ready_run (X : external) fuel w :
  fst (run X fuel w particle_parametric_setup) = Normal tt ->
  stars_ready (snd (run X fuel w particle_parametric_setup)).
Proof.
  change (wp X (exec_block X fuel particle_parametric_setup)
            (MState [] [] w [])
            (fun r => fst r = Normal tt -> stars_ready (snd r))).
  wp_run heap_concrete no_track stars_leaf.
Qed.

Ltac galaxies_leaf :=
  idtac; wp_cont;
  lazymatch goal with
  | |- after _ _ _ _ => idtac
  | |- _ = Normal tt -> _ =>
      first
        [ intros Hn; discriminate Hn
        | intros _; unfold_logs;
          first
            [ eexists (GalaxyReplies _ _ _ _ _ _ _ _ _ _ _ _)
            | eexists (ParticleReplies _ _ _ _ _ _ _ _ _ _ _ _ _ _ _ _ _ _
                         _ _ _ _ _)
            | eexists (ParametricReplies _ _ _ _ _ _ _ _ _ _ _ _ _ _ _ _ _
                         _ _ _ _ _ _ _ _ _ _ _) ];
          split; [reflexivity|];
          cbv beta iota delta [env];
          repeat lazymatch goal with
                 | |- _ /\ _ => split
                 | |- lookup _ _ = _ => lookup_solve
                 end ]
  end.

(** The three cells that make galaxies, from any state in which the two
    kinds of stars are there. *)
Lemma galaxies_run (X : external) fuel (s : mstate X) pp ps :
  lookup "param_stars" (env s) = Some (VExt pp) ->
  lookup "part_stars" (env s) = Some (VExt ps) ->
  lookup "print" (env s) = None ->
  fst (exec_block X fuel particle_parametric_galaxies s) = Normal tt ->
  exists r,
    log (snd (exec_block X fuel particle_parametric_galaxies s))
      = rev (galaxies_events pp ps r) ++ log s /\
    lookup "Galaxy" (env (snd (exec_block X fuel
                                 particle_parametric_galaxies s)))
      = Some (VLib "synthesizer.parametric.Galaxy") /\
    lookup "part_gal" (env (snd (exec_block X fuel
                                   particle_parametric_galaxies s)))
      = Some (VExt (gr_particle_gal r)) /\
    lookup "param_gal" (env (snd (exec_block X fuel
                                    particle_parametric_galaxies s)))
      = Some (VExt (gr_parametric_gal r)).
Proof.
  destruct s as [e h w lg]. cbv beta iota delta [env heap log].
  intros Hpp Hps Hprint.
  match goal with
  | |- context [exec_block ?X ?f ?p ?s] => pattern (exec_block X f p s)
  end.
  match goal with
  | |- ?P ?r =>
      change (wp X (exec_block X fuel particle_parametric_galaxies)
                (MState e h w lg) P)
  end.
  wp_run heap_concrete no_track galaxies_leaf.
Qed.

Lemma particle_parametric_split :
  nb_code particle_parametric
    = particle_parametric_setup ++ particle_parametric_galaxies.
Proof. reflexivity. Qed.

(** X11: three ways to a galaxy.  When the particle-vs-parametric notebook
    has completed: its first cell has made the parametric stars with
    [synthesizer.parametric.Stars] and sampled the particle stars from their
    history, ages and metallicities with [sample_sfhz]; and the three cells
    after it have added to the trace, each under the import at its top,
    [synthesizer.Galaxy] called once on the particle stars and once on the
    parametric stars, [synthesizer.particle.Galaxy] on the particle stars,
    and [synthesizer.parametric.Galaxy] on the parametric stars, each galaxy
    printed.  In the end [Galaxy] names the parametric class, and
    [part_gal] and [param_gal] name the galaxies of the last two cells,
    not those of the factory. *)
Theorem each_galaxy_from_its_own_import :
  forall (X : external) (fuel : nat) (w : lstate X),
    fst (run X fuel w (nb_code particle_parametric)) = Normal tt ->
    exists pp ps r,
      stars_made pp ps (trace (snd (run X fuel w particle_parametric_setup)))
      /\
      trace (snd (run X fuel w (nb_code particle_parametric)))
        = trace (snd (run X fuel w particle_parametric_setup))
            ++ galaxies_events pp ps r /\
      lookup "Galaxy" (env (snd (run X fuel w (nb_code particle_parametric))))
        = Some (VLib "synthesizer.parametric.Galaxy") /\
      lookup "part_gal"
        (env (snd (run X fuel w (nb_code particle_parametric))))
        = Some (VExt (gr_particle_gal r)) /\
      lookup "param_gal"
        (env (snd (run X fuel w (nb_code particle_parametric))))
        = Some (VExt (gr_parametric_gal r)).
Proof.
  intros X fuel w. pose proof (stars_ready_run X fuel w) as Hready.
  rewrite particle_parametric_split.
  unfold run in *. rewrite exec_block_app.
  destruct (exec_block X fuel particle_parametric_setup (initial X w))
    as [[[]|e|why] s]; try discriminate.
  intros Hdone.
  destruct (Hready eq_refl) as (pp & ps & Hpp & Hps & Hprint & Hmade).
  destruct (galaxies_run X fuel s pp ps Hpp Hps Hprint Hdone)
    as (r & Hlog & Hnames).
  exists pp, ps, r. cbn [snd] in *. split; [exact Hmade|].
  split; [|exact Hnames].
  unfold trace. rewrite Hlog, rev_app_distr, rev_involutive. reflexivity.
Qed.

(** Against the sample packages, the notebook completes. *)
Lemma each_galaxy_from_its_own_import_witness :
  exists pp ps r,
    stars_made pp ps
      (trace (snd (run (demo 2) 0 0 particle_parametric_setup))) /\
    trace (snd (run (demo 2) 0 0 (nb_code particle_parametric)))
      = trace (snd (run (demo 2) 0 0 particle_parametric_setup))
          ++ galaxies_events pp ps r /\
    lookup "Galaxy"
      (env (snd (run (demo 2) 0 0 (nb_code particle_parametric))))
      = Some (VLib "synthesizer.parametric.Galaxy") /\
    lookup "part_gal"
      (env (snd (run (demo 2) 0 0 (nb_code particle_parametric))))
      = Some (VExt (gr_particle_gal r)) /\
    lookup "param_gal"
      (env (snd (run (demo 2) 0 0 (nb_code particle_parametric))))
      = Some (VExt (gr_parametric_gal r)).
Proof.
  apply (each_galaxy_from_its_own_import (demo 2) 0 0).
  vm_compute. reflexivity.
Defined.

(* ===================================================================== *)
(** ** The particle galaxy of the galaxy-lines notebook *)
(* ===================================================================== *)

Lemma galaxy_ready_run (X : external) fuel w :
  fst (run X fuel w galaxy_lines_parametric) = Normal tt ->
  galaxy_ready (snd (run X fuel w galaxy_lines_parametric)).
Proof.
  change (wp X (exec_block X fuel galaxy_lines_parametric)
            (MState [] [] w [])
            (fun r => fst r = Normal tt -> galaxy_ready (snd r))).
  wp_run heap_concrete no_track stars_leaf.
Qed.

(** The second cell, from any state in which the first has left its grid
    and its imports. *)
Lemma particle_cell_run (X : external) fuel (s : mstate X) g :
  lookup "grid" (env s) = Some (VExt g) ->
  lookup "line_ratios" (env s) = Some (VLib "synthesizer.line_ratios") ->
  lookup "PowerLaw" (env s)
    = Some (VLib "synthesizer.emission_models.attenuation.PowerLaw") ->
  lookup "Blackbody" (env s)
    = Some (VLib "synthesizer.emission_models.dust.emission.Blackbody") ->
  lookup "kelvin" (env s) = Some (VLib "unyt.kelvin") ->
  lookup "print" (env s) = None ->
  fst (exec_block X fuel galaxy_lines_particle s) = Normal tt ->
  exists r,
    log (snd (exec_block X fuel galaxy_lines_particle s))
      = rev (particle_cell_events (VExt g) r) ++ log s /\
    lookup "stars" (env (snd (exec_block X fuel galaxy_lines_particle s)))
      = Some (VExt (pa_stars r)) /\
    lookup "model" (env (snd (exec_block X fuel galaxy_lines_particle s)))
      = Some (VExt (pa_model r)) /\
    lookup "lines" (env (snd (exec_block X fuel galaxy_lines_particle s)))
      = lookup "lines" (env s).
Proof.
  destruct s as [e h w lg]. cbv beta iota delta [env heap log].
  intros Hgrid Hlr Hpl Hbb Hk Hprint.
  match goal with
  | |- context [exec_block ?X ?f ?p ?s] => pattern (exec_block X f p s)
  end.
  match goal with
  | |- ?P ?r =>
      change (wp X (exec_block X fuel galaxy_lines_particle)
                (MState e h w lg) P)
  end.
  wp_run heap_concrete no_track galaxies_leaf.
Qed.

(** X12: the particle galaxy of the galaxy-lines notebook.  When the
    notebook has completed, its second cell has added to the trace: its two
    imports; the load of the CAMELS data, the first galaxy of what was
    loaded and that galaxy's [stars]; a [PacmanEmission] model on the grid
    that the first cell loaded; then on those stars and with that model
    [get_spectra], [get_lines], [get_particle_spectra] and
    [get_particle_lines], the lines asked for being H-beta and the two
    [O III] lines, and after each pair the print of the ["emergent"] entry.
    In the end [stars] and [model] name the stars and the model of this
    cell, and [lines] still names what the first cell bound it to. *)
Theorem particle_lines_come_from_the_camels_stars :
  forall (X : external) (fuel : nat) (w : lstate X),
    fst (run X fuel w (nb_code galaxy_lines)) = Normal tt ->
    exists g r,
      In (grid_loaded g) (trace (snd (run X fuel w galaxy_lines_parametric)))
      /\
      trace (snd (run X fuel w (nb_code galaxy_lines)))
        = trace (snd (run X fuel w galaxy_lines_parametric))
            ++ particle_cell_events (VExt g) r /\
      lookup "stars" (env (snd (run X fuel w (nb_code galaxy_lines))))
        = Some (VExt (pa_stars r)) /\
      lookup "model" (env (snd (run X fuel w (nb_code galaxy_lines))))
        = Some (VExt (pa_model r)) /\
      lookup "lines" (env (snd (run X fuel w (nb_code galaxy_lines))))
        = lookup "lines" (env (snd (run X fuel w galaxy_lines_parametric))).
Proof.
  intros X fuel w. pose proof (galaxy_ready_run X fuel w) as Hready.
  change (nb_code galaxy_lines)
    with (galaxy_lines_parametric ++ galaxy_lines_particle).
  unfold run in *. rewrite exec_block_app.
  destruct (exec_block X fuel galaxy_lines_parametric (initial X w))
    as [[[]|e|why] s]; try discriminate.
  intros Hdone.
  destruct (Hready eq_refl) as (g & Hgrid & Hlr & Hpl & Hbb & Hk & Hp & Hin).
  destruct (particle_cell_run X fuel s g Hgrid Hlr Hpl Hbb Hk Hp Hdone)
    as (r & Hlog & Hnames).
  exists g, r. cbn [snd] in *. split; [exact Hin|].
  split; [|exact Hnames].
  unfold trace. rewrite Hlog, rev_app_distr, rev_involutive. reflexivity.
Qed.

(** Against the sample packages, the notebook completes. *)
Lemma particle_lines_come_from_the_camels_stars_witness :
  exists g r,
    In (grid_loaded g)
       (trace (snd (run (demo 2) 0 0 galaxy_lines_parametric))) /\
    trace (snd (run (demo 2) 0 0 (nb_code galaxy_lines)))
      = trace (snd (run (demo 2) 0 0 galaxy_lines_parametric))
          ++ particle_cell_events (VExt g) r /\
    lookup "stars" (env (snd (run (demo 2) 0 0 (nb_code galaxy_lines))))
      = Some (VExt (pa_stars r)) /\
    lookup "model" (env (snd (run (demo 2) 0 0 (nb_code galaxy_lines))))
      = Some (VExt (pa_model r)) /\
    lookup "lines" (env (snd (run (demo 2) 0 0 (nb_code galaxy_lines))))
      = lookup "lines"
          (env (snd (run (demo 2) 0 0 galaxy_lines_parametric))).
Proof.
  apply (particle_lines_come_from_the_camels_stars (demo 2) 0 0).
  vm_compute. reflexivity.
Defined.

(* ===================================================================== *)
(** ** The parametric galaxy of the galaxy-lines notebook *)
(* ===================================================================== *)

(** The first cell, run in a fresh kernel. *)
Lemma parametric_cell_run (X : external) fuel w :
  fst (run X fuel w galaxy_lines_parametric) = Normal tt ->
  exists r,
    log (snd (run X fuel w galaxy_lines_parametric))
      = rev (parametric_cell_events r) ++ [] /\
    lookup "stars" (env (snd (run X fuel w galaxy_lines_parametric)))
      = Some (VExt (pm_stars r)) /\
    lookup "model" (env (snd (run X fuel w galaxy_lines_parametric)))
      = Some (VExt (pm_model r)) /\
    lookup "lines" (env (snd (run X fuel w galaxy_lines_parametric)))
      = Some (VExt (pm_lines r)).
Proof.
  match goal with
  | |- context [run ?X ?f ?w ?p] => pattern (run X f w p)
  end.
  match goal with
  | |- ?P ?r =>
      change (wp X (exec_block X fuel galaxy_lines_parametric)
                (MState [] [] w []) P)
  end.
  wp_run heap_concrete no_track galaxies_leaf.
Qed.

(** X13: the parametric galaxy of the galaxy-lines notebook.  When the
    first cell has completed, its trace is: the seven imports; the load of
    the test grid; a constant star formation history of [100 * Myr] and a
    normal metallicity distribution; parametric [Stars] on the [log10age]
    and [metallicity] axes of that grid, with that history and that
    distribution and an initial mass of [10**12]; a [BimodalPacmanEmission]
    model on that same grid, with two power-law dust curves and two
    blackbodies; then, on those stars and with that model, [get_spectra]
    and [get_lines] for H-beta and the two [O III] lines; and the print of
    the ["emergent"] entry of [stars.lines].  [stars], [model] and [lines]
    are left naming the stars, the model and what [get_lines] returned. *)
Theorem parametric_lines_on_one_grid :
  forall (X : external) (fuel : nat) (w : lstate X),
    fst (run X fuel w galaxy_lines_parametric) = Normal tt ->
    exists r,
      trace (snd (run X fuel w galaxy_lines_parametric))
        = parametric_cell_events r /\
      lookup "stars" (env (snd (run X fuel w galaxy_lines_parametric)))
        = Some (VExt (pm_stars r)) /\
      lookup "model" (env (snd (run X fuel w galaxy_lines_parametric)))
        = Some (VExt (pm_model r)) /\
      lookup "lines" (env (snd (run X fuel w galaxy_lines_parametric)))
        = Some (VExt (pm_lines r)).
Proof.
  intros X fuel w Hdone.
  destruct (parametric_cell_run X fuel w Hdone) as (r & Hlog & Hnames).
  exists r. split; [|exact Hnames].
  unfold trace. rewrite Hlog, app_nil_r, rev_involutive. reflexivity.
Qed.

(** Against the sample packages, the first cell completes. *)
Lemma parametric_lines_on_one_grid_witness :
  exists r,
    trace (snd (run (demo 2) 0 0 galaxy_lines_parametric))
      = parametric_cell_events r /\
    lookup "stars" (env (snd (run (demo 2) 0 0 galaxy_lines_parametric)))
      = Some (VExt (pm_stars r)) /\
    lookup "model" (env (snd (run (demo 2) 0 0 galaxy_lines_parametric)))
      = Some (VExt (pm_model r)) /\
    lookup "lines" (env (snd (run (demo 2) 0 0 galaxy_lines_parametric)))
      = Some (VExt (pm_lines r)).
Proof.
  apply (parametric_lines_on_one_grid (demo 2) 0 0).
  vm_compute. reflexivity.
Defined.

(* ===================================================================== *)
(** ** A dict made and never used *)
(* ===================================================================== *)

Ltac unused_leaf :=
  idtac; wp_cont;
  lazymatch goal with
  | |- after _ _ _ _ => idtac
  | H : forallb container_free _ = true |- sfh_p_unused _ =>
      cbv beta iota delta [sfh_p_unused fst snd log heap env];
      split;
      [ first
          [ exact H
          | apply forallb_cons_true; [vm_compute; reflexivity | exact H] ]
      | first
          [ intros Hn; discriminate Hn
          | intros _; unfold_logs;
            lazymatch goal with
            | |- context [trace (MState _ _ _ ?lg)] =>
                do 3 eexists;
                exists (firstn 8 (rev lg)), (skipn 11 (rev lg))
            end;
            split; [cbv; reflexivity|];
            split; [lookup_solve|]; split; [reflexivity | lookup_solve] ] ]
  end.

(** X14: the dict [sfh_p] of the particle-vs-parametric notebook is made
    and never used.  No expression of the notebook reads the name [sfh_p].
    Whatever the packages do, no operation of a run shows them a list or a
    dict of the notebook's; and when the run has completed, the notebook
    has made just one, the dict that [sfh_p] names, whose one entry
    ["duration"] is the [100 * Myr] computed for it, while the star
    formation history that [sfh] names was made by [SFH.Constant] from a
    second [100 * Myr], computed right after the first. *)
Theorem sfh_p_is_made_and_never_used :
  existsb (String.eqb "sfh_p")
    (flat_map reads_stmt (nb_code particle_parametric)) = false /\
  forall (X : external) (fuel : nat) (w : lstate X),
    sfh_p_unused (run X fuel w (nb_code particle_parametric)).
Proof.
  split; [reflexivity|].
  intros X fuel w.
  pose (log0 := @nil event).
  assert (H : forallb container_free log0 = true) by reflexivity.
  change (wp X (exec_block X fuel (nb_code particle_parametric))
            (MState [] [] w log0) sfh_p_unused).
  wp_run heap_concrete ltac:(all_track container_free) unused_leaf.
Qed.
